(** * Tenant registry, encrypted session storage and background worker

    A shallow embedding of [shopify.server.ts] (encrypted session storage,
    the [afterAuth] hook and the webhook callbacks) and of
    [scripts/worker.js] (queue health reporting and graceful shutdown),
    together with the properties the specification states about them.
    The health route, the startup script, the container health check and
    the production verification script are embedded as well, with the
    properties their code shows.

    Asynchronous functions are embedded in a small state-and-exception
    monad: an [await] is a sequencing point, a rejected promise is a raised
    exception, [try]/[catch] is [tryCatch] and [process.exit] halts the
    computation and is not catchable. *)

From stdpp Require Import gmap strings list fin_maps.
From Stdlib Require Import ZArith NArith Lia Ascii String.

Local Open Scope string_scope.
Local Open Scope list_scope.

(** ** Outcomes and the effect monad *)

(** The ways a JavaScript exception arises in the embedded code. *)
Inductive error : Type :=
| TypeError            (* property access on undefined, bad argument *)
| EncryptionError      (* encryptToken threw *)
| DecryptionError      (* decryptToken threw *)
| StoreUnavailable     (* a store, queue or platform call rejected *)
| RecordNotFound       (* update/delete of a row that does not exist *)
| ForeignKeyViolation. (* sessions_shop_fkey *)

Inductive outcome (A : Type) : Type :=
| Ret (a : A)          (* normal completion *)
| Raise (e : error)    (* a thrown exception / rejected promise *)
| Halt (code : Z)      (* process.exit(code) *)
| OutOfFuel.           (* the embedding's loop bound was hit *)

Arguments Ret {A} a.
Arguments Raise {A} e.
Arguments Halt {A} code.
Arguments OutOfFuel {A}.

Definition M (S A : Type) : Type := S -> outcome A * S.

Definition ret {S A} (a : A) : M S A := fun s => (Ret a, s).

Definition bind {S A B} (c : M S A) (k : A -> M S B) : M S B :=
  fun s =>
    match c s with
    | (Ret a, s') => k a s'
    | (Raise e, s') => (Raise e, s')
    | (Halt z, s') => (Halt z, s')
    | (OutOfFuel, s') => (OutOfFuel, s')
    end.

Definition raise {S A} (e : error) : M S A := fun s => (Raise e, s).

Definition exit {S A} (code : Z) : M S A := fun s => (Halt code, s).

(** [try { body } catch (error) { handler }]: effects made before the throw
    stay; [process.exit] is not an exception. *)
Definition tryCatch {S A} (body : M S A) (handler : error -> M S A) : M S A :=
  fun s =>
    match body s with
    | (Raise e, s') => handler e s'
    | r => r
    end.

Definition get {S} : M S S := fun s => (Ret s, s).
Definition modify {S} (f : S -> S) : M S unit := fun s => (Ret tt, f s).

Notation "x <- c ;; k" := (bind c (fun x => k))
  (at level 100, c at next level, right associativity).
Notation "c ;;; k" := (bind c (fun _ => k))
  (at level 100, right associativity).

(** *** Properties of computations *)

(** [c] completes normally or raises: it neither exits the process nor
    hits a loop bound. *)
Definition raises_only {S A} (c : M S A) : Prop :=
  forall s, (exists a, (c s).1 = Ret a) \/ (exists e, (c s).1 = Raise e).

(** [c] always completes normally. *)
Definition returns {S A} (c : M S A) : Prop :=
  forall s, exists a, (c s).1 = Ret a.

(** [I] is kept by [c] whatever its outcome. *)
Definition preserves {S A} (I : S -> Prop) (c : M S A) : Prop :=
  forall s, I s -> I (c s).2.

(** [proj] of the state is left alone by [c]. *)
Definition stable {S A X} (proj : S -> X) (c : M S A) : Prop :=
  forall s, proj (c s).2 = proj s.

(** [Q] holds of the outcome and final state of [c] run from [s]. *)
Definition post {S A} (c : M S A) (s : S) (Q : outcome A -> S -> Prop) : Prop :=
  Q (c s).1 (c s).2.

(** JavaScript truthiness of a string-or-undefined value. *)
Definition truthy (v : option string) : bool :=
  match v with
  | Some s => negb (String.eqb s "")
  | None => false
  end.

Inductive level : Type := Info | Warn | Error.

(** ** The credential vault *)

(** Modelled from the spec: [lib/crypto.server.ts] ([encryptToken],
    [decryptToken]) is not among the sources, so the vault is an interface
    carrying the contract of the specification's Credential Vault: a per-call
    nonce, decryption inverts encryption, a blob carries its nonce and is
    therefore not empty, and decryption accepts only blobs that encryption
    produced (authentication).  [None] stands for a thrown error. *)
Class Vault : Type := {
  encryptToken : N -> string -> option string;
  decryptToken : string -> option string;
  vault_roundtrip :
    forall n p c, encryptToken n p = Some c -> decryptToken c = Some p;
  vault_nonempty :
    forall n p c, encryptToken n p = Some c -> c <> "";
  vault_authentic :
    forall c p, decryptToken c = Some p -> exists n, encryptToken n p = Some c
}.

(** ** Tenant registry and session storage ([shopify.server.ts]) *)

Module Registry.

(** The profile columns of [shops], copied from the platform's Shop
    resource.  Coordinates are only ever copied, never computed with. *)
Record Profile : Type := mkProfile {
  name : option string;
  email : option string;
  domain : option string;
  province : option string;
  country : option string;
  address1 : option string;
  zip : option string;
  city : option string;
  phone : option string;
  latitude : option Z;
  longitude : option Z;
  primaryLocale : option string;
  address2 : option string;
  planName : option string
}.

Definition noProfile : Profile :=
  mkProfile None None None None None None None None None None None None None None.

(** A property of an object of the platform as the hook reads it: the key
    may be missing ([undefined]), hold [null], or hold a value. *)
Inductive Field (A : Type) : Type :=
| Undefined
| Null
| Value (a : A).

Arguments Undefined {A}.
Arguments Null {A}.
Arguments Value {A} a.

(** The platform's Shop resource, with the properties the hook reads. *)
Module Shop.
Record t : Type := mk {
  name : Field string;
  email : Field string;
  domain : Field string;
  province : Field string;
  country : Field string;
  address1 : Field string;
  zip : Field string;
  city : Field string;
  phone : Field string;
  latitude : Field Z;
  longitude : Field Z;
  primary_locale : Field string;
  address2 : Field string;
  plan_name : Field string
}.
End Shop.

(** What the ORM writes for a value given in [create]: [undefined] and
    [null] both leave the column NULL. *)
Definition created {A} (f : Field A) : option A :=
  match f with
  | Value a => Some a
  | _ => None
  end.

(** What the ORM writes for a value given in [update]: [undefined] leaves
    the column as it is, [null] clears it. *)
Definition updated {A} (f : Field A) (old : option A) : option A :=
  match f with
  | Undefined => old
  | Null => None
  | Value a => Some a
  end.

(** The profile columns of the [create] and of the [update] argument of the
    hook's upsert. *)
Definition createProfile (s : Shop.t) : Profile :=
  mkProfile (created (Shop.name s)) (created (Shop.email s)) (created (Shop.domain s))
            (created (Shop.province s)) (created (Shop.country s))
            (created (Shop.address1 s)) (created (Shop.zip s)) (created (Shop.city s))
            (created (Shop.phone s)) (created (Shop.latitude s))
            (created (Shop.longitude s)) (created (Shop.primary_locale s))
            (created (Shop.address2 s)) (created (Shop.plan_name s)).

Definition updateProfile (s : Shop.t) (old : Profile) : Profile :=
  mkProfile (updated (Shop.name s) (name old)) (updated (Shop.email s) (email old))
            (updated (Shop.domain s) (domain old))
            (updated (Shop.province s) (province old))
            (updated (Shop.country s) (country old))
            (updated (Shop.address1 s) (address1 old)) (updated (Shop.zip s) (zip old))
            (updated (Shop.city s) (city old)) (updated (Shop.phone s) (phone old))
            (updated (Shop.latitude s) (latitude old))
            (updated (Shop.longitude s) (longitude old))
            (updated (Shop.primary_locale s) (primaryLocale old))
            (updated (Shop.address2 s) (address2 old))
            (updated (Shop.plan_name s) (planName old)).

(** A row of [shops], keyed by the [shop] column (unique index
    [shops_shop_key]).  The surrogate [id] and the [created_at]/[updated_at]
    bookkeeping columns the ORM maintains are left out. *)
Record ShopRow : Type := mkShopRow {
  profile : Profile;
  installedAt : Z;
  uninstalledAt : option Z;
  isActive : bool;
  accessTokenEncrypted : option string;
  webhookSecret : option string;
  appSettings : option string;
  features : list string
}.

(** A session object of the platform library. *)
Record Session : Type := mkSession {
  sid : string;
  shop : string;
  state : string;
  isOnline : bool;
  scope : option string;
  expires : option Z;
  accessToken : option string
}.

(** A row of [sessions] (primary key [id]); [access_token] is NOT NULL, and
    the library writes the empty string for a session without a token. *)
Record SessionRow : Type := mkSessionRow {
  row_shop : string;
  row_state : string;
  row_isOnline : bool;
  row_scope : option string;
  row_expires : option Z;
  row_accessToken : string
}.

(** A queued job; the registry code never touches the queue. *)
Record Job : Type := mkJob {
  jobId : nat;
  jobShop : string;
  jobTopic : string
}.

Record LogEntry : Type := mkLog {
  lvl : level;
  msg : string;
  err : option error
}.

(** The store, the JavaScript heap of session objects (so that a mutation
    of a session is seen by every holder of the reference), the clock, the
    nonce supply of the vault, the script of outages met by the coming
    external calls ([true]: the call rejects) and the log. *)
Record World : Type := mkWorld {
  shops : gmap string ShopRow;
  sessions : gmap string SessionRow;
  jobs : list Job;
  heap : gmap nat Session;
  clock : Z;
  nonce : N;
  faults : list bool;
  log : list LogEntry
}.

Definition with_shops (f : gmap string ShopRow -> gmap string ShopRow) (w : World) : World :=
  mkWorld (f (shops w)) (sessions w) (jobs w) (heap w) (clock w) (nonce w) (faults w) (log w).
Definition with_sessions (f : gmap string SessionRow -> gmap string SessionRow) (w : World) : World :=
  mkWorld (shops w) (f (sessions w)) (jobs w) (heap w) (clock w) (nonce w) (faults w) (log w).
Definition with_heap (f : gmap nat Session -> gmap nat Session) (w : World) : World :=
  mkWorld (shops w) (sessions w) (jobs w) (f (heap w)) (clock w) (nonce w) (faults w) (log w).
Definition with_nonce (n : N) (w : World) : World :=
  mkWorld (shops w) (sessions w) (jobs w) (heap w) (clock w) n (faults w) (log w).
Definition with_faults (fs : list bool) (w : World) : World :=
  mkWorld (shops w) (sessions w) (jobs w) (heap w) (clock w) (nonce w) fs (log w).
Definition with_log (f : list LogEntry -> list LogEntry) (w : World) : World :=
  mkWorld (shops w) (sessions w) (jobs w) (heap w) (clock w) (nonce w) (faults w) (f (log w)).

(** [logger.info], [logger.error]. *)
Definition logger (l : level) (m : string) (e : option error) : M World unit :=
  modify (with_log (fun es => es ++ [mkLog l m e])).

(** An awaited call to the store or the platform: it rejects when the
    outage script says so. *)
Definition external {A} (op : M World A) : M World A :=
  fun w =>
    match faults w with
    | true :: fs => (Raise StoreUnavailable, with_faults fs w)
    | false :: fs => op (with_faults fs w)
    | [] => op w
    end.

(** [new Date()]. *)
Definition newDate : M World Z := fun w => (Ret (clock w), w).

Section WithVault.
Context `{V : Vault}.

(** [encryptToken(t)] with the next nonce. *)
Definition encrypt (t : string) : M World string :=
  fun w =>
    let w' := with_nonce (N.succ (nonce w)) w in
    match encryptToken (nonce w) t with
    | Some c => (Ret c, w')
    | None => (Raise EncryptionError, w')
    end.

(** [encryptToken(session.accessToken)] where the token may be undefined. *)
Definition encryptOpt (t : option string) : M World string :=
  match t with
  | Some s => encrypt s
  | None => raise TypeError
  end.

Definition decrypt (c : string) : M World string :=
  match decryptToken c with
  | Some p => ret p
  | None => raise DecryptionError
  end.

(** *** The ORM calls *)

(** [prisma.shop.upsert({ where: { shop }, create, update })]. *)
Definition shop_upsert (key : string) (create : ShopRow) (update : ShopRow -> ShopRow)
  : M World unit :=
  external (modify (with_shops (fun t =>
    match t !! key with
    | Some r => <[key := update r]> t
    | None => <[key := create]> t
    end))).

(** [prisma.shop.update({ where: { shop }, data })]: rejects when there is
    no such row. *)
Definition shop_update (key : string) (update : ShopRow -> ShopRow) : M World unit :=
  external (w <- get ;;
            match shops w !! key with
            | Some r => modify (with_shops (insert key (update r)))
            | None => raise RecordNotFound
            end).

Definition sessions_of (key : string) (t : gmap string SessionRow) : gmap string SessionRow :=
  filter (fun kv => row_shop kv.2 = key) t.

(** [prisma.shop.delete({ where: { shop } })]: rejects when there is no such
    row, and when a session still references the shop, since
    [sessions_shop_fkey] is declared ON DELETE RESTRICT. *)
Definition shop_delete (key : string) : M World unit :=
  external (w <- get ;;
            match shops w !! key with
            | None => raise RecordNotFound
            | Some _ =>
                if decide (sessions_of key (sessions w) = ∅)
                then modify (with_shops (delete key))
                else raise ForeignKeyViolation
            end).

(** [prisma.session.deleteMany({ where: { shop } })]. *)
Definition session_deleteMany (key : string) : M World unit :=
  external (modify (with_sessions (filter (fun kv => row_shop kv.2 <> key)))).

(** [v || null], and a property that is set only [if (v)]: a missing and
    an empty string both come out as nothing. *)
Definition orNull (v : option string) : option string :=
  if truthy v then v else None.

(** [PrismaSessionStorage.sessionToRow]: [scope: session.scope || null],
    [expires: session.expires || null] and
    [accessToken: session.accessToken || '']. *)
Definition sessionToRow (s : Session) : SessionRow :=
  mkSessionRow (shop s) (state s) (isOnline s) (orNull (scope s)) (expires s)
               (default "" (accessToken s)).

(** [PrismaSessionStorage.rowToSession]: [expires], [scope] and
    [accessToken] are copied only when the column is truthy, so an empty
    token is loaded as [undefined]. *)
Definition rowToSession (id : string) (r : SessionRow) : Session :=
  mkSession id (row_shop r) (row_state r) (row_isOnline r) (orNull (row_scope r))
            (row_expires r) (orNull (Some (row_accessToken r))).

(** [PrismaSessionStorage.storeSession]: upsert of the session row by id;
    the row needs an existing shop ([sessions_shop_fkey]). *)
Definition super_storeSession (s : Session) : M World bool :=
  external (w <- get ;;
            match shops w !! shop s with
            | None => raise ForeignKeyViolation
            | Some _ =>
                modify (with_sessions (insert (sid s) (sessionToRow s))) ;;;
                ret true
            end).

(** [PrismaSessionStorage.loadSession]: a fresh session object, or
    undefined. *)
Definition super_loadSession (id : string) : M World (option Session) :=
  external (w <- get ;; ret (rowToSession id <$> sessions w !! id)).

(** *** [EncryptedPrismaSessionStorage] *)

(** Reading a property of the object behind a reference; a dangling
    reference stands for [undefined]. *)
Definition deref (r : nat) : M World Session :=
  w <- get ;;
  match heap w !! r with
  | Some s => ret s
  | None => raise TypeError
  end.

(** [session.accessToken = v]. *)
Definition setAccessToken (r : nat) (v : string) : M World unit :=
  modify (with_heap (fun h =>
    match h !! r with
    | Some s =>
        <[r := mkSession (sid s) (shop s) (state s) (isOnline s) (scope s)
                         (expires s) (Some v)]> h
    | None => h
    end)).

(** The [try] block of [storeSession]. *)
Definition storeSession_try (r : nat) : M World bool :=
  session <- deref r ;;
  if truthy (accessToken session) then
    let originalToken := default "" (accessToken session) in
    c <- encrypt originalToken ;;
    setAccessToken r c ;;;
    session' <- deref r ;;
    result <- super_storeSession session' ;;
    (if negb (String.eqb (shop session') "") && truthy (Some originalToken) then
       cCreate <- encrypt originalToken ;;
       cUpdate <- encrypt originalToken ;;
       now <- newDate ;;  (* installed_at defaults to CURRENT_TIMESTAMP *)
       shop_upsert (shop session')
         (mkShopRow noProfile now None true (Some cCreate) None None [])
         (fun row =>
            mkShopRow (profile row) (installedAt row) (uninstalledAt row) true
                      (Some cUpdate) (webhookSecret row) (appSettings row)
                      (features row))
     else ret tt) ;;;
    ret result
  else super_storeSession session.

Definition storeSession (r : nat) : M World bool :=
  tryCatch (storeSession_try r)
    (fun e => logger Error "Failed to store session:" (Some e) ;;; ret false).

(** The [try] block of [loadSession]. *)
Definition loadSession_try (id : string) : M World (option Session) :=
  session <- super_loadSession id ;;
  match session with
  | Some s =>
      if truthy (accessToken s) then
        p <- decrypt (default "" (accessToken s)) ;;
        ret (Some (mkSession (sid s) (shop s) (state s) (isOnline s) (scope s)
                             (expires s) (Some p)))
      else ret (Some s)
  | None => ret None
  end.

Definition loadSession (id : string) : M World (option Session) :=
  tryCatch (loadSession_try id)
    (fun e => logger Error "Failed to load session:" (Some e) ;;; ret None).

(** *** The [afterAuth] hook

    [admin] is what [admin.rest.resources.Shop.all] answers.  Both branches
    of the upsert argument are built before the call, so the token is
    encrypted twice.  A property the platform's record lacks is [undefined]
    in both branches: the created row gets NULL there, the updated row keeps
    what it had. *)
Definition afterAuth (r : nat) (admin : list Shop.t) : M World unit :=
  tryCatch
    (session <- deref r ;;
     logger Info ("Shop " +:+ shop session +:+ " completed OAuth flow") None ;;;
     external (ret tt) ;;;  (* shopify.registerWebhooks *)
     shopData <- external (ret admin) ;;
     match head shopData with
     | Some shopInfo =>
         session' <- deref r ;;
         cCreate <- encryptOpt (accessToken session') ;;
         now <- newDate ;;
         cUpdate <- encryptOpt (accessToken session') ;;
         shop_upsert (shop session')
           (mkShopRow (createProfile shopInfo) now None true (Some cCreate) None None [])
           (fun row =>
              mkShopRow (updateProfile shopInfo (profile row)) (installedAt row) None
                        true (Some cUpdate)
                        (webhookSecret row) (appSettings row) (features row))
     | None => ret tt
     end)
    (fun e =>
       session <- deref r ;;
       logger Error ("After auth hook failed for shop " +:+ shop session +:+ ":") (Some e)).

End WithVault.

(** *** The webhook callbacks *)

Definition APP_UNINSTALLED (key : string) : M World unit :=
  tryCatch
    (logger Info ("App uninstalled webhook received for shop: " +:+ key) None ;;;
     now <- newDate ;;
     shop_update key
       (fun row =>
          mkShopRow (profile row) (installedAt row) (Some now) false
                    (accessTokenEncrypted row) (webhookSecret row) (appSettings row)
                    (features row)) ;;;
     logger Info ("Cleaned up data for uninstalled shop: " +:+ key) None)
    (fun e =>
       logger Error ("Failed to process app uninstall for shop " +:+ key +:+ ":") (Some e)).

Definition CUSTOMERS_DATA_REQUEST (key : string) : M World unit :=
  logger Info ("Customer data request received for shop: " +:+ key) None.

Definition CUSTOMERS_REDACT (key : string) : M World unit :=
  logger Info ("Customer data redaction request received for shop: " +:+ key) None.

Definition SHOP_REDACT (key : string) : M World unit :=
  logger Info ("Shop data redaction request received for shop: " +:+ key) None ;;;
  tryCatch
    (shop_delete key ;;;
     session_deleteMany key ;;;
     logger Info ("Deleted all data for shop: " +:+ key) None)
    (fun e => logger Error ("Failed to delete shop data for " +:+ key +:+ ":") (Some e)).

Definition APP_SUBSCRIPTIONS_UPDATE (key : string) : M World unit :=
  logger Info ("App subscription update received for shop: " +:+ key) None.

(** *** Histories of the registry

    The operations that write tenant state, the read path and the moves of
    the environment (the platform library makes a session object, outages
    get scheduled, time passes). *)
Inductive Op : Type :=
| StoreSession (r : nat)
| LoadSession (id : string)
| AfterAuth (r : nat) (admin : list Shop.t)
| Uninstalled (key : string)
| DataRequest (key : string)
| CustomersRedact (key : string)
| ShopRedact (key : string)
| SubscriptionsUpdate (key : string)
| NewSession (r : nat) (s : Session)
| Outage (fs : list bool)
| Tick (dt : Z).

Definition step `{V : Vault} (op : Op) (w : World) : World :=
  match op with
  | StoreSession r => (storeSession r w).2
  | LoadSession id => (loadSession id w).2
  | AfterAuth r admin => (afterAuth r admin w).2
  | Uninstalled key => (APP_UNINSTALLED key w).2
  | DataRequest key => (CUSTOMERS_DATA_REQUEST key w).2
  | CustomersRedact key => (CUSTOMERS_REDACT key w).2
  | ShopRedact key => (SHOP_REDACT key w).2
  | SubscriptionsUpdate key => (APP_SUBSCRIPTIONS_UPDATE key w).2
  | NewSession r s => with_heap (insert r s) w
  | Outage fs => with_faults fs w
  | Tick dt =>
      mkWorld (shops w) (sessions w) (jobs w) (heap w) (clock w + dt) (nonce w)
              (faults w) (log w)
  end.

Definition run `{V : Vault} (ops : list Op) (w : World) : World :=
  foldl (fun w op => step op w) w ops.

(** What an install, and likewise a reinstall, runs of this file: at the
    end of the OAuth flow the platform library makes the session object,
    hands it to [sessionStorage.storeSession] and then hands the same
    object to the [afterAuth] hook. *)
Definition install (r : nat) (s : Session) (admin : list Shop.t) : list Op :=
  [NewSession r s; StoreSession r; AfterAuth r admin].

(** "[active=true] implies a non-null credential blob", on one row and on
    the whole table. *)
Definition credentialed (row : ShopRow) : Prop :=
  isActive row = true -> is_Some (accessTokenEncrypted row).

Definition credential_invariant (w : World) : Prop :=
  map_Forall (fun _ row => credentialed row) (shops w).

(** The row as [app/uninstalled] rewrites it. *)
Definition markedUninstalled (now : Z) (row : ShopRow) : ShopRow :=
  mkShopRow (profile row) (installedAt row) (Some now) false
            (accessTokenEncrypted row) (webhookSecret row) (appSettings row)
            (features row).

(** No outage is scheduled. *)
Definition quiet (w : World) : Prop := Forall (fun b => b = false) (faults w).

(** The next external call is answered. *)
Definition answered (w : World) : Prop := head (faults w) <> Some true.

(** A blob that no encryption produced. *)
Definition tampered `{V : Vault} (c : string) : Prop :=
  forall n p, encryptToken n p <> Some c.

End Registry.

(** ** The dispatcher *)

Module Dispatcher.

Inductive DeliveryStatus : Type := Pending | Processing | Success | Failed | Retry.

Inductive JobStatus : Type := JobPending | JobRunning | JobCompleted | JobFailed | JobCancelled.

Inductive Lane : Type := WebhookLane | GeneralLane.

Record DeliveryRecord : Type := mkRecord {
  recordId : nat;
  tenantKey : string;
  topic : string;
  headers : list (string * string);
  rawBody : string;
  query : list (string * string);
  hmacValid : bool;
  status : DeliveryStatus;
  attempts : nat;
  jobId : option nat
}.

Record Job : Type := mkJob {
  jid : nat;
  lane : Lane;
  jobType : string;
  payload : nat;            (* the id of the delivery record *)
  jobStatus : JobStatus;
  jobAttempts : nat;
  maxAttempts : nat
}.

(** The ledger and the queue share one store; [available] tells whether
    the store answers. *)
Record Ledger : Type := mkLedger {
  records : list DeliveryRecord;
  queue : list Job;
  available : bool
}.

Definition defaultMaxAttempts : nat := 3.

(** Modelled from the spec: the dispatcher ([lib/webhooks.server.ts]) is
    not among the sources.  [accept] follows the specification's Delivery
    Ledger and Dispatcher section: it always persists one record, whatever
    [signatureValid] is, and enqueues a webhook-lane job only when
    [signatureValid] is true; the insert and the enqueue are one
    transaction, so an unavailable store fails the call and leaves nothing
    behind; a rejected event is recorded as failed and gets no job. *)
Definition accept (tenant topicName : string) (hdrs : list (string * string))
    (body : string) (q : list (string * string)) (signatureValid : bool)
  : M Ledger nat :=
  l <- get ;;
  if available l then
    let rid := List.length (records l) in
    let newJob := List.length (queue l) in
    let rec :=
      mkRecord rid tenant topicName hdrs body q signatureValid
               (if signatureValid then Pending else Failed) 0
               (if signatureValid then Some newJob else None) in
    let enqueued :=
      if signatureValid
      then [mkJob newJob WebhookLane topicName rid JobPending 0 defaultMaxAttempts]
      else [] in
    modify (fun l => mkLedger (records l ++ [rec]) (queue l ++ enqueued) (available l)) ;;;
    ret rid
  else raise StoreUnavailable.

End Dispatcher.

(** ** The background worker ([scripts/worker.js]) *)

Module Worker.

Inductive Lane : Type := Webhook | General.

Inductive Metric : Type := Waiting | Active | Failed.

(** What brings the worker down: the three signals it listens to and the
    two uncaught-fault events. *)
Inductive Trigger : Type :=
| SIGTERM | SIGINT | SIGUSR2 | UncaughtException | UnhandledRejection.

Definition isFault (t : Trigger) : bool :=
  match t with
  | UncaughtException | UnhandledRejection => true
  | _ => false
  end.

Definition signalName (t : Trigger) : string :=
  match t with
  | SIGTERM => "SIGTERM"
  | SIGINT => "SIGINT"
  | SIGUSR2 => "SIGUSR2"
  | UncaughtException => "uncaughtException"
  | UnhandledRejection => "unhandledRejection"
  end.

(** A job as the queue lists it. *)
Definition Job : Type := nat.

(** The structured payload of a log line: a flat object, or an object of
    objects. *)
Inductive Value : Type :=
| VNum (n : nat)
| VJobs (l : list Job).

Definition Object : Type := list (string * Value).

Inductive Payload : Type :=
| Flat (o : Object)
| Nested (groups : list (string * Object)).

(** What the worker does that can be seen from outside. *)
Inductive Event : Type :=
| Logged (l : level) (m : string) (payload : option Payload)
| AppShutdown (signal : string)      (* shopifyLogger.app.shutdown *)
| Asked (q : Lane) (m : Metric) (n : nat)
| Paused (q : Lane)
| Closed (q : Lane)
| TimerArmed (due : N)
| TimerCleared.

(** The queues ([lib/queue.server.js] is not among the sources) and the
    rest of the environment, seen through the awaited calls of the worker,
    which are numbered as they are made: what the accessors answer, whether
    the call rejects, how many milliseconds it takes, and whether a further
    trigger is delivered while it is pending.  [active()] answers the jobs
    in flight, as [gracefulShutdown] takes its [.length]; [waiting()] and
    [failed()] answer counts, as the health check compares [failed()] with a
    number. *)
Record Env : Type := mkEnv {
  q_waiting : Lane -> nat -> nat;
  q_active : Lane -> nat -> list Job;
  q_failed : Lane -> nat -> nat;
  rejects : nat -> bool;
  latency : nat -> N;
  signal : nat -> option Trigger
}.

(** The worker process: the [isShuttingDown] flag, the clock in
    milliseconds, the pending shutdown timer, the number of awaited calls
    made so far and what has been observed. *)
Record WState : Type := mkW {
  isShuttingDown : bool;
  now : N;
  deadline : option N;
  calls : nat;
  trace : list Event
}.

Definition freshWorker : WState := mkW false 0 None 0 [].

Definition emit (e : Event) : M WState unit :=
  modify (fun w => mkW (isShuttingDown w) (now w) (deadline w) (calls w) (trace w ++ [e])).

Definition logger (l : level) (m : string) (payload : option Payload) : M WState unit :=
  emit (Logged l m payload).

Definition shutdownTimeoutMs : N := 30000.
Definition pollIntervalMs : N := 1000.
Definition failureThreshold : nat := 10.

(** [gracefulShutdown] entered while [isShuttingDown] is set. *)
Definition forceShutdown : M WState unit :=
  logger Info "Force shutdown requested" None ;;;
  exit 1.

(** A trigger delivered while a shutdown is under way: its handler runs
    [gracefulShutdown], which finds [isShuttingDown] set. *)
Definition retrigger (t : Trigger) : M WState unit :=
  match t with
  | UncaughtException => logger Error "Uncaught exception in worker:" None ;;; forceShutdown
  | UnhandledRejection => logger Error "Unhandled rejection in worker:" None ;;; forceShutdown
  | _ => forceShutdown
  end.

(** The callback of the shutdown timer. *)
Definition onShutdownTimeout : M WState unit :=
  logger Warn "Shutdown timeout reached, forcing exit" None ;;;
  exit 1.

(** One [await]: the call gets the next number, time passes, and the event
    loop runs what became due meanwhile: the handler of a trigger delivered
    during a shutdown, then the shutdown timer.  (A trigger delivered to a
    worker that is not shutting down starts a shutdown of its own; runs are
    followed one at a time.) *)
Definition await (env : Env) (dur : nat -> N) : M WState nat :=
  w <- get ;;
  let n := calls w in
  let t := (now w + dur n)%N in
  modify (fun w => mkW (isShuttingDown w) t (deadline w) (S n) (trace w)) ;;;
  (match isShuttingDown w, signal env n with
   | true, Some trig => retrigger trig
   | _, _ => ret tt
   end) ;;;
  (match deadline w with
   | Some due => if (due <=? t)%N then onShutdownTimeout else ret tt
   | None => ret tt
   end) ;;;
  ret n.

(** An awaited call to a queue. *)
Definition queueCall {A} (env : Env) (answer : nat -> A) : M WState A :=
  n <- await env (latency env) ;;
  if rejects env n then raise StoreUnavailable else ret (answer n).

(** [await new Promise(resolve => setTimeout(resolve, ms))]. *)
Definition sleep (env : Env) (ms : N) : M WState unit :=
  await env (fun _ => ms) ;;; ret tt.

Definition waiting (env : Env) (q : Lane) : M WState nat :=
  n <- queueCall env (q_waiting env q) ;;
  emit (Asked q Waiting n) ;;; ret n.

Definition active (env : Env) (q : Lane) : M WState (list Job) :=
  l <- queueCall env (q_active env q) ;;
  emit (Asked q Active (List.length l)) ;;; ret l.

Definition failed (env : Env) (q : Lane) : M WState nat :=
  n <- queueCall env (q_failed env q) ;;
  emit (Asked q Failed n) ;;; ret n.

Definition pause (env : Env) (q : Lane) : M WState unit :=
  queueCall env (fun _ => tt) ;;; emit (Paused q).

Definition close (env : Env) (q : Lane) : M WState unit :=
  queueCall env (fun _ => tt) ;;; emit (Closed q).

(** [setTimeout(..., 30000)] and [clearTimeout]. *)
Definition armShutdownTimer : M WState unit :=
  w <- get ;;
  let due := (now w + shutdownTimeoutMs)%N in
  modify (fun w => mkW (isShuttingDown w) (now w) (Some due) (calls w) (trace w)) ;;;
  emit (TimerArmed due).

Definition clearShutdownTimer : M WState unit :=
  modify (fun w => mkW (isShuttingDown w) (now w) None (calls w) (trace w)) ;;;
  emit TimerCleared.

Definition healthPayload (webhookWaiting : nat) (webhookActive : list Job)
    (webhookFailed : nat) (generalWaiting : nat) (generalActive : list Job) : Payload :=
  Nested [("webhook", [("waiting", VNum webhookWaiting);
                       ("active", VJobs webhookActive);
                       ("failed", VNum webhookFailed)]);
          ("general", [("waiting", VNum generalWaiting);
                       ("active", VJobs generalActive)])].

(** The callback [startWorker] hands to [setInterval]: one health check. *)
Definition healthCheck (env : Env) : M WState unit :=
  tryCatch
    (webhookWaiting <- waiting env Webhook ;;
     webhookActive <- active env Webhook ;;
     webhookFailed <- failed env Webhook ;;
     generalWaiting <- waiting env General ;;
     generalActive <- active env General ;;
     logger Info "Queue health check"
       (Some (healthPayload webhookWaiting webhookActive webhookFailed
                            generalWaiting generalActive)) ;;;
     if (failureThreshold <? webhookFailed)%nat then
       logger Warn "High webhook failure rate detected"
         (Some (Flat [("failed", VNum webhookFailed)]))
     else ret tt)
    (fun e => logger Error "Queue health check failed:" None).

(** [n] rounds of the interval. *)
Fixpoint healthChecks (env : Env) (n : nat) : M WState unit :=
  match n with
  | O => ret tt
  | S n' => healthCheck env ;;; healthChecks env n'
  end.

(** The [do ... while (activeJobs > 0)] loop.  Every round that goes on
    sleeps for a second with the timer armed, so [pollRounds] rounds are
    enough (see [pollLoop_spec]).  The count, which the source writes
    into the message, is carried as the payload of the line. *)
Fixpoint pollLoop (env : Env) (fuel : nat) : M WState unit :=
  match fuel with
  | O => fun w => (OutOfFuel, w)
  | S fuel' =>
      a <- active env Webhook ;;
      b <- active env General ;;
      let activeJobs := (List.length a + List.length b)%nat in
      if (0 <? activeJobs)%nat then
        logger Info "Waiting for active jobs to complete..."
          (Some (Flat [("activeJobs", VNum activeJobs)])) ;;;
        sleep env pollIntervalMs ;;;
        pollLoop env fuel'
      else ret tt
  end.

Definition pollRounds : nat := N.to_nat (shutdownTimeoutMs / pollIntervalMs).

Definition gracefulShutdown (env : Env) (signal : string) : M WState unit :=
  w <- get ;;
  if isShuttingDown w then forceShutdown
  else
    modify (fun w => mkW true (now w) (deadline w) (calls w) (trace w)) ;;;
    emit (AppShutdown signal) ;;;
    tryCatch
      (logger Info "Gracefully shutting down worker..." None ;;;
       pause env Webhook ;;;
       pause env General ;;;
       armShutdownTimer ;;;
       pollLoop env pollRounds ;;;
       clearShutdownTimer ;;;
       close env Webhook ;;;
       close env General ;;;
       logger Info "Worker shutdown complete" None ;;;
       exit 0)
      (fun e => logger Error "Error during shutdown:" None ;;; exit 1).

(** The handlers installed with [process.on]. *)
Definition onTrigger (env : Env) (t : Trigger) : M WState unit :=
  match t with
  | UncaughtException =>
      logger Error "Uncaught exception in worker:" None ;;;
      gracefulShutdown env (signalName t)
  | UnhandledRejection =>
      logger Error "Unhandled rejection in worker:" None ;;;
      gracefulShutdown env (signalName t)
  | _ => gracefulShutdown env (signalName t)
  end.

(** *** Reading a run *)

(** The worker is up and no shutdown has begun. *)
Definition running (w : WState) : Prop :=
  isShuttingDown w = false /\ deadline w = None.

(** Nothing disturbs the shutdown: no queue call rejects and no further
    trigger arrives. *)
Definition undisturbed (env : Env) : Prop :=
  (forall n, rejects env n = false) /\ (forall n, signal env n = None).

(** The shutdown timer has run out. *)
Definition timedOut (w : WState) : Prop :=
  match deadline w with
  | Some due => (due <= now w)%N
  | None => False
  end.

(** The number of jobs in flight that the last poll of a lane found. *)
Fixpoint lastPoll (q : Lane) (tr : list Event) (acc : option nat) : option nat :=
  match tr with
  | [] => acc
  | Asked q' Active n :: tr' =>
      lastPoll q tr' (match q, q' with
                      | Webhook, Webhook | General, General => Some n
                      | _, _ => acc
                      end)
  | _ :: tr' => lastPoll q tr' acc
  end.

(** There was a poll, and the last one found both lanes without a job in
    flight. *)
Definition drained (tr : list Event) : Prop :=
  lastPoll Webhook tr None = Some 0%nat /\
  lastPoll General tr None = Some 0%nat.

Definition isPoll (e : Event) : bool :=
  match e with
  | Asked _ Active _ => true
  | _ => false
  end.

(** Both lanes are paused before the first poll, if there is any poll. *)
Definition pausedBeforePolls (tr : list Event) : Prop :=
  existsb isPoll tr = false \/
  exists pre post,
    tr = pre ++ [Paused Webhook; Paused General] ++ post /\
    existsb isPoll pre = false.

Definition field {A} (k : string) (o : list (string * A)) : option A :=
  snd <$> List.find (fun kv => String.eqb (fst kv) k) o.

Definition laneName (q : Lane) : string :=
  match q with Webhook => "webhook" | General => "general" end.

Definition metricName (m : Metric) : string :=
  match m with Waiting => "waiting" | Active => "active" | Failed => "failed" end.

(** What a log line reports for a metric of a lane. *)
Definition reported (q : Lane) (m : Metric) (e : Event) : option Value :=
  match e with
  | Logged _ _ (Some (Nested groups)) => field (laneName q) groups ≫= field (metricName m)
  | _ => None
  end.

Definition isWarning (e : Event) : bool :=
  match e with
  | Logged Warn _ _ => true
  | _ => false
  end.

Definition countOf (v : Value) : nat :=
  match v with
  | VNum n => n
  | VJobs l => List.length l
  end.

(** The log line [e] reports [n] as the count of a metric of a lane. *)
Definition reportsCount (q : Lane) (m : Metric) (n : nat) (e : Event) : bool :=
  match reported q m e with
  | Some v => Nat.eqb (countOf v) n
  | None => false
  end.

(** What was observed between two states of a run. *)
Definition since (w w' : WState) : list Event :=
  drop (List.length (trace w)) (trace w').

(** The count the queue holds for a metric of a lane at call number [n]. *)
Definition held (env : Env) (q : Lane) (m : Metric) (n : nat) : nat :=
  match m with
  | Waiting => q_waiting env q n
  | Active => List.length (q_active env q n)
  | Failed => q_failed env q n
  end.

(** The run ended as a forced shutdown: its last line is the warning of the
    timer, the note of a repeated trigger or the error of the shutdown
    sequence. *)
Definition forcedBy (e : Event) : Prop :=
  e = Logged Warn "Shutdown timeout reached, forcing exit" None \/
  e = Logged Info "Force shutdown requested" None \/
  e = Logged Error "Error during shutdown:" None.

(** The run went through the whole sequence. *)
Definition completed (tr : list Event) : Prop :=
  exists pre,
    tr = pre ++ [TimerCleared; Closed Webhook; Closed General;
                 Logged Info "Worker shutdown complete" None].

(** The lines of a health check. *)
Definition healthLine (env : Env) (n : nat) : Event :=
  Logged Info "Queue health check"
    (Some (healthPayload (q_waiting env Webhook n) (q_active env Webhook (n + 1))
                         (q_failed env Webhook (n + 2)) (q_waiting env General (n + 3))
                         (q_active env General (n + 4)))).

Definition healthWarning (env : Env) (n : nat) : list Event :=
  if (failureThreshold <? q_failed env Webhook (n + 2))%nat
  then [Logged Warn "High webhook failure rate detected"
          (Some (Flat [("failed", VNum (q_failed env Webhook (n + 2)))]))]
  else [].

(** What the handler of a trigger logs before it calls
    [gracefulShutdown]. *)
Definition prologue (t : Trigger) : list Event :=
  match t with
  | UncaughtException => [Logged Error "Uncaught exception in worker:" None]
  | UnhandledRejection => [Logged Error "Unhandled rejection in worker:" None]
  | _ => []
  end.

(** How a shutdown that starts in [w] ends. *)
Definition shutdownPost (env : Env) (w : WState) (o : outcome unit) (w' : WState) : Prop :=
  exists code new,
    o = Halt code /\
    trace w' = trace w ++ new /\
    pausedBeforePolls new /\
    ((code = 0%Z /\ completed (trace w') /\ drained new) \/
     (code = 1%Z /\ exists e, last (trace w') = Some e /\ forcedBy e)) /\
    (undisturbed env -> (code = 0%Z /\ drained new) \/ (code = 1%Z /\ timedOut w')).

(** *** The statements of the specification, as they are worded *)

(** "On every iteration the counts of waiting, active and failed jobs are
    emitted for each of the two lanes; whenever the failed-job count
    exceeds the threshold the worker emits a warning and continues." *)
Definition health_check_as_stated (env : Env) (w : WState) : Prop :=
  let r := healthCheck env w in
  (forall q m,
      existsb (reportsCount q m (held env q m (calls w))) (since w r.2) = true) /\
  (forall q,
      (failureThreshold < held env q Failed (calls w))%nat ->
      existsb isWarning (since w r.2) = true) /\
  r.1 = Ret tt.

(** "For every trigger the sequence first pauses both lanes, then polls
    until the active-job count is zero or the timeout elapses, and then
    exits; the worker never exits with in-flight jobs before the timeout
    elapses." *)
Definition shutdown_as_stated (env : Env) (t : Trigger) (w : WState) : Prop :=
  let r := onTrigger env t w in
  (exists code, r.1 = Halt code) /\
  pausedBeforePolls (since w r.2) /\
  (timedOut r.2 \/ drained (since w r.2)).

(** "Exit code 0 if the sequence completes cleanly, exit code 1 if the
    shutdown is forced or triggered by an uncaught fault." *)
Definition exit_code_as_stated (env : Env) (t : Trigger) (w : WState) : Prop :=
  let r := onTrigger env t w in
  exists code,
    r.1 = Halt code /\
    (completed (trace r.2) -> code = 0%Z) /\
    ((exists e, last (trace r.2) = Some e /\ forcedBy e) -> code = 1%Z) /\
    (isFault t = true -> code = 1%Z).

End Worker.

(** ** A reference vault

    A tagging codec that meets the vault contract; it is used to run the
    embedding on concrete inputs and is not a cipher. *)

Definition tagEncrypt (n : N) (p : string) : option string := Some (String "#"%char p).

Definition tagDecrypt (c : string) : option string :=
  match c with
  | String a p => if Ascii.eqb a "#"%char then Some p else None
  | EmptyString => None
  end.

#[local] Obligation Tactic :=
  first
    [ intros n p c [= <-]; reflexivity
    | intros n p c [= <-]; discriminate
    | intros [|a c] p; simpl; [discriminate|];
      destruct (Ascii.eqb a "#"%char) eqn:E; [|discriminate];
      intros [= <-]; apply Ascii.eqb_eq in E as ->; exists 0%N; reflexivity ].

#[export] Program Instance tagVault : Vault :=
  {| encryptToken := tagEncrypt; decryptToken := tagDecrypt |}.

(** ** Concrete inputs *)

Module Examples.

Definition aShop : string := "a.example".

Definition offlineSession (token : string) : Registry.Session :=
  Registry.mkSession "offline_a.example" aShop "state" false (Some "read_products")
                     None (Some token).

(** What the platform answers for the shop, and the profile columns that
    come of it. *)
Definition shopInfo : Registry.Shop.t :=
  Registry.Shop.mk (Registry.Value "A Shop") (Registry.Value "owner@a.example")
                   (Registry.Value aShop) Registry.Null (Registry.Value "NL")
                   Registry.Null Registry.Null Registry.Null Registry.Null
                   Registry.Null Registry.Null (Registry.Value "en") Registry.Null
                   (Registry.Value "basic").

Definition shopProfile : Registry.Profile :=
  Registry.mkProfile (Some "A Shop") (Some "owner@a.example") (Some aShop) None
                     (Some "NL") None None None None None None (Some "en") None
                     (Some "basic").

(** A store with one job waiting in the queue. *)
Definition startWorld : Registry.World :=
  Registry.mkWorld ∅ ∅ [Registry.mkJob 7 aShop "orders/create"] ∅ 1000 0 [] [].

(** The tenant installed: [afterAuth] made the row and the offline session
    was stored. *)
Definition installedWorld : Registry.World :=
  Registry.run [Registry.NewSession 1 (offlineSession "tok1");
                Registry.AfterAuth 1 [shopInfo];
                Registry.NewSession 2 (offlineSession "tok1");
                Registry.StoreSession 2] startWorld.

(** The install flow on one session object: the session is stored, then the
    hook runs on the same reference. *)
Definition sharedSessionWorld : Registry.World :=
  Registry.run [Registry.NewSession 1 (offlineSession "tok1");
                Registry.AfterAuth 1 [shopInfo];
                Registry.NewSession 2 (offlineSession "tok2");
                Registry.StoreSession 2;
                Registry.AfterAuth 2 [shopInfo]] startWorld.

Definition someLedger : Dispatcher.Ledger := Dispatcher.mkLedger [] [] true.

(** A worker in the middle of a shutdown: both lanes are paused. *)
Definition pausedWorker : Worker.WState :=
  Worker.mkW true 10 None 2
    [Worker.AppShutdown "SIGTERM";
     Worker.Logged Info "Gracefully shutting down worker..." None;
     Worker.Paused Worker.Webhook; Worker.Paused Worker.General].

(** Queues with nothing to do. *)
Definition idleEnv : Worker.Env :=
  Worker.mkEnv (fun _ _ => 0%nat) (fun _ _ => []) (fun _ _ => 0%nat)
               (fun _ => false) (fun _ => 5%N) (fun _ => None).

(** Fifty failed jobs in the general lane, two in the webhook lane. *)
Definition backlogEnv : Worker.Env :=
  Worker.mkEnv (fun _ _ => 3%nat) (fun _ _ => [7%nat])
               (fun q _ => match q with Worker.Webhook => 2%nat | Worker.General => 50%nat end)
               (fun _ => false) (fun _ => 5%N) (fun _ => None).

(** Twelve failed jobs in the webhook lane. *)
Definition failingEnv : Worker.Env :=
  Worker.mkEnv (fun _ _ => 3%nat) (fun _ _ => [7%nat]) (fun _ _ => 12%nat)
               (fun _ => false) (fun _ => 5%N) (fun _ => None).

(** A job that never finishes. *)
Definition stuckEnv : Worker.Env :=
  Worker.mkEnv (fun _ _ => 0%nat)
               (fun q _ => match q with Worker.Webhook => [7%nat] | Worker.General => [] end)
               (fun _ _ => 0%nat) (fun _ => false) (fun _ => 5%N) (fun _ => None).

(** The same, and a second SIGTERM arrives during the first sleep (the
    fifth awaited call: two pauses, two polls, the sleep). *)
Definition impatientEnv : Worker.Env :=
  Worker.mkEnv (fun _ _ => 0%nat)
               (fun q _ => match q with Worker.Webhook => [7%nat] | Worker.General => [] end)
               (fun _ _ => 0%nat) (fun _ => false) (fun _ => 5%N)
               (fun n => if Nat.eqb n 4 then Some Worker.SIGTERM else None).

End Examples.

(** ** Reading the registry *)

Module Tenancy.
Import Registry.

(** The tenant an operation is about: the shop of the session object it is
    handed, or the shop named by the webhook. *)
Definition tenantOf (op : Op) (w : World) : option string :=
  match op with
  | StoreSession r | AfterAuth r _ => shop <$> heap w !! r
  | Uninstalled key | ShopRedact key => Some key
  | _ => None
  end.

(** A blob that came out of [encryptToken]. *)
Definition genuine `{V : Vault} (c : string) : Prop :=
  exists n p, encryptToken n p = Some c.

(** Every credential in [shops] is a blob of the vault, and every token in
    [sessions] is one or is empty. *)
Definition encrypted_at_rest `{V : Vault} (w : World) : Prop :=
  map_Forall (fun _ row => forall b, accessTokenEncrypted row = Some b -> genuine b)
             (shops w) /\
  map_Forall (fun _ row => row_accessToken row = "" \/ genuine (row_accessToken row))
             (sessions w).

(** The round trip of a token as the specification states it, at the
    session object behind one reference: when [storeSession] succeeds and
    the store answers the read, [loadSession] yields a session with the
    token that was stored. *)
Definition roundtrip_as_stated `{V : Vault} (r : nat) (w : World) : Prop :=
  forall s t,
    heap w !! r = Some s ->
    accessToken s = Some t ->
    (storeSession r w).1 = Ret true ->
    answered (storeSession r w).2 ->
    exists s',
      (loadSession (sid s) (storeSession r w).2).1 = Ret (Some s') /\
      accessToken s' = Some t.

End Tenancy.

(** ** The health route ([loader], the second module of [shopify.server.ts]) *)

Module HealthRoute.
Import Registry.

Inductive CheckStatus : Type := Healthy | Unhealthy | Unknown.

Record Checks : Type := mkChecks {
  database : CheckStatus;
  redis : CheckStatus;
  application : CheckStatus
}.

Record Metrics : Type := mkMetrics {
  activeShops : nat;
  totalSessions : nat
}.

(** The JSON body of the answer.  The fields read from the clock and the
    process ([timestamp], [version], [environment], [uptime], [memory], the
    response times and [nodeVersion]) are left out; [failure] is the [error]
    field of the unhealthy body. *)
Record Body : Type := mkBody {
  status : CheckStatus;
  failure : option error;
  checks : Checks;
  metrics : option Metrics
}.

Record Response : Type := mkResponse {
  body : Body;
  statusCode : Z;
  headers : list (string * string)
}.

Definition noCache : list (string * string) :=
  [("Cache-Control", "no-cache, no-store, must-revalidate");
   ("Content-Type", "application/json")].

(** [prisma.$queryRaw`SELECT 1 as health`], [redis.ping()], [redis.quit()]:
    awaited calls that answer or reject.  [new Redis(...)] connects in the
    background and does not throw. *)
Definition queryRaw : M World unit := external (ret tt).
Definition ping : M World unit := external (ret tt).
Definition quit : M World unit := external (ret tt).

(** The rows that [{ where: { isActive: true } }] selects. *)
Definition activeCount (t : gmap string ShopRow) : nat :=
  size (filter (fun kv => isActive kv.2 = true) t).

(** [prisma.shop.count({ where: { isActive: true } })]. *)
Definition shop_count_active : M World nat :=
  external (w <- get ;; ret (activeCount (shops w))).

(** [prisma.session.count()]. *)
Definition session_count : M World nat :=
  external (w <- get ;; ret (size (sessions w))).

(** [shopifyLogger.app.healthCheck(status, details)]: a line that names the
    status ([lib/logger.server] is not among the sources). *)
Definition healthCheck (s : CheckStatus) : M World unit :=
  logger Info
    (match s with
     | Healthy => "healthy"
     | Unhealthy => "unhealthy"
     | Unknown => "unknown"
     end) None.

Definition loader : M World Response :=
  tryCatch
    (queryRaw ;;;
     ping ;;;
     quit ;;;
     shopCount <- shop_count_active ;;
     sessionCount <- session_count ;;
     let healthData :=
       mkBody Healthy None (mkChecks Healthy Healthy Healthy)
              (Some (mkMetrics shopCount sessionCount)) in
     healthCheck Healthy ;;;
     ret (mkResponse healthData 200 noCache))
    (fun e =>
       let errorData :=
         mkBody Unhealthy (Some e) (mkChecks Unknown Unknown Unhealthy) None in
       healthCheck Unhealthy ;;;
       logger Error "Health check failed:" (Some e) ;;;
       ret (mkResponse errorData 503 noCache)).

(** The five awaited calls of the route are answered. *)
Definition reachable (w : World) : Prop :=
  Forall (fun b => b = false) (take 5 (faults w)).

End HealthRoute.

(** ** Reading a health check of the worker *)

Module WorkerReading.
Import Worker.

(** What the five queue calls of a health check that starts at call [n]
    leave in the trace when they are answered. *)
Definition healthAsked (env : Env) (n : nat) : list Event :=
  [Asked Webhook Waiting (q_waiting env Webhook n);
   Asked Webhook Active (List.length (q_active env Webhook (n + 1)));
   Asked Webhook Failed (q_failed env Webhook (n + 2));
   Asked General Waiting (q_waiting env General (n + 3));
   Asked General Active (List.length (q_active env General (n + 4)))].

End WorkerReading.

(** ** The startup script ([start.sh], the second module of [scripts/worker.js]) *)

Module Startup.

Inductive Command : Type :=
| DbExecute        (* npx prisma db execute --stdin < <(echo "SELECT 1;") *)
| RedisPing        (* redis-cli -u "$REDIS_URL" ping *)
| MigrateDeploy    (* npx prisma migrate deploy *)
| PrismaGenerate   (* npx prisma generate *)
| MkdirLogs        (* mkdir -p /app/logs *)
| NodeServer.      (* node build/server/index.js *)

(** The environment of the script: the three variables it tests (unset and
    empty are the same to [-z]), whether the n-th probe of the database and
    of Redis succeeds, and the exit statuses of the commands it runs. *)
Record Env : Type := mkEnv {
  DATABASE_URL : string;
  REDIS_URL : string;
  SHOPIFY_API_KEY : string;
  dbAnswers : nat -> bool;
  redisAnswers : nat -> bool;
  migrateStatus : Z;
  generateStatus : Z;
  mkdirStatus : Z
}.

Inductive Event : Type :=
| Echo (line : string)
| Ran (c : Command)
| Slept (seconds : nat)
| Exec (c : Command).

Definition emit (e : Event) : M (list Event) unit := modify (fun tr => tr ++ [e]).

Definition echo (line : string) : M (list Event) unit := emit (Echo line).

(** A simple command under [set -e]: a non-zero status ends the script with
    that status. *)
Definition run (c : Command) (status : Z) : M (list Event) unit :=
  emit (Ran c) ;;;
  if (status =? 0)%Z then ret tt else exit status.

(** [until c; do echo line; sleep 5; done].  The status of a command that
    is tested does not end the script; the loop goes on for as long as the
    probe fails. *)
Fixpoint untilReady (answers : nat -> bool) (c : Command) (line : string)
    (fuel n : nat) : M (list Event) unit :=
  match fuel with
  | O => fun tr => (OutOfFuel, tr)
  | S fuel' =>
      emit (Ran c) ;;;
      if answers n then ret tt
      else echo line ;;; emit (Slept 5) ;;; untilReady answers c line fuel' (S n)
  end.

(** [if [ -z "$VAR" ]; then echo ...; exit 1; fi]. *)
Definition require (value line : string) : M (list Event) unit :=
  if String.eqb value "" then echo line ;;; exit 1 else ret tt.

Definition start (env : Env) (fuel : nat) : M (list Event) unit :=
  echo "🚀 Starting Shopify App Production Server..." ;;;
  require (DATABASE_URL env) "❌ ERROR: DATABASE_URL is not set" ;;;
  require (REDIS_URL env) "❌ ERROR: REDIS_URL is not set" ;;;
  require (SHOPIFY_API_KEY env) "❌ ERROR: SHOPIFY_API_KEY is not set" ;;;
  echo "✅ Environment variables validated" ;;;
  echo "⏳ Waiting for database connection..." ;;;
  untilReady (dbAnswers env) DbExecute "Database not ready, waiting 5 seconds..." fuel 0 ;;;
  echo "✅ Database connection established" ;;;
  echo "⏳ Waiting for Redis connection..." ;;;
  untilReady (redisAnswers env) RedisPing "Redis not ready, waiting 5 seconds..." fuel 0 ;;;
  echo "✅ Redis connection established" ;;;
  echo "📦 Running database migrations..." ;;;
  run MigrateDeploy (migrateStatus env) ;;;
  echo "✅ Database migrations completed" ;;;
  echo "🔧 Generating Prisma client..." ;;;
  run PrismaGenerate (generateStatus env) ;;;
  echo "✅ Prisma client generated" ;;;
  run MkdirLogs (mkdirStatus env) ;;;
  echo "🌟 Starting application server..." ;;;
  emit (Exec NodeServer).

(** *** Reading a run of the script *)

(** The first probe that succeeds is the [n]-th. *)
Definition firstAnswer (answers : nat -> bool) (n : nat) : Prop :=
  answers n = true /\ forall k, (k < n)%nat -> answers k = false.

(** What a wait of [n] failed probes and one that succeeds prints. *)
Fixpoint waited (c : Command) (line : string) (n : nat) : list Event :=
  match n with
  | O => [Ran c]
  | S n' => [Ran c; Echo line; Slept 5] ++ waited c line n'
  end.

(** What a wait leaves after [n] probes that all failed. *)
Fixpoint stillWaiting (c : Command) (line : string) (n : nat) : list Event :=
  match n with
  | O => []
  | S n' => [Ran c; Echo line; Slept 5] ++ stillWaiting c line n'
  end.

Definition isRan (c : Command) (e : Event) : bool :=
  match e, c with
  | Ran DbExecute, DbExecute | Ran RedisPing, RedisPing
  | Ran MigrateDeploy, MigrateDeploy | Ran PrismaGenerate, PrismaGenerate
  | Ran MkdirLogs, MkdirLogs | Ran NodeServer, NodeServer => true
  | _, _ => false
  end.

Definition isExec (e : Event) : bool :=
  match e with
  | Exec _ => true
  | _ => false
  end.

Definition isSleep (e : Event) : bool :=
  match e with
  | Slept _ => true
  | _ => false
  end.

Definition isCommand (e : Event) : bool :=
  match e with
  | Ran _ | Exec _ => true
  | _ => false
  end.

End Startup.

(** ** The container health check ([healthcheck.js]) *)

Module Probe.

Inductive Status : Type := Healthy | Unhealthy.

(** The [message] of a check. *)
Inductive Message : Type :=
| DatabaseOk                   (* 'Database connection successful' *)
| DatabaseError (e : error)    (* `Database error: ${error.message}` *)
| RedisOk                      (* 'Redis connection successful' *)
| RedisError (e : error)       (* `Redis error: ${error.message}` *)
| HttpResponding               (* 'HTTP server responding' *)
| HttpReturned (statusCode : Z) (* `HTTP server returned ${res.statusCode}` *)
| HttpError                    (* `HTTP server error: ${error.message}` *)
| HttpTimeout.                 (* 'HTTP server timeout' *)

Record Check : Type := mkCheck {
  status : Status;
  message : Message
}.

(** What the request to the server meets: a response with a status, an
    error of the connection, or nothing at all. *)
Inductive HttpAnswer : Type :=
| Responded (statusCode : Z)
| Failed
| TimedOut.

(** The services behind the awaited calls, which are numbered as they are
    made: whether a call rejects and how many milliseconds it takes. *)
Record Env : Type := mkEnv {
  rejects : nat -> bool;
  latency : nat -> N;
  http : HttpAnswer
}.

Inductive Line : Type :=
| Running                                            (* console.log('🔍 Running health check...') *)
| Report (overall : Status) (database redis server : Check)  (* console.log(JSON.stringify(result)) *)
| TimeoutLine                                        (* console.error('❌ Health check timeout') *)
| FailedLine (e : error).                            (* console.error('❌ Health check failed:', error) *)

Record PState : Type := mkP {
  now : N;
  calls : nat;
  out : list Line
}.

(** The script starts at time 0, where it arms the timer. *)
Definition startProbe : PState := mkP 0 0 [].

Definition TIMEOUT : N := 5000.

Definition print (l : Line) : M PState unit :=
  modify (fun s => mkP (now s) (calls s) (out s ++ [l])).

(** The callback of [setTimeout(..., TIMEOUT * 2)]. *)
Definition onTimeout : M PState unit :=
  print TimeoutLine ;;;
  exit 1.

(** One [await]: the call gets the next number, time passes, and the timer
    runs if it became due meanwhile. *)
Definition await (dur : nat -> N) : M PState nat :=
  s <- get ;;
  let n := calls s in
  let t := (now s + dur n)%N in
  modify (fun s => mkP t (S n) (out s)) ;;;
  (if (TIMEOUT * 2 <=? t)%N then onTimeout else ret tt) ;;;
  ret n.

(** An awaited call to the database or to Redis. *)
Definition call (env : Env) : M PState unit :=
  n <- await (latency env) ;;
  if rejects env n then raise StoreUnavailable else ret tt.

Definition checkDatabase (env : Env) : M PState Check :=
  tryCatch
    (call env ;;;                       (* prisma.$queryRaw`SELECT 1` *)
     call env ;;;                       (* prisma.$disconnect() *)
     ret (mkCheck Healthy DatabaseOk))
    (fun e =>
       call env ;;;                     (* prisma.$disconnect() *)
       ret (mkCheck Unhealthy (DatabaseError e))).

Definition checkRedis (env : Env) : M PState Check :=
  tryCatch
    (call env ;;;                       (* client.connect() *)
     call env ;;;                       (* client.ping() *)
     call env ;;;                       (* client.quit() *)
     ret (mkCheck Healthy RedisOk))
    (fun e =>
       tryCatch (call env) (fun quitError => ret tt) ;;;
       ret (mkCheck Unhealthy (RedisError e))).

(** Whether the request of call [n] is settled by the server before its
    timeout of [TIMEOUT] milliseconds: the response callback gets the final
    response only (an interim 1xx response goes to the ['information']
    listeners and leaves the socket idle), and a response or an error that
    would come after [TIMEOUT] milliseconds finds the request destroyed by
    its ['timeout'] handler. *)
Definition settled (env : Env) (n : nat) : bool :=
  match http env with
  | Responded statusCode => (200 <=? statusCode)%Z && (latency env n <? TIMEOUT)%N
  | Failed => (latency env n <? TIMEOUT)%N
  | TimedOut => false
  end.

(** The promise of [checkHttpServer] always resolves: by the response
    callback, by the ['error'] handler, or by the ['timeout'] handler when
    [TIMEOUT] milliseconds are up. *)
Definition checkHttpServer (env : Env) : M PState Check :=
  n <- await (fun n => if settled env n then latency env n else TIMEOUT) ;;
  ret (if settled env n then
         match http env with
         | Responded statusCode =>
             if (200 <=? statusCode)%Z && (statusCode <? 400)%Z
             then mkCheck Healthy HttpResponding
             else mkCheck Unhealthy (HttpReturned statusCode)
         | Failed => mkCheck Unhealthy HttpError
         | TimedOut => mkCheck Unhealthy HttpTimeout
         end
       else mkCheck Unhealthy HttpTimeout).

Definition isHealthy (c : Check) : bool :=
  match status c with
  | Healthy => true
  | Unhealthy => false
  end.

Definition runHealthCheck (env : Env) : M PState unit :=
  print Running ;;;
  database <- checkDatabase env ;;
  redis <- checkRedis env ;;
  server <- checkHttpServer env ;;
  let overall := forallb isHealthy [database; redis; server] in
  print (Report (if overall then Healthy else Unhealthy) database redis server) ;;;
  exit (if overall then 0 else 1).

(** [runHealthCheck().catch(...)]. *)
Definition main (env : Env) : M PState unit :=
  tryCatch (runHealthCheck env)
    (fun e => print (FailedLine e) ;;; exit 1).

Definition isReport (l : Line) : bool :=
  match l with
  | Report _ _ _ _ => true
  | _ => false
  end.

End Probe.

(** ** The production verification script *)

Module Verify.

(** What a check may throw. *)
Inductive Failure : Type :=
| Err (message : string)     (* throw new Error(message) *)
| NoSuchFile (path : string) (* readFileSync of a file that cannot be read, or
                                JSON.parse of a file that is not JSON *)
| NotAnObject.               (* a property of undefined *)

(** What a check function does: it returns [true], returns ['warning'], or
    throws. *)
Inductive Verdict : Type :=
| ReturnsTrue
| ReturnsWarning
| Throws (f : Failure).

(** [package.json] and [tsconfig.json] as the script reads them: an absent
    object is [None]; a dependency table tells whether it holds a truthy
    entry for a name. *)
Record Package : Type := mkPackage {
  dependencies : option (string -> bool);
  devDependencies : option (string -> bool)
}.

Record TsConfig : Type := mkTsConfig {
  compilerOptions : option bool     (* compilerOptions.strict, as a truth value *)
}.

(** The project directory and the machine the script runs on. *)
Record Project : Type := mkProject {
  existsSync : string -> bool;
  readFileSync : string -> option string;
  packageJson : option Package;       (* JSON.parse(readFileSync('package.json')) *)
  tsConfig : option TsConfig;         (* JSON.parse(readFileSync('tsconfig.json')) *)
  platform : string;                  (* process.platform *)
  startExecutable : bool              (* test -x scripts/start.sh *)
}.

Inductive Line : Type :=
| Banner                         (* '🔍 Running Production Verification Checks' *)
| Described (description : string)
| PassLine
| WarningLine
| FailLine (f : Failure)
| Rule                           (* '='.repeat(50) *)
| PassedOf (passed total : nat)
| WarningsCount (n : nat)
| FailedCount (n : nat)
| VerificationFailed
| PassedWithWarnings
| Completed.                     (* the closing lines and the next steps *)

Record Tally : Type := mkTally {
  totalChecks : nat;
  passedChecks : nat;
  warnings : nat;
  transcript : list Line
}.

Definition say (l : Line) (t : Tally) : Tally :=
  mkTally (totalChecks t) (passedChecks t) (warnings t) (transcript t ++ [l]).

Definition runCheck (description : string) (fn : unit -> Verdict) (t : Tally) : Tally :=
  let t := mkTally (S (totalChecks t)) (passedChecks t) (warnings t) (transcript t) in
  let t := say (Described description) t in
  match fn tt with
  | ReturnsWarning =>
      say WarningLine (mkTally (totalChecks t) (passedChecks t) (S (warnings t)) (transcript t))
  | ReturnsTrue =>
      say PassLine (mkTally (totalChecks t) (S (passedChecks t)) (warnings t) (transcript t))
  | Throws f => say (FailLine f) t
  end.

(** [content.includes(needle)]. *)
Definition includes (content needle : string) : bool :=
  match String.index 0 needle content with
  | Some _ => true
  | None => false
  end.

(** [needles.forEach(n => { if (!content.includes(n)) throw ... })], and a
    single such test. *)
Fixpoint firstMissing (content : string) (needles : list (string * string)) : option string :=
  match needles with
  | [] => None
  | (needle, message) :: rest =>
      if includes content needle then firstMissing content rest else Some message
  end.

Definition requireAll (p : Project) (path : string) (needles : list (string * string))
  : Verdict :=
  match readFileSync p path with
  | None => Throws (NoSuchFile path)
  | Some content =>
      match firstMissing content needles with
      | Some message => Throws (Err message)
      | None => ReturnsTrue
      end
  end.

Definition requiredFiles : list string :=
  ["package.json"; "Dockerfile"; "docker-compose.prod.yml"; ".env.example";
   "tsconfig.json"; ".eslintrc.json"; ".prettierrc"; "DEPLOY.md"; "PRODUCTION-FIXES.md";
   "shopify.server.ts"; "prisma/schema.prisma";
   "prisma/migrations/20240904000000_init/migration.sql";
   "lib/env.ts"; "lib/db.server.ts"; "lib/crypto.server.ts"; "lib/security.server.ts";
   "lib/webhooks.server.ts"; "lib/billing.server.ts"; "lib/logger.server.ts";
   "lib/queue.server.ts"; "scripts/start.sh"; "scripts/healthcheck.js";
   "scripts/worker.js"; "scripts/init-db.sql"; ".github/workflows/deploy.yml"].

Definition requiredFile (p : Project) (file : string) : Verdict :=
  if existsSync p file then ReturnsTrue else Throws (Err ("File not found: " +:+ file)).

Definition requiredDeps : list string :=
  ["@shopify/shopify-app-remix"; "@shopify/app-bridge"; "@shopify/polaris";
   "@prisma/client"; "redis"; "bull"; "pino"; "helmet"; "zod"].

(** [if (!pkg.dependencies[dep] && !pkg.devDependencies[dep]) throw ...]:
    the second table is looked at only when the first has no entry. *)
Fixpoint checkDeps (pkg : Package) (deps : list string) : Verdict :=
  match deps with
  | [] => ReturnsTrue
  | dep :: rest =>
      match dependencies pkg with
      | None => Throws NotAnObject
      | Some table =>
          if table dep then checkDeps pkg rest
          else match devDependencies pkg with
               | None => Throws NotAnObject
               | Some devTable =>
                   if devTable dep then checkDeps pkg rest
                   else Throws (Err ("Missing dependency: " +:+ dep))
               end
      end
  end.

Definition packageCheck (p : Project) : Verdict :=
  match packageJson p with
  | None => Throws (NoSuchFile "package.json")
  | Some pkg => checkDeps pkg requiredDeps
  end.

Definition envCheck (p : Project) : Verdict :=
  requireAll p ".env.example"
    (map (fun v => (v, "Missing env var: " +:+ v))
         ["SHOPIFY_API_KEY"; "SHOPIFY_API_SECRET"; "SHOPIFY_APP_URL"; "DATABASE_URL";
          "REDIS_URL"; "SESSION_SECRET"; "ENCRYPTION_KEY"; "SHOPIFY_WEBHOOK_SECRET"]).

Definition tsCheck (p : Project) : Verdict :=
  match tsConfig p with
  | None => Throws (NoSuchFile "tsconfig.json")
  | Some config =>
      match compilerOptions config with
      | None => Throws NotAnObject
      | Some true => ReturnsTrue
      | Some false => Throws (Err "TypeScript strict mode not enabled")
      end
  end.

Definition dockerCheck (p : Project) : Verdict :=
  match readFileSync p "Dockerfile" with
  | None => Throws (NoSuchFile "Dockerfile")
  | Some dockerfile =>
      if negb (includes dockerfile "FROM node:18-alpine") then ReturnsWarning
      else if negb (includes dockerfile "USER nextjs")
           then Throws (Err "Dockerfile should use non-root user")
      else if negb (includes dockerfile "HEALTHCHECK")
           then Throws (Err "Dockerfile missing health check")
      else ReturnsTrue
  end.

Definition prismaCheck (p : Project) : Verdict :=
  requireAll p "prisma/schema.prisma"
    (map (fun m => ("model " +:+ m, "Missing Prisma model: " +:+ m))
         ["Session"; "Shop"; "Subscription"; "WebhookDelivery"] ++
     [("extensions = [pgcrypto]", "Missing pgcrypto extension in Prisma schema")]).

Definition securityCheck (p : Project) : Verdict :=
  requireAll p "lib/security.server.ts"
    [("setupCSP", "Missing CSP configuration");
     ("rateLimit", "Missing rate limiting");
     ("helmet", "Missing helmet security headers")].

Definition webhookCheck (p : Project) : Verdict :=
  requireAll p "lib/webhooks.server.ts"
    ([("validateHmac", "Missing HMAC validation");
      ("webhookQueue.add", "Missing queue-based processing")] ++
     map (fun h => ("'" +:+ h +:+ "'", "Missing webhook handler: " +:+ h))
         ["app/uninstalled"; "customers/redact"; "shop/redact"]).

Definition loggingCheck (p : Project) : Verdict :=
  requireAll p "lib/logger.server.ts"
    [("pino", "Missing Pino logger");
     ("redact", "Missing sensitive data redaction");
     ("shopifyLogger", "Missing Shopify-specific logging")].

Definition workflowCheck (p : Project) : Verdict :=
  requireAll p ".github/workflows/deploy.yml"
    [("security:", "Missing security audit job");
     ("test:", "Missing test job");
     ("postgres:", "Missing PostgreSQL service");
     ("redis:", "Missing Redis service")].

Definition docsCheck (p : Project) : Verdict :=
  requireAll p "DEPLOY.md"
    [("Environment Variables", "Missing environment variables section");
     ("Health Check", "Missing health check documentation");
     ("Verification", "Missing verification checklist")].

Definition permissionCheck (p : Project) : Verdict :=
  if startExecutable p then ReturnsTrue else ReturnsWarning.

(** The checks in the order the script runs them, from the second on. *)
Definition contentChecks : list (string * (Project -> Verdict)) :=
  [("Package.json dependencies", packageCheck);
   ("Environment variables template", envCheck);
   ("TypeScript configuration", tsCheck);
   ("Dockerfile best practices", dockerCheck);
   ("Prisma schema structure", prismaCheck);
   ("Security middleware", securityCheck);
   ("Webhook processing setup", webhookCheck);
   ("Logging configuration", loggingCheck);
   ("CI/CD pipeline", workflowCheck);
   ("Deployment documentation", docsCheck)].

(** Everything up to the summary. *)
Definition runChecks (p : Project) : Tally :=
  let t := say Banner (mkTally 0 0 0 []) in
  let t :=
    foldl (fun t file =>
             runCheck ("Required file: " +:+ file) (fun _ => requiredFile p file) t)
          t requiredFiles in
  let t := foldl (fun t c => runCheck c.1 (fun _ => c.2 p) t) t contentChecks in
  if negb (String.eqb (platform p) "win32")
  then runCheck "Script permissions" (fun _ => permissionCheck p) t
  else t.

(** The summary: the exit code and the final tally. *)
Definition summary (t : Tally) : Z * Tally :=
  let t := say Rule t in
  let t := say (PassedOf (passedChecks t) (totalChecks t)) t in
  let t := if (0 <? warnings t)%nat then say (WarningsCount (warnings t)) t else t in
  let failed := (totalChecks t - passedChecks t - warnings t)%nat in
  if (0 <? failed)%nat then
    (1%Z, say VerificationFailed (say (FailedCount failed) t))
  else if (0 <? warnings t)%nat then
    (0%Z, say PassedWithWarnings t)
  else (0%Z, say Completed t).

Definition verify (p : Project) : Z * Tally := summary (runChecks p).

(** *** Reading a run *)

(** The checks a run makes, with what each does. *)
Definition verdicts (p : Project) : list Verdict :=
  map (requiredFile p) requiredFiles ++
  map (fun c => c.2 p) contentChecks ++
  (if negb (String.eqb (platform p) "win32") then [permissionCheck p] else []).

Definition isThrow (v : Verdict) : bool :=
  match v with
  | Throws _ => true
  | _ => false
  end.

Definition isWarning (v : Verdict) : bool :=
  match v with
  | ReturnsWarning => true
  | _ => false
  end.

Definition isTrue (v : Verdict) : bool :=
  match v with
  | ReturnsTrue => true
  | _ => false
  end.

Definition count (f : Verdict -> bool) (vs : list Verdict) : nat :=
  List.length (List.filter f vs).

End Verify.

(** ** Further concrete inputs *)

Module Scenarios.
Import Examples.

(** The tenant has its row and no session yet. *)
Definition rowOnlyWorld : Registry.World :=
  Registry.run [Registry.NewSession 1 (offlineSession "tok1");
                Registry.AfterAuth 1 [shopInfo]] startWorld.

(** The tenant was installed and, a minute later, uninstalled. *)
Definition uninstalledWorld : Registry.World :=
  Registry.run [Registry.Tick 60; Registry.Uninstalled aShop] installedWorld.

(** The same, and the platform library has made the session object of a
    new install. *)
Definition reinstallWorld : Registry.World :=
  Registry.with_heap (insert 5%nat (offlineSession "tok2")) uninstalledWorld.

(** A new session object for the installed tenant, and a store that misses
    the next call. *)
Definition retryWorld : Registry.World :=
  Registry.with_faults [true]
    (Registry.with_heap (insert 3%nat (offlineSession "tok3")) installedWorld).

(** Two session objects of the installed tenant without a credential: the
    token of the first is absent, that of the second is empty. *)
Definition tokenlessWorld : Registry.World :=
  Registry.with_heap
    (fun h =>
       <[6%nat := Registry.mkSession "online_1" aShop "state" true None None None]>
         (<[7%nat := Registry.mkSession "online_2" aShop "state" true None None (Some "")]> h))
    installedWorld.

(** What the platform answers for the shop after a move: a new name and
    country, no plan any more, and the other properties left out. *)
Definition partialInfo : Registry.Shop.t :=
  Registry.Shop.mk (Registry.Value "A Shop BV") Registry.Undefined Registry.Undefined
                   Registry.Undefined (Registry.Value "BE") Registry.Undefined
                   Registry.Undefined Registry.Undefined Registry.Undefined
                   Registry.Undefined Registry.Undefined Registry.Undefined
                   Registry.Undefined Registry.Null.

(** A second tenant next to the first. *)
Definition twoTenantWorld : Registry.World :=
  Registry.run
    [Registry.NewSession 8 (Registry.mkSession "offline_b.example" "b.example" "state"
                                               false None None (Some "tok8"));
     Registry.AfterAuth 8 [shopInfo]] installedWorld.

(** A session object of a shop that has no row. *)
Definition strangerWorld : Registry.World :=
  Registry.with_heap
    (insert 4%nat (Registry.mkSession "offline_b.example" "b.example" "state" false None
                                      None (Some "tok4")))
    installedWorld.

(** The third queue call is rejected. *)
Definition flakyEnv : Worker.Env :=
  Worker.mkEnv (fun _ _ => 3%nat) (fun _ _ => [7%nat]) (fun _ _ => 12%nat)
               (fun n => Nat.eqb n 2) (fun _ => 5%N) (fun _ => None).

(** The second queue call is rejected. *)
Definition halfPausedEnv : Worker.Env :=
  Worker.mkEnv (fun _ _ => 0%nat) (fun _ _ => []) (fun _ _ => 0%nat)
               (fun n => Nat.eqb n 1) (fun _ => 5%N) (fun _ => None).

(** The database answers the third probe, Redis the second. *)
Definition slowEnv : Startup.Env :=
  Startup.mkEnv "postgresql://db/app" "redis://cache" "key"
                (fun n => Nat.leb 2 n) (fun n => Nat.leb 1 n) 0 0 0.

(** [REDIS_URL] is not set. *)
Definition unsetEnv : Startup.Env :=
  Startup.mkEnv "postgresql://db/app" "" "key" (fun _ => true) (fun _ => true) 0 0 0.

(** The database never answers. *)
Definition downEnv : Startup.Env :=
  Startup.mkEnv "postgresql://db/app" "redis://cache" "key"
                (fun _ => false) (fun _ => true) 0 0 0.

(** The migration fails with status 1. *)
Definition unmigratedEnv : Startup.Env :=
  Startup.mkEnv "postgresql://db/app" "redis://cache" "key"
                (fun _ => true) (fun _ => true) 1 0 0.

(** Every service answers in 20 ms; the server answers 200. *)
Definition healthyProbe : Probe.Env :=
  Probe.mkEnv (fun _ => false) (fun _ => 20%N) (Probe.Responded 200).

(** The server answers 399. *)
Definition redirectProbe : Probe.Env :=
  Probe.mkEnv (fun _ => false) (fun _ => 20%N) (Probe.Responded 399).

(** The server answers 400. *)
Definition errorProbe : Probe.Env :=
  Probe.mkEnv (fun _ => false) (fun _ => 20%N) (Probe.Responded 400).

(** The server answers 200, but only after 6 seconds. *)
Definition slowProbe : Probe.Env :=
  Probe.mkEnv (fun _ => false) (fun n => if Nat.eqb n 5 then 6000%N else 20%N)
              (Probe.Responded 200).

(** The database is down: the query and the disconnect after it reject. *)
Definition brokenDbProbe : Probe.Env :=
  Probe.mkEnv (fun n => Nat.ltb n 2) (fun _ => 20%N) (Probe.Responded 200).

(** A text that holds everything the content checks look for. *)
Definition everything : string :=
  "SHOPIFY_API_KEY SHOPIFY_API_SECRET SHOPIFY_APP_URL DATABASE_URL REDIS_URL " +:+
  "SESSION_SECRET ENCRYPTION_KEY SHOPIFY_WEBHOOK_SECRET " +:+
  "model Session model Shop model Subscription model WebhookDelivery " +:+
  "extensions = [pgcrypto] setupCSP rateLimit helmet validateHmac webhookQueue.add " +:+
  "'app/uninstalled' 'customers/redact' 'shop/redact' pino redact shopifyLogger " +:+
  "security: test: postgres: redis: Environment Variables Health Check Verification".

(** A complete project whose Dockerfile builds on another image and names
    neither a user nor a health check. *)
Definition otherImageProject : Verify.Project :=
  Verify.mkProject
    (fun _ => true)
    (fun path => if String.eqb path "Dockerfile" then Some "FROM node:20" else Some everything)
    (Some (Verify.mkPackage (Some (fun _ => true)) None))
    (Some (Verify.mkTsConfig (Some true)))
    "linux" true.

(** The same project without [scripts/worker.js]. *)
Definition incompleteProject : Verify.Project :=
  Verify.mkProject
    (fun path => negb (String.eqb path "scripts/worker.js"))
    (fun path => if String.eqb path "Dockerfile" then Some "FROM node:20" else Some everything)
    (Some (Verify.mkPackage (Some (fun _ => true)) None))
    (Some (Verify.mkTsConfig (Some true)))
    "linux" true.

End Scenarios.

(** ** Generic facts about the effect monad *)

Create HintDb effects discriminated.

Lemma returns_raises_only {S A} (c : M S A) : returns c -> raises_only c.
Proof. intros H s. left. apply H. Qed.

Lemma returns_ret {S A} (a : A) : returns (@ret S A a).
Proof. intros s. exists a. reflexivity. Qed.

Lemma returns_get {S} : returns (@get S).
Proof. intros s. exists s. reflexivity. Qed.

Lemma returns_modify {S} (f : S -> S) : returns (modify f).
Proof. intros s. exists tt. reflexivity. Qed.

Lemma returns_bind {S A B} (c : M S A) (k : A -> M S B) :
  returns c -> (forall a, returns (k a)) -> returns (bind c k).
Proof.
  intros Hc Hk s. unfold bind. destruct (Hc s) as [a Ha].
  destruct (c s) as [o s']. simpl in Ha. subst o. apply Hk.
Qed.

Lemma raises_only_raise {S A} (e : error) : raises_only (@raise S A e).
Proof. intros s. right. exists e. reflexivity. Qed.

Lemma raises_only_bind {S A B} (c : M S A) (k : A -> M S B) :
  raises_only c -> (forall a, raises_only (k a)) -> raises_only (bind c k).
Proof.
  intros Hc Hk s. unfold bind.
  destruct (Hc s) as [[a Ha]|[e He]]; destruct (c s) as [o s']; simpl in *; subst o.
  - apply Hk.
  - right. exists e. reflexivity.
Qed.

Lemma raises_only_tryCatch {S A} (body : M S A) (handler : error -> M S A) :
  raises_only body -> (forall e, raises_only (handler e)) ->
  raises_only (tryCatch body handler).
Proof.
  intros Hb Hh s. unfold tryCatch.
  destruct (Hb s) as [[a Ha]|[e He]]; destruct (body s) as [o s']; simpl in *; subst o.
  - left. exists a. reflexivity.
  - apply Hh.
Qed.

Lemma returns_tryCatch {S A} (body : M S A) (handler : error -> M S A) :
  raises_only body -> (forall e, returns (handler e)) ->
  returns (tryCatch body handler).
Proof.
  intros Hb Hh s. unfold tryCatch.
  destruct (Hb s) as [[a Ha]|[e He]]; destruct (body s) as [o s']; simpl in *; subst o.
  - exists a. reflexivity.
  - apply Hh.
Qed.

Lemma tryCatch_raise {S A} (body : M S A) (handler : error -> M S A) s e :
  (body s).1 = Raise e -> tryCatch body handler s = handler e (body s).2.
Proof. unfold tryCatch. destruct (body s) as [o s']. simpl. intros ->. reflexivity. Qed.

Lemma preserves_ret {S A} (I : S -> Prop) (a : A) : preserves I (ret a).
Proof. intros s H. exact H. Qed.

Lemma preserves_raise {S A} (I : S -> Prop) (e : error) : preserves I (@raise S A e).
Proof. intros s H. exact H. Qed.

Lemma preserves_get {S} (I : S -> Prop) : preserves I get.
Proof. intros s H. exact H. Qed.

Lemma preserves_modify {S} (I : S -> Prop) (f : S -> S) :
  (forall s, I s -> I (f s)) -> preserves I (modify f).
Proof. intros Hf s H. apply Hf, H. Qed.

Lemma preserves_bind {S A B} (I : S -> Prop) (c : M S A) (k : A -> M S B) :
  preserves I c -> (forall a, preserves I (k a)) -> preserves I (bind c k).
Proof.
  intros Hc Hk s H. unfold bind. specialize (Hc s H).
  destruct (c s) as [[a|e|z|] s']; simpl in *; try exact Hc.
  apply Hk, Hc.
Qed.

Lemma preserves_tryCatch {S A} (I : S -> Prop) (body : M S A) (handler : error -> M S A) :
  preserves I body -> (forall e, preserves I (handler e)) ->
  preserves I (tryCatch body handler).
Proof.
  intros Hb Hh s H. unfold tryCatch. specialize (Hb s H).
  destruct (body s) as [[a|e|z|] s']; simpl in *; try exact Hb.
  apply Hh, Hb.
Qed.

#[export] Hint Resolve returns_ret returns_get returns_modify returns_bind
  returns_tryCatch raises_only_raise raises_only_bind raises_only_tryCatch
  preserves_ret preserves_raise preserves_get preserves_bind preserves_tryCatch
  : effects.

Lemma post_ret {S A} (a : A) (s : S) Q : Q (Ret a) s -> post (ret a) s Q.
Proof. intros H. exact H. Qed.

Lemma post_raise {S A} e (s : S) (Q : outcome A -> S -> Prop) :
  Q (Raise e) s -> post (raise e) s Q.
Proof. intros H. exact H. Qed.

Lemma post_exit {S A} z (s : S) (Q : outcome A -> S -> Prop) :
  Q (Halt z) s -> post (exit z) s Q.
Proof. intros H. exact H. Qed.

Lemma post_get {S} (s : S) Q : Q (Ret s) s -> post get s Q.
Proof. intros H. exact H. Qed.

Lemma post_modify {S} (f : S -> S) (s : S) Q : Q (Ret tt) (f s) -> post (modify f) s Q.
Proof. intros H. exact H. Qed.

Lemma post_bind {S A B} (c : M S A) (k : A -> M S B) s Q :
  post c s (fun o s' =>
    match o with
    | Ret a => post (k a) s' Q
    | Raise e => Q (Raise e) s'
    | Halt z => Q (Halt z) s'
    | OutOfFuel => Q OutOfFuel s'
    end) ->
  post (bind c k) s Q.
Proof. unfold post, bind. destruct (c s) as [[a|e|z|] s']; simpl; auto. Qed.

Lemma post_tryCatch {S A} (body : M S A) handler s Q :
  post body s (fun o s' =>
    match o with
    | Ret a => Q (Ret a) s'
    | Raise e => post (handler e) s' Q
    | Halt z => Q (Halt z) s'
    | OutOfFuel => Q OutOfFuel s'
    end) ->
  post (tryCatch body handler) s Q.
Proof. unfold post, tryCatch. destruct (body s) as [[a|e|z|] s']; simpl; auto. Qed.

Lemma post_mono {S A} (c : M S A) s (P Q : outcome A -> S -> Prop) :
  post c s P -> (forall o s', P o s' -> Q o s') -> post c s Q.
Proof. unfold post. intros H HPQ. apply HPQ, H. Qed.

Ltac head_of t := lazymatch t with ?f _ => head_of f | _ => t end.

(** One step through the embedded code; [simp] tidies the state. *)
Ltac step_with simp :=
  lazymatch goal with
  | |- post (bind _ _) _ _ => apply post_bind
  | |- post (tryCatch _ _) _ _ => apply post_tryCatch
  | |- post (ret _) _ _ => apply post_ret
  | |- post (raise _) _ _ => apply post_raise
  | |- post (exit _) _ _ => apply post_exit
  | |- post get _ _ => apply post_get
  | |- post (modify _) _ _ => apply post_modify
  | |- post (if ?b then _ else _) _ _ => destruct b eqn:?
  | |- post (match ?x with _ => _ end) _ _ => destruct x eqn:?
  | |- post ?c _ _ => let h := head_of c in unfold h
  end; simp.

(** ** Facts about the registry *)

Module RegistryFacts.
Import Registry.

Lemma stable_ret {S A X} (proj : S -> X) (a : A) : stable proj (ret a).
Proof. intros s. reflexivity. Qed.

Lemma stable_raise {S A X} (proj : S -> X) e : stable proj (@raise S A e).
Proof. intros s. reflexivity. Qed.

Lemma stable_get {S X} (proj : S -> X) : stable proj get.
Proof. intros s. reflexivity. Qed.

Lemma stable_bind {S A B X} (proj : S -> X) (c : M S A) (k : A -> M S B) :
  stable proj c -> (forall a, stable proj (k a)) -> stable proj (bind c k).
Proof.
  intros Hc Hk s. unfold bind. specialize (Hc s).
  destruct (c s) as [[a|e|z|] s']; simpl in *; try exact Hc.
  rewrite Hk. exact Hc.
Qed.

Lemma stable_tryCatch {S A X} (proj : S -> X) (body : M S A) handler :
  stable proj body -> (forall e, stable proj (handler e)) ->
  stable proj (tryCatch body handler).
Proof.
  intros Hb Hh s. unfold tryCatch. specialize (Hb s).
  destruct (body s) as [[a|e|z|] s']; simpl in *; try exact Hb.
  rewrite Hh. exact Hb.
Qed.

Lemma stable_preserves {S A X} (proj : S -> X) (P : X -> Prop) (c : M S A) :
  stable proj c -> preserves (fun s => P (proj s)) c.
Proof. intros H s HP. rewrite H. exact HP. Qed.

#[local] Hint Resolve stable_ret stable_raise stable_get stable_bind stable_tryCatch
  : effects.

(** **** The primitives complete or raise *)

Lemma returns_logger l m e : returns (logger l m e).
Proof. apply returns_modify. Qed.

Lemma returns_newDate : returns newDate.
Proof. intros w. eexists. reflexivity. Qed.

Lemma raises_only_external {A} (op : M World A) :
  raises_only op -> raises_only (external op).
Proof.
  intros H w. unfold external. destruct (faults w) as [|[] fs]; try apply H.
  right. eexists. reflexivity.
Qed.

Lemma raises_only_deref r : raises_only (deref r).
Proof.
  intros w. unfold deref, bind, get. simpl.
  destruct (heap w !! r); [left|right]; eexists; reflexivity.
Qed.

#[local] Hint Resolve returns_logger returns_newDate returns_raises_only
  raises_only_external raises_only_deref : effects.

Section WithVault.
Context `{V : Vault}.

Lemma raises_only_encrypt t : raises_only (encrypt t).
Proof.
  intros w. unfold encrypt.
  destruct (encryptToken (nonce w) t); [left|right]; eexists; reflexivity.
Qed.

Lemma raises_only_decrypt c : raises_only (decrypt c).
Proof.
  intros w. unfold decrypt.
  destruct (decryptToken c); [left|right]; eexists; reflexivity.
Qed.

Lemma raises_only_super_storeSession s : raises_only (super_storeSession s).
Proof.
  unfold super_storeSession. apply raises_only_external, raises_only_bind.
  - auto with effects.
  - intros w. destruct (shops w !! shop s); auto 10 with effects.
Qed.

Lemma raises_only_shop_upsert key create update :
  raises_only (shop_upsert key create update).
Proof. unfold shop_upsert. auto with effects. Qed.

Lemma raises_only_storeSession_try r : raises_only (storeSession_try r).
Proof.
  unfold storeSession_try, setAccessToken.
  apply raises_only_bind; [auto with effects|]. intros session.
  destruct (truthy (accessToken session)); [|apply raises_only_super_storeSession].
  apply raises_only_bind; [apply raises_only_encrypt|]. intros c.
  apply raises_only_bind; [auto with effects|]. intros _.
  apply raises_only_bind; [auto with effects|]. intros session'.
  apply raises_only_bind; [apply raises_only_super_storeSession|]. intros result.
  apply raises_only_bind; [|auto with effects].
  destruct (_ && _); [|auto with effects].
  repeat (apply raises_only_bind; [first [apply raises_only_encrypt | auto with effects]|]; intros ?).
  apply raises_only_shop_upsert.
Qed.

Lemma raises_only_loadSession_try id : raises_only (loadSession_try id).
Proof.
  unfold loadSession_try, super_loadSession.
  apply raises_only_bind; [auto 10 with effects|]. intros [s|]; [|auto with effects].
  destruct (truthy (accessToken s)); [|auto with effects].
  apply raises_only_bind; [apply raises_only_decrypt|]. auto with effects.
Qed.

(** C10. [storeSession] and [loadSession] never throw: for every reference
    (dangling ones included), every id and every state of the store, the
    vault and the outage script they complete normally, and whenever their
    [try] block raises, [storeSession] answers [false] and [loadSession]
    answers undefined. *)
Theorem storeSession_loadSession_never_throw :
  (forall r w, exists b,
      (storeSession r w).1 = Ret b /\
      (forall e, (storeSession_try r w).1 = Raise e -> b = false)) /\
  (forall id w, exists o,
      (loadSession id w).1 = Ret o /\
      (forall e, (loadSession_try id w).1 = Raise e -> o = None)).
Proof.
  split.
  - intros r w. unfold storeSession, tryCatch.
    destruct (raises_only_storeSession_try r w) as [[b Hb]|[e He]];
      destruct (storeSession_try r w) as [o w']; simpl in *; subst o.
    + exists b. split; [reflexivity|]. intros e [=].
    + exists false. split; [reflexivity|]. reflexivity.
  - intros id w. unfold loadSession, tryCatch.
    destruct (raises_only_loadSession_try id w) as [[b Hb]|[e He]];
      destruct (loadSession_try id w) as [o w']; simpl in *; subst o.
    + exists b. split; [reflexivity|]. intros e [=].
    + exists None. split; [reflexivity|]. reflexivity.
Qed.

(** **** What leaves the tenant table and the queue alone *)

Lemma stable_external {A X} (proj : World -> X) (op : M World A) :
  (forall fs w, proj (with_faults fs w) = proj w) ->
  stable proj op -> stable proj (external op).
Proof.
  intros Hf H w. unfold external.
  destruct (faults w) as [|[] fs]; simpl; rewrite ?H, ?Hf; reflexivity.
Qed.

Lemma stable_logger {X} (proj : World -> X) l m e :
  (forall f w, proj (with_log f w) = proj w) -> stable proj (logger l m e).
Proof. intros Hf w. apply Hf. Qed.

Lemma stable_deref {X} (proj : World -> X) r : stable proj (deref r).
Proof. intros w. unfold deref, bind, get. simpl. destruct (heap w !! r); reflexivity. Qed.

Lemma stable_encrypt {X} (proj : World -> X) t :
  (forall n w, proj (with_nonce n w) = proj w) -> stable proj (encrypt t).
Proof.
  intros Hf w. unfold encrypt. destruct (encryptToken (nonce w) t); simpl; apply Hf.
Qed.

Lemma stable_encryptOpt {X} (proj : World -> X) t :
  (forall n w, proj (with_nonce n w) = proj w) -> stable proj (encryptOpt t).
Proof. intros Hf. destruct t; simpl; [apply stable_encrypt, Hf|apply stable_raise]. Qed.

Lemma stable_decrypt {X} (proj : World -> X) c : stable proj (decrypt c).
Proof. intros w. unfold decrypt. destruct (decryptToken c); reflexivity. Qed.

Lemma stable_newDate {X} (proj : World -> X) : stable proj newDate.
Proof. intros w. reflexivity. Qed.

Lemma stable_super_storeSession {X} (proj : World -> X) s :
  (forall fs w, proj (with_faults fs w) = proj w) ->
  (forall f w, proj (with_sessions f w) = proj w) ->
  stable proj (super_storeSession s).
Proof.
  intros Hf Hs. apply stable_external; [exact Hf|].
  intros w. unfold bind, get. simpl.
  destruct (shops w !! shop s); [|reflexivity]. simpl. apply Hs.
Qed.

Lemma stable_super_loadSession {X} (proj : World -> X) id :
  (forall fs w, proj (with_faults fs w) = proj w) ->
  stable proj (super_loadSession id).
Proof. intros Hf. apply stable_external; [exact Hf|]. intros w. reflexivity. Qed.

Lemma stable_session_deleteMany {X} (proj : World -> X) key :
  (forall fs w, proj (with_faults fs w) = proj w) ->
  (forall f w, proj (with_sessions f w) = proj w) ->
  stable proj (session_deleteMany key).
Proof. intros Hf Hs. apply stable_external; [exact Hf|]. intros w. apply Hs. Qed.

Lemma stable_loadSession {X} (proj : World -> X) id :
  (forall fs w, proj (with_faults fs w) = proj w) ->
  (forall f w, proj (with_log f w) = proj w) ->
  stable proj (loadSession id).
Proof.
  intros Hf Hl. unfold loadSession, loadSession_try.
  apply stable_tryCatch.
  - apply stable_bind; [apply stable_super_loadSession, Hf|].
    intros [s|]; [|apply stable_ret].
    destruct (truthy (accessToken s)); [|apply stable_ret].
    apply stable_bind; [apply stable_decrypt|]. intros p. apply stable_ret.
  - intros e. apply stable_bind; [apply stable_logger, Hl|]. intros _. apply stable_ret.
Qed.

(** The queue is out of reach of every operation of the registry. *)
Lemma jobs_untouched op w : jobs (step op w) = jobs w.
Proof.
  assert (Hf : forall fs w, jobs (with_faults fs w) = jobs w) by reflexivity.
  assert (Hl : forall f w, jobs (with_log f w) = jobs w) by reflexivity.
  assert (Hn : forall n w, jobs (with_nonce n w) = jobs w) by reflexivity.
  assert (Hs : forall f w, jobs (with_sessions f w) = jobs w) by reflexivity.
  assert (Hmod : forall f, stable jobs (modify (with_shops f))) by (intros f w'; reflexivity).
  assert (Hup : forall key c u, stable jobs (shop_upsert key c u)).
  { intros. apply stable_external; [exact Hf|]. apply Hmod. }
  destruct op as [r|id|r admin|key|key|key|key|key|r s|fs|dt]; simpl; try reflexivity.
  - (* storeSession *)
    revert w. change (stable jobs (storeSession r)).
    unfold storeSession, storeSession_try. apply stable_tryCatch.
    + apply stable_bind; [apply stable_deref|]. intros session.
      destruct (truthy (accessToken session)); [|apply stable_super_storeSession; assumption].
      apply stable_bind; [apply stable_encrypt, Hn|]. intros c.
      apply stable_bind; [intros w; reflexivity|]. intros _.
      apply stable_bind; [apply stable_deref|]. intros session'.
      apply stable_bind; [apply stable_super_storeSession; assumption|]. intros result.
      apply stable_bind; [|intros; apply stable_ret].
      destruct (_ && _); [|apply stable_ret].
      apply stable_bind; [apply stable_encrypt, Hn|]. intros c1.
      apply stable_bind; [apply stable_encrypt, Hn|]. intros c2.
      apply stable_bind; [apply stable_newDate|]. intros now. apply Hup.
    + intros e. apply stable_bind; [apply stable_logger, Hl|]. intros _. apply stable_ret.
  - apply stable_loadSession; assumption.
  - (* afterAuth *)
    revert w. change (stable jobs (afterAuth r admin)).
    unfold afterAuth. apply stable_tryCatch.
    + apply stable_bind; [apply stable_deref|]. intros session.
      apply stable_bind; [apply stable_logger, Hl|]. intros _.
      apply stable_bind; [apply stable_external; [exact Hf|apply stable_ret]|]. intros _.
      apply stable_bind; [apply stable_external; [exact Hf|apply stable_ret]|]. intros shopData.
      destruct (head shopData); [|apply stable_ret].
      apply stable_bind; [apply stable_deref|]. intros session'.
      apply stable_bind; [apply stable_encryptOpt, Hn|]. intros c1.
      apply stable_bind; [apply stable_newDate|]. intros now.
      apply stable_bind; [apply stable_encryptOpt, Hn|]. intros c2. apply Hup.
    + intros e. apply stable_bind; [apply stable_deref|]. intros session.
      apply stable_logger, Hl.
  - (* app/uninstalled *)
    revert w. change (stable jobs (APP_UNINSTALLED key)).
    unfold APP_UNINSTALLED. apply stable_tryCatch.
    + apply stable_bind; [apply stable_logger, Hl|]. intros _.
      apply stable_bind; [apply stable_newDate|]. intros now.
      apply stable_bind; [|intros; apply stable_logger, Hl].
      apply stable_external; [exact Hf|]. intros w. unfold bind, get. simpl.
      destruct (shops w !! key); reflexivity.
    + intros e. apply stable_logger, Hl.
  - (* shop/redact *)
    revert w. change (stable jobs (SHOP_REDACT key)).
    unfold SHOP_REDACT. apply stable_bind; [apply stable_logger, Hl|]. intros _.
    apply stable_tryCatch.
    + apply stable_bind.
      * apply stable_external; [exact Hf|]. intros w. unfold bind, get. simpl.
        destruct (shops w !! key); [|reflexivity]. case_decide; reflexivity.
      * intros _. apply stable_bind; [apply stable_session_deleteMany; assumption|].
        intros _. apply stable_logger, Hl.
    + intros e. apply stable_logger, Hl.
Qed.

(** **** The credential invariant *)

Lemma inv_external {A} (op : M World A) :
  preserves credential_invariant op -> preserves credential_invariant (external op).
Proof.
  intros H w Hw. unfold external.
  destruct (faults w) as [|[] fs]; simpl; try apply H; exact Hw.
Qed.

Lemma inv_shop_upsert key create update :
  credentialed create -> (forall row, credentialed (update row)) ->
  preserves credential_invariant (shop_upsert key create update).
Proof.
  intros Hc Hu. apply inv_external. intros w Hw.
  unfold credential_invariant in *. simpl.
  destruct (shops w !! key); apply map_Forall_insert_2; auto.
Qed.

Lemma inv_shop_update key update :
  (forall row, credentialed (update row)) ->
  preserves credential_invariant (shop_update key update).
Proof.
  intros Hu. apply inv_external. intros w Hw. unfold bind, get. simpl.
  destruct (shops w !! key); [|exact Hw].
  unfold credential_invariant in *. simpl. apply map_Forall_insert_2; auto.
Qed.

Lemma inv_shop_delete key : preserves credential_invariant (shop_delete key).
Proof.
  apply inv_external. intros w Hw. unfold bind, get. simpl.
  destruct (shops w !! key); [|exact Hw].
  case_decide; [|exact Hw].
  unfold credential_invariant in *. simpl. apply map_Forall_delete, Hw.
Qed.

Lemma inv_stable {A} (c : M World A) :
  stable shops c -> preserves credential_invariant c.
Proof. intros H. apply (stable_preserves shops (map_Forall (fun _ row => credentialed row))), H. Qed.

Lemma inv_step op w : credential_invariant w -> credential_invariant (step op w).
Proof.
  assert (Hf : forall fs w, shops (with_faults fs w) = shops w) by reflexivity.
  assert (Hl : forall f w, shops (with_log f w) = shops w) by reflexivity.
  assert (Hn : forall n w, shops (with_nonce n w) = shops w) by reflexivity.
  assert (Hs : forall f w, shops (with_sessions f w) = shops w) by reflexivity.
  assert (Hlog : forall l m e, preserves credential_invariant (logger l m e)).
  { intros. apply inv_stable, stable_logger, Hl. }
  assert (Hder : forall r, preserves credential_invariant (deref r)).
  { intros. apply inv_stable, stable_deref. }
  assert (Henc : forall t, preserves credential_invariant (encrypt t)).
  { intros. apply inv_stable, stable_encrypt, Hn. }
  assert (Heno : forall t, preserves credential_invariant (encryptOpt t)).
  { intros. apply inv_stable, stable_encryptOpt, Hn. }
  assert (Hsup : forall s, preserves credential_invariant (super_storeSession s)).
  { intros. apply inv_stable, stable_super_storeSession; assumption. }
  assert (Hnow : preserves credential_invariant newDate).
  { apply inv_stable, stable_newDate. }
  destruct op as [r|id|r admin|key|key|key|key|key|r s|fs|dt]; simpl; try (intros H; exact H).
  - (* storeSession: the upsert writes a credential with isActive *)
    revert w. change (preserves credential_invariant (storeSession r)).
    unfold storeSession, storeSession_try. apply preserves_tryCatch.
    + apply preserves_bind; [apply Hder|]. intros session.
      destruct (truthy (accessToken session)); [|apply Hsup].
      apply preserves_bind; [apply Henc|]. intros c.
      apply preserves_bind; [intros w H; exact H|]. intros _.
      apply preserves_bind; [apply Hder|]. intros session'.
      apply preserves_bind; [apply Hsup|]. intros result.
      apply preserves_bind; [|intros; apply preserves_ret].
      destruct (_ && _); [|apply preserves_ret].
      apply preserves_bind; [apply Henc|]. intros c1.
      apply preserves_bind; [apply Henc|]. intros c2.
      apply preserves_bind; [apply Hnow|]. intros now.
      apply inv_shop_upsert; [|intros row]; intros _; simpl; eauto.
    + intros e. apply preserves_bind; [apply Hlog|]. intros _. apply preserves_ret.
  - apply inv_stable, stable_loadSession; assumption.
  - (* afterAuth: likewise *)
    revert w. change (preserves credential_invariant (afterAuth r admin)).
    unfold afterAuth. apply preserves_tryCatch.
    + apply preserves_bind; [apply Hder|]. intros session.
      apply preserves_bind; [apply Hlog|]. intros _.
      apply preserves_bind; [apply inv_external, preserves_ret|]. intros _.
      apply preserves_bind; [apply inv_external, preserves_ret|]. intros shopData.
      destruct (head shopData); [|apply preserves_ret].
      apply preserves_bind; [apply Hder|]. intros session'.
      apply preserves_bind; [apply Heno|]. intros c1.
      apply preserves_bind; [apply Hnow|]. intros now.
      apply preserves_bind; [apply Heno|]. intros c2.
      apply inv_shop_upsert; [|intros row]; intros _; simpl; eauto.
    + intros e. apply preserves_bind; [apply Hder|]. intros session. apply Hlog.
  - (* app/uninstalled: the row becomes inactive *)
    revert w. change (preserves credential_invariant (APP_UNINSTALLED key)).
    unfold APP_UNINSTALLED. apply preserves_tryCatch.
    + apply preserves_bind; [apply Hlog|]. intros _.
      apply preserves_bind; [apply Hnow|]. intros now.
      apply preserves_bind; [|intros; apply Hlog].
      apply inv_shop_update. intros row [=].
    + intros e. apply Hlog.
  - (* shop/redact: rows only disappear *)
    revert w. change (preserves credential_invariant (SHOP_REDACT key)).
    unfold SHOP_REDACT. apply preserves_bind; [apply Hlog|]. intros _.
    apply preserves_tryCatch.
    + apply preserves_bind; [apply inv_shop_delete|]. intros _.
      apply preserves_bind; [|intros; apply Hlog].
      apply inv_stable, stable_session_deleteMany; assumption.
    + intros e. apply Hlog.
Qed.

(** C6. "[active=true] implies a non-null credential blob" is kept by every
    operation on the registry (session store, [afterAuth] upsert, uninstall,
    redact, the read path and the moves of the environment), under every
    outage script; hence it holds after every history that starts with no
    tenant. *)
Theorem credential_invariant_reachable :
  (forall op w, credential_invariant w -> credential_invariant (step op w)) /\
  (forall ops w, shops w = ∅ -> credential_invariant (run ops w)).
Proof.
  split; [exact inv_step|].
  intros ops w Hempty. unfold run.
  assert (H0 : credential_invariant w).
  { unfold credential_invariant. rewrite Hempty. apply map_Forall_empty. }
  clear Hempty. revert w H0.
  induction ops as [|op ops IH]; intros w Hw; simpl; [exact Hw|].
  apply IH, inv_step, Hw.
Qed.

End WithVault.

(** Symbolic execution of the embedded code on a state given field by
    field. *)
(** **** Stepping through the embedded code *)

Lemma post_external {A} (op : M World A) w Q :
  (forall fs, faults w = true :: fs -> Q (Raise StoreUnavailable) (with_faults fs w)) ->
  (head (faults w) <> Some true -> post op (with_faults (tail (faults w)) w) Q) ->
  post (external op) w Q.
Proof.
  intros Hf Hok. unfold post, external, answered in *.
  destruct w as [sh se jb hp ck nc fs lg]. simpl in *.
  destruct fs as [|[] fs]; simpl in *.
  - apply Hok. discriminate.
  - apply (Hf fs). reflexivity.
  - apply Hok. discriminate.
Qed.

Lemma post_newDate w Q : Q (Ret (clock w)) w -> post newDate w Q.
Proof. intros H. exact H. Qed.

Lemma post_encrypt `{V : Vault} t w Q :
  (forall c, encryptToken (nonce w) t = Some c ->
             Q (Ret c) (with_nonce (N.succ (nonce w)) w)) ->
  (encryptToken (nonce w) t = None ->
   Q (Raise EncryptionError) (with_nonce (N.succ (nonce w)) w)) ->
  post (encrypt t) w Q.
Proof.
  intros Hs Hn. unfold post, encrypt.
  destruct (encryptToken (nonce w) t) as [c|]; simpl; auto.
Qed.

Ltac wsimpl :=
  cbv beta;
  cbn [shops sessions jobs heap clock nonce faults log
       with_shops with_sessions with_heap with_nonce with_faults with_log
       sid shop state isOnline scope expires accessToken
       row_shop row_state row_isOnline row_scope row_expires row_accessToken] in *;
  repeat match goal with
         | H : _ !! _ = _ |- _ => rewrite H
         end;
  rewrite ?lookup_insert_eq;
  cbn [fmap option_fmap option_map default id
       sid shop state isOnline scope expires accessToken] in *.

Ltac wp1 :=
  lazymatch goal with
  | |- post newDate _ _ => apply post_newDate; wsimpl
  | |- post (encrypt _) _ _ => apply post_encrypt; [intros ? ? | intros ?]; wsimpl
  | |- post (external _) _ _ => apply post_external; [intros ? ? | intros ?]; wsimpl
  | |- _ => step_with wsimpl
  end.

Ltac wp := repeat wp1.

(** **** Uninstall *)

Lemma quiet_head l fs : Forall (fun b : bool => b = false) l -> l <> true :: fs.
Proof. intros H ->. inversion H. discriminate. Qed.

Lemma quiet_tail l : Forall (fun b : bool => b = false) l ->
  Forall (fun b : bool => b = false) (tail l).
Proof. intros H. destruct l; [exact H|]. inversion H. assumption. Qed.

Lemma quiet_answered w : quiet w -> answered w.
Proof.
  unfold quiet, answered. intros H E. destruct (faults w) as [|[] fs]; try discriminate.
  inversion H. discriminate.
Qed.

(** An outage met although none is scheduled. *)
Ltac no_outage Hq :=
  match goal with
  | H : ?l = true :: ?fs |- _ =>
      exfalso; apply (quiet_head l fs); [repeat apply quiet_tail; exact Hq | exact H]
  end.

Lemma uninstall_post key w row :
  shops w !! key = Some row ->
  head (faults w) <> Some true ->
  post (APP_UNINSTALLED key) w (fun o w' =>
    o = Ret tt /\
    shops w' = <[key := markedUninstalled (clock w) row]> (shops w) /\
    sessions w' = sessions w /\ jobs w' = jobs w /\ heap w' = heap w /\
    clock w' = clock w /\ faults w' = tail (faults w)).
Proof.
  intros Hrow Hans. unfold APP_UNINSTALLED, shop_update, logger. wp.
  - exfalso. apply Hans. rewrite H. reflexivity.
  - repeat split; reflexivity.
Qed.

(** C4. When the tenant has a row and the store answers, the
    [app/uninstalled] callback rewrites that row with [isActive = false] and
    [uninstalledAt] = the current time and every other column as it was
    (credential and profile included); the row stays in the table, every
    other row, the sessions and the queue are as before. *)
Theorem uninstall_marks_row_only (key : string) (w : World) (row : ShopRow) :
  shops w !! key = Some row ->
  answered w ->
  let w' := (APP_UNINSTALLED key w).2 in
  (APP_UNINSTALLED key w).1 = Ret tt /\
  shops w' = <[key := markedUninstalled (clock w) row]> (shops w) /\
  shops w' !! key = Some (markedUninstalled (clock w) row) /\
  (forall other, other <> key -> shops w' !! other = shops w !! other) /\
  sessions w' = sessions w /\
  jobs w' = jobs w.
Proof.
  intros Hrow Hans.
  destruct (uninstall_post key w row Hrow Hans) as (Ho & Hsh & Hse & Hj & _).
  cbv zeta. rewrite Hsh. repeat split; try assumption.
  - apply lookup_insert_eq.
  - intros other Hne. apply lookup_insert_ne. congruence.
Qed.

Section Roundtrip.
Context `{V : Vault}.

Lemma orNull_idem v : orNull (orNull v) = orNull v.
Proof. unfold orNull. destruct (truthy v) eqn:E; [rewrite E|]; reflexivity. Qed.

(** What a successful [storeSession] leaves in [sessions]. *)
Lemma storeSession_true_row r w s t :
  heap w !! r = Some s ->
  accessToken s = Some t ->
  post (storeSession r) w (fun o w' =>
    o = Ret true ->
    exists tok,
      sessions w' !! sid s =
        Some (mkSessionRow (shop s) (state s) (isOnline s) (orNull (scope s))
                           (expires s) tok) /\
      ((t = "" /\ tok = "") \/ (t <> "" /\ exists n, encryptToken n t = Some tok))).
Proof.
  intros Hs Ht. destruct s as [i k st o sc ex tk]. simpl in Ht. subst tk.
  unfold storeSession, storeSession_try, deref, setAccessToken, super_storeSession,
    sessionToRow, shop_upsert, logger.
  wp; try (intros [=]; fail); intros _; eexists; (split; [reflexivity|]).
  all: unfold truthy in *; destruct (String.eqb_spec t ""); try discriminate.
  all: first [left; split; [assumption|subst; reflexivity]
             | right; split; [assumption|eauto]].
Qed.

(** What [loadSession] answers for a stored row. *)
Lemma loadSession_row id w row :
  sessions w !! id = Some row ->
  post (loadSession id) w (fun o w' =>
    (head (faults w) <> Some true -> row_accessToken row = "" ->
     o = Ret (Some (mkSession id (row_shop row) (row_state row) (row_isOnline row)
                              (orNull (row_scope row)) (row_expires row) None))) /\
    (head (faults w) <> Some true -> row_accessToken row <> "" ->
     forall p, decryptToken (row_accessToken row) = Some p ->
     o = Ret (Some (mkSession id (row_shop row) (row_state row) (row_isOnline row)
                              (orNull (row_scope row)) (row_expires row) (Some p)))) /\
    (row_accessToken row <> "" -> decryptToken (row_accessToken row) = None ->
     o = Ret None)).
Proof.
  intros Hrow. destruct row as [k st o sc ex tok].
  unfold loadSession, loadSession_try, super_loadSession, decrypt, logger, rowToSession.
  wp; unfold orNull, truthy in *; simpl in *.
  all: match goal with
       | Hr : _ !! _ = Some (mkSessionRow _ _ _ _ _ ?t) |- _ =>
           destruct (String.eqb_spec t "") as [->|Hne];
           [|pose proof (proj2 (String.eqb_neq _ _) Hne) as Hneb;
             repeat match goal with
                    | H : context [String.eqb t ""] |- _ => rewrite Hneb in H
                    end]
       end;
    simpl in *; try discriminate.
  all: repeat split; intros; simplify_eq; try reflexivity; try contradiction;
    try congruence.
  all: match goal with
       | Hf : faults ?w = true :: _, Hh : head (faults ?w) <> Some true |- _ =>
           exfalso; apply Hh; rewrite Hf; reflexivity
       | Hb : negb (String.eqb ?t "") = false, Hn : ?t <> "" |- _ =>
           exfalso; apply Hn, String.eqb_eq, negb_false_iff, Hb
       end.
Qed.

(** C3. A session stored with a non-empty token [t] is loaded back with
    token [t]: whenever [storeSession] answers [true] and the store then
    answers the read, [loadSession] of the session's id yields the session
    (its scope as the storage keeps it) with [accessToken = t].  A session
    stored with the empty token is loaded back without a token.  A blob that
    no encryption produced is rejected by the vault, and a non-empty such
    blob sitting in the session row makes [loadSession] answer undefined,
    never a session with some other token. *)
Theorem storeSession_loadSession_roundtrip :
  (forall r w w' s t,
      heap w !! r = Some s ->
      accessToken s = Some t ->
      t <> "" ->
      storeSession r w = (Ret true, w') ->
      answered w' ->
      (loadSession (sid s) w').1 =
        Ret (Some (mkSession (sid s) (shop s) (state s) (isOnline s) (orNull (scope s))
                             (expires s) (Some t)))) /\
  (forall r w w' s,
      heap w !! r = Some s ->
      accessToken s = Some "" ->
      storeSession r w = (Ret true, w') ->
      answered w' ->
      (loadSession (sid s) w').1 =
        Ret (Some (mkSession (sid s) (shop s) (state s) (isOnline s) (orNull (scope s))
                             (expires s) None))) /\
  (forall c, tampered c -> decryptToken c = None) /\
  (forall id w row,
      sessions w !! id = Some row ->
      row_accessToken row <> "" ->
      tampered (row_accessToken row) ->
      (loadSession id w).1 = Ret None).
Proof.
  assert (Htam : forall c, tampered c -> decryptToken c = None).
  { intros c Hc. destruct (decryptToken c) as [p|] eqn:E; [|reflexivity].
    destruct (vault_authentic c p E) as [n Hn]. destruct (Hc n p Hn). }
  assert (Hround : forall r w w' s t,
             heap w !! r = Some s -> accessToken s = Some t ->
             storeSession r w = (Ret true, w') -> answered w' ->
             (loadSession (sid s) w').1 =
               Ret (Some (mkSession (sid s) (shop s) (state s) (isOnline s)
                                    (orNull (scope s)) (expires s) (orNull (Some t))))).
  { intros r w w' s t Hs Ht Hst Hans.
    pose proof (storeSession_true_row r w s t Hs Ht) as Hrow.
    unfold post in Hrow. rewrite Hst in Hrow.
    destruct (Hrow eq_refl) as (tok & Hlook & Htok). clear Hrow.
    pose proof (loadSession_row (sid s) w' _ Hlook) as (Hempty & Hfull & _).
    simpl in Hempty, Hfull. rewrite orNull_idem in Hempty, Hfull.
    destruct Htok as [[-> ->]|[Hne [n Hn]]].
    - apply Hempty; [exact Hans|reflexivity].
    - replace (orNull (Some t)) with (Some t).
      + apply Hfull; [exact Hans|eapply vault_nonempty, Hn|eapply vault_roundtrip, Hn].
      + unfold orNull, truthy. destruct (String.eqb_spec t ""); [contradiction|reflexivity]. }
  split; [|split; [|split; [exact Htam|]]].
  - intros r w w' s t Hs Ht Hne Hst Hans.
    rewrite (Hround r w w' s t Hs Ht Hst Hans).
    unfold orNull, truthy. destruct (String.eqb_spec t ""); [contradiction|reflexivity].
  - intros r w w' s Hs Ht Hst Hans. exact (Hround r w w' s "" Hs Ht Hst Hans).
  - intros id w row Hrow Hne Ht.
    pose proof (loadSession_row id w row Hrow) as (_ & _ & Hbad).
    apply Hbad; [exact Hne|apply Htam, Ht].
Qed.

End Roundtrip.

(** **** Install, uninstall, reinstall *)

Section Reinstall.
Context `{V : Vault}.

Lemma afterAuth_post r p admin w s c :
  heap w !! r = Some s ->
  accessToken s = Some c ->
  quiet w ->
  (forall n, is_Some (encryptToken n c)) ->
  post (afterAuth r (p :: admin)) w (fun o w' =>
    o = Ret tt /\ quiet w' /\ heap w' = heap w /\ clock w' = clock w /\
    exists row blob,
      shops w' = <[shop s := row]> (shops w) /\
      profile row = match shops w !! shop s with
                    | Some old => updateProfile p (profile old)
                    | None => createProfile p
                    end /\
      isActive row = true /\ uninstalledAt row = None /\
      accessTokenEncrypted row = Some blob /\ decryptToken blob = Some c).
Proof.
  intros Hs Ht Hq Henc. destruct s as [i k st o sc ex tk]. simpl in Ht. subst tk.
  unfold quiet in *.
  unfold afterAuth, deref, encryptOpt, shop_upsert, logger. wp; try no_outage Hq.
  - injection Heqo0 as ->.
    repeat split; try reflexivity; [repeat apply quiet_tail; exact Hq|].
    destruct (shops w !! k) as [old|]; do 2 eexists;
      (split; [reflexivity|]); simpl; repeat split; eauto using vault_roundtrip.
  - destruct (Henc (N.succ (nonce w))) as [? ?]. congruence.
  - destruct (Henc (nonce w)) as [? ?]. congruence.
  - simplify_eq.
Qed.

(** [storeSession] writes the ciphertext into the session object it was
    given: whoever holds the same reference afterwards reads the blob, not
    the token. *)
Lemma storeSession_overwrites_token r w s t c :
  heap w !! r = Some s ->
  accessToken s = Some t ->
  t <> "" ->
  encryptToken (nonce w) t = Some c ->
  heap (storeSession r w).2 !! r =
    Some (mkSession (sid s) (shop s) (state s) (isOnline s) (scope s) (expires s)
                    (Some c)).
Proof.
  intros Hs Ht Hne Hc. destruct s as [i k st o sc ex tk]. simpl in Ht. subst tk.
  change (post (storeSession r) w (fun _ w' =>
    heap w' !! r = Some (mkSession i k st o sc ex (Some c)))).
  assert (Htr : negb (String.eqb t "") = true).
  { destruct (String.eqb_spec t ""); [contradiction|reflexivity]. }
  unfold storeSession, storeSession_try, deref, setAccessToken, super_storeSession,
    shop_upsert, logger, truthy.
  wp; simplify_eq; try reflexivity; try apply lookup_insert_eq.
Qed.

(** [storeSession] neither schedules an outage nor moves the clock. *)
Lemma storeSession_calm r w :
  quiet w -> quiet (storeSession r w).2 /\ clock (storeSession r w).2 = clock w.
Proof.
  intros Hq. unfold quiet in *.
  change (post (storeSession r) w (fun _ w' =>
    Forall (fun b => b = false) (faults w') /\ clock w' = clock w)).
  unfold storeSession, storeSession_try, deref, setAccessToken, super_storeSession,
    shop_upsert, logger.
  wp; try no_outage Hq; (split; [repeat apply quiet_tail; exact Hq|reflexivity]).
Qed.

(** The install flow up to the hook's upsert: the row the hook writes is
    active, has no uninstall date, and holds the encryption of the blob that
    [storeSession] left in the session object. *)
Lemma install_post r s admin p t w :
  quiet w ->
  accessToken s = Some t ->
  t <> "" ->
  (forall n u, is_Some (encryptToken n u)) ->
  let w' := run (install r s (p :: admin)) w in
  quiet w' /\ clock w' = clock w /\
  exists row blob c,
    shops w' !! shop s = Some row /\
    isActive row = true /\ uninstalledAt row = None /\
    accessTokenEncrypted row = Some blob /\
    decryptToken blob = Some c /\ decryptToken c = Some t.
Proof.
  intros Hq Ht Hne Henc w'.
  set (wa := with_heap (insert r s) w).
  assert (Hqa : quiet wa) by exact Hq.
  assert (Hha : heap wa !! r = Some s) by apply lookup_insert_eq.
  destruct (Henc (nonce wa) t) as [c Hc].
  pose proof (storeSession_overwrites_token r wa s t c Hha Ht Hne Hc) as Hhb.
  destruct (storeSession_calm r wa Hqa) as [Hqb Hcb].
  set (wb := (storeSession r wa).2) in *.
  destruct (afterAuth_post r p admin wb _ c Hhb eq_refl Hqb (fun n => Henc n c))
    as (_ & Hqc & _ & Hcc & row & blob & Hsh & _ & Hact & Hun & Hblob & Hdec).
  assert (Hw' : w' = (afterAuth r (p :: admin) wb).2) by reflexivity.
  rewrite Hw'. split; [exact Hqc|]. split; [rewrite Hcc, Hcb; reflexivity|].
  exists row, blob, c. rewrite Hsh. simpl.
  split; [apply lookup_insert_eq|].
  repeat split; try assumption. eapply vault_roundtrip, Hc.
Qed.

(** C2. Install with credential [c1], uninstall, install again with
    credential [c2], with time passing in between, no outage and a vault
    that encrypts every string.  After the uninstall the tenant row is
    inactive with [uninstalledAt] set.  After the reinstall it is active
    with [uninstalledAt] cleared, but its credential is not the encryption
    of [c2]: [storeSession] has replaced the token in the session object by
    its ciphertext before the hook encrypts [session.accessToken], so the
    stored blob decrypts to a ciphertext [c], which in turn decrypts to
    [c2].  The stored blob decrypts to [c2] itself only for a vault that
    can return [c2] as the encryption of [c2]. *)
Theorem reinstall_encrypts_ciphertext
    (w : World) (r1 r2 : nat) (s1 s2 : Session) (c1 c2 : string)
    (p1 p2 : Shop.t) (admin1 admin2 : list Shop.t) (d1 d2 : Z) :
  quiet w ->
  shop s2 = shop s1 ->
  accessToken s1 = Some c1 ->
  c1 <> "" ->
  accessToken s2 = Some c2 ->
  c2 <> "" ->
  (forall n u, is_Some (encryptToken n u)) ->
  let T := shop s1 in
  let w2 := run (install r1 s1 (p1 :: admin1) ++ [Tick d1; Uninstalled T]) w in
  let w3 := run (Tick d2 :: install r2 s2 (p2 :: admin2)) w2 in
  (exists row, shops w2 !! T = Some row /\ isActive row = false /\
               uninstalledAt row = Some (clock w + d1)%Z) /\
  (exists row blob c,
      shops w3 !! T = Some row /\ isActive row = true /\ uninstalledAt row = None /\
      accessTokenEncrypted row = Some blob /\
      decryptToken blob = Some c /\ decryptToken c = Some c2 /\
      (decryptToken blob = Some c2 -> exists n, encryptToken n c2 = Some c2)).
Proof.
  intros Hq Hshop Ht1 Hn1 Ht2 Hn2 Henc T w2 w3.
  (* first install *)
  destruct (install_post r1 s1 admin1 p1 c1 w Hq Ht1 Hn1 Henc)
    as (Hqb & Hcb & rowb & _ & _ & Hrb & _).
  set (wb := run (install r1 s1 (p1 :: admin1)) w) in *.
  (* time passes, then uninstall *)
  set (wc := mkWorld (shops wb) (sessions wb) (jobs wb) (heap wb) (clock wb + d1)
                     (nonce wb) (faults wb) (log wb)).
  assert (Hqc : quiet wc) by exact Hqb.
  assert (Hrc : shops wc !! T = Some rowb) by exact Hrb.
  destruct (uninstall_post T wc rowb Hrc (quiet_answered wc Hqc))
    as (_ & Hshd & _ & _ & _ & Hcd & Hfd).
  assert (Hw2 : w2 = (APP_UNINSTALLED T wc).2) by reflexivity.
  assert (Hq2 : quiet w2).
  { rewrite Hw2. unfold quiet. rewrite Hfd. apply quiet_tail, Hqc. }
  split.
  - exists (markedUninstalled (clock wc) rowb). rewrite Hw2, Hshd.
    split; [apply lookup_insert_eq|]. split; [reflexivity|].
    simpl. rewrite Hcb. reflexivity.
  - (* reinstall *)
    set (we := mkWorld (shops w2) (sessions w2) (jobs w2) (heap w2) (clock w2 + d2)
                       (nonce w2) (faults w2) (log w2)).
    assert (Hqe : quiet we) by exact Hq2.
    destruct (install_post r2 s2 admin2 p2 c2 we Hqe Ht2 Hn2 Henc)
      as (_ & _ & row & blob & c & Hrow & Hact & Hun & Hblob & Hdec & Hdec2).
    assert (Hw3 : w3 = run (install r2 s2 (p2 :: admin2)) we) by reflexivity.
    exists row, blob, c. rewrite Hw3. unfold T. rewrite <- Hshop.
    repeat split; try assumption.
    intros Hdirect. rewrite Hdec in Hdirect. injection Hdirect as ->.
    eapply vault_authentic, Hdec2.
Qed.

End Reinstall.

(** **** Shop redaction *)

(** A tenant that still has a session cannot be redacted: the row delete
    comes first and [sessions_shop_fkey] rejects it, so the callback logs
    the error and leaves rows and sessions as they were. *)
Lemma shop_redact_blocked key w row id srow :
  shops w !! key = Some row ->
  sessions w !! id = Some srow ->
  row_shop srow = key ->
  post (SHOP_REDACT key) w (fun o w' =>
    o = Ret tt /\ shops w' = shops w /\ sessions w' = sessions w).
Proof.
  intros Hrow Hses Hk.
  assert (Hin : sessions_of key (sessions w) !! id = Some srow).
  { unfold sessions_of. apply map_lookup_filter_Some. split; assumption. }
  unfold SHOP_REDACT, shop_delete, session_deleteMany, logger. wp; auto.
  all: exfalso;
    match goal with H : sessions_of _ _ = ∅ |- _ => rewrite H in Hin end;
    rewrite lookup_empty in Hin; discriminate.
Qed.

(** Without sessions and without outage the row goes. *)
Lemma shop_redact_without_sessions key w row :
  shops w !! key = Some row ->
  sessions_of key (sessions w) = ∅ ->
  quiet w ->
  post (SHOP_REDACT key) w (fun o w' =>
    o = Ret tt /\ shops w' = delete key (shops w) /\
    sessions_of key (sessions w') = ∅).
Proof.
  intros Hrow Hnone Hq. unfold quiet in Hq.
  unfold SHOP_REDACT, shop_delete, session_deleteMany, logger. wp; try no_outage Hq.
  - repeat split; try reflexivity.
    unfold sessions_of. apply map_empty. intros i.
    apply map_lookup_filter_None. right. intros x Hx Hk.
    apply map_lookup_filter_Some in Hx as [_ Hne]. simpl in *. contradiction.
  - contradiction.
Qed.

(** **** The embedding at concrete inputs *)

Import Examples Scenarios.

Lemma tag_encrypts c : forall n, is_Some (encryptToken n c).
Proof. intros n. eexists. reflexivity. Qed.

Lemma storeSession_loadSession_never_throw_witness :
  (storeSession 2 (with_faults [true] installedWorld)).1 = Ret false /\
  (loadSession "offline_a.example" (with_faults [true] installedWorld)).1 = Ret None.
Proof.
  destruct (@storeSession_loadSession_never_throw tagVault) as [Hstore Hload].
  split.
  - destruct (Hstore 2%nat (with_faults [true] installedWorld)) as (b & Hb & Hfalse).
    rewrite Hb. f_equal. apply (Hfalse StoreUnavailable). vm_compute. reflexivity.
  - destruct (Hload "offline_a.example" (with_faults [true] installedWorld))
      as (o & Ho & Hnone).
    rewrite Ho. f_equal. apply (Hnone StoreUnavailable). vm_compute. reflexivity.
Defined.

Lemma credential_invariant_reachable_witness :
  credential_invariant (step (ShopRedact aShop) installedWorld) /\
  credential_invariant sharedSessionWorld.
Proof.
  destruct (@credential_invariant_reachable tagVault) as [Hstep Hrun].
  split.
  - apply Hstep. apply Hrun. reflexivity.
  - apply Hrun. reflexivity.
Defined.

Lemma reinstall_encrypts_ciphertext_witness :
  quiet startWorld /\
  let w2 := run (install 1 (offlineSession "tok1") [shopInfo] ++
                 [Tick 60; Uninstalled aShop]) startWorld in
  let w3 := run (Tick 60 :: install 2 (offlineSession "tok2") [shopInfo]) w2 in
  (exists row, shops w2 !! aShop = Some row /\ isActive row = false /\
               uninstalledAt row = Some (1000 + 60)%Z) /\
  (exists row,
      shops w3 !! aShop = Some row /\ isActive row = true /\ uninstalledAt row = None /\
      accessTokenEncrypted row = Some "##tok2" /\
      decryptToken "##tok2" = Some "#tok2" /\
      decryptToken "##tok2" <> Some "tok2").
Proof.
  assert (Hq : quiet startWorld) by (unfold quiet; simpl; constructor).
  assert (Henc : forall n u, is_Some (encryptToken n u)) by (intros n u; apply tag_encrypts).
  assert (Hn1 : "tok1" <> "") by discriminate.
  assert (Hn2 : "tok2" <> "") by discriminate.
  split; [exact Hq|].
  destruct (@reinstall_encrypts_ciphertext tagVault startWorld 1 2
              (offlineSession "tok1") (offlineSession "tok2") "tok1" "tok2"
              shopInfo shopInfo [] [] 60 60 Hq eq_refl eq_refl Hn1 eq_refl Hn2 Henc)
    as [Hgone (row & blob & c & Hrow & Hact & Hun & Hblob & Hdec & Hdec2 & _)].
  split; [exact Hgone|].
  exists row. split; [exact Hrow|]. split; [exact Hact|]. split; [exact Hun|].
  assert (Hb : accessTokenEncrypted row = Some "##tok2").
  { vm_compute in Hrow. injection Hrow as <-. reflexivity. }
  split; [exact Hb|]. split; [reflexivity|]. discriminate.
Defined.

Lemma storeSession_loadSession_roundtrip_witness :
  (storeSession 2 (with_heap (insert 2%nat (offlineSession "tok2")) installedWorld)).1
    = Ret true /\
  (loadSession "offline_a.example"
     (storeSession 2 (with_heap (insert 2%nat (offlineSession "tok2")) installedWorld)).2).1
    = Ret (Some (offlineSession "tok2")) /\
  (storeSession 7 tokenlessWorld).1 = Ret true /\
  (loadSession "online_2" (storeSession 7 tokenlessWorld).2).1
    = Ret (Some (mkSession "online_2" aShop "state" true None None None)) /\
  tampered "tok2" /\ decryptToken "tok2" = None.
Proof.
  destruct (@storeSession_loadSession_roundtrip tagVault)
    as (Hround & Hempty & Htampered & _).
  set (w := with_heap (insert 2%nat (offlineSession "tok2")) installedWorld).
  assert (Hrun : storeSession 2 w = (Ret true, (storeSession 2 w).2)).
  { vm_compute. reflexivity. }
  assert (Hrun' : storeSession 7 tokenlessWorld
                  = (Ret true, (storeSession 7 tokenlessWorld).2)).
  { vm_compute. reflexivity. }
  assert (Ht : tampered "tok2").
  { intros n p. simpl. unfold tagEncrypt. intros [= ?]. }
  assert (Hne : "tok2" <> "") by discriminate.
  split; [rewrite Hrun; reflexivity|].
  split; [|split; [rewrite Hrun'; reflexivity|
           split; [|split; [exact Ht|apply Htampered, Ht]]]].
  - apply (Hround 2%nat w (storeSession 2 w).2 (offlineSession "tok2") "tok2").
    + vm_compute. reflexivity.
    + reflexivity.
    + exact Hne.
    + exact Hrun.
    + unfold answered. vm_compute. discriminate.
  - apply (Hempty 7%nat tokenlessWorld (storeSession 7 tokenlessWorld).2
             (mkSession "online_2" aShop "state" true None None (Some ""))).
    + vm_compute. reflexivity.
    + reflexivity.
    + exact Hrun'.
    + unfold answered. vm_compute. discriminate.
Defined.

(** C3 as the specification states it fails at the empty token: the
    session object 7 of [tokenlessWorld] carries the token [""], its tenant
    has a row, [storeSession] answers [true], and [loadSession] yields the
    session without a token. *)
Lemma roundtrip_as_stated_fails : ~ Tenancy.roundtrip_as_stated 7 tokenlessWorld.
Proof.
  intros H.
  destruct (H (mkSession "online_2" aShop "state" true None None (Some "")) "")
    as (s' & Hload & Htok).
  - vm_compute. reflexivity.
  - reflexivity.
  - vm_compute. reflexivity.
  - unfold answered. vm_compute. discriminate.
  - vm_compute in Hload. injection Hload as <-. discriminate Htok.
Qed.

Lemma uninstall_marks_row_only_witness :
  answered installedWorld /\
  exists row,
    shops installedWorld !! aShop = Some row /\ isActive row = true /\
    shops (APP_UNINSTALLED aShop installedWorld).2 !! aShop =
      Some (markedUninstalled 1000 row) /\
    sessions (APP_UNINSTALLED aShop installedWorld).2 = sessions installedWorld.
Proof.
  assert (Ha : answered installedWorld) by (unfold answered; vm_compute; discriminate).
  split; [exact Ha|].
  eexists. split; [vm_compute; reflexivity|]. split; [reflexivity|].
  pose proof (uninstall_marks_row_only aShop installedWorld _
                ltac:(vm_compute; reflexivity) Ha) as (_ & _ & Hrow & _ & Hses & _).
  split; [exact Hrow|exact Hses].
Defined.

(** C5, at a tenant with a stored session.  The [shop/redact] callback for
    an installed tenant whose offline session is stored removes neither the
    tenant row nor the session: the row delete runs first and is rejected by
    the foreign key of [sessions], the session delete is skipped and the
    error is logged.  The waiting job is untouched. *)
Theorem shop_redact_keeps_tenant_with_session :
  let w := installedWorld in
  let w' := (SHOP_REDACT aShop w).2 in
  is_Some (shops w !! aShop) /\
  is_Some (sessions w !! "offline_a.example") /\
  (SHOP_REDACT aShop w).1 = Ret tt /\
  shops w' !! aShop = shops w !! aShop /\
  sessions w' !! "offline_a.example" = sessions w !! "offline_a.example" /\
  jobs w' = jobs w /\
  last (log w') =
    Some (mkLog Error "Failed to delete shop data for a.example:" (Some ForeignKeyViolation)).
Proof.
  cbv zeta. repeat split; try (vm_compute; reflexivity); vm_compute; eexists; reflexivity.
Qed.

(** The install flow on one session object: [storeSession] has replaced the
    token by its blob when the hook encrypts [session.accessToken], so the
    credential the hook writes decrypts to the blob of "tok2" (here
    "#tok2"), not to "tok2". *)
Example hook_after_store_on_shared_session :
  exists row blob,
    shops sharedSessionWorld !! aShop = Some row /\
    accessTokenEncrypted row = Some blob /\
    decryptToken blob = Some "#tok2".
Proof. do 2 eexists. vm_compute. repeat split. Qed.

End RegistryFacts.

(** ** Facts about the worker *)

Module WorkerFacts.
Import Worker.

Ltac ksimpl :=
  cbv beta;
  cbn [isShuttingDown now deadline calls trace] in *;
  repeat match goal with
         | H : isShuttingDown _ = _ |- _ => rewrite H
         | H : deadline _ = _ |- _ => rewrite H
         | H : forall n, rejects _ n = false |- _ => rewrite H
         | H : rejects _ _ = _ |- _ => rewrite H
         | H : forall n, signal _ n = None |- _ => rewrite H
         end.

Ltac kp1 :=
  lazymatch goal with
  | |- post (pollLoop _ _) _ _ => fail
  | |- _ => step_with ksimpl
  end.

Ltac kp := repeat kp1.

Lemma since_app w w' more : trace w' = trace w ++ more -> since w w' = more.
Proof. intros H. unfold since. rewrite H. apply drop_app_length. Qed.

(** A health check of a running worker leaves it running. *)
Lemma healthCheck_running env w :
  running w ->
  post (healthCheck env) w (fun o w' => o = Ret tt /\ running w').
Proof.
  intros [Hs Hd]. unfold healthCheck, waiting, active, failed, queueCall, await,
    logger, emit, running.
  kp; auto.
Qed.

(** What the health line reports, and what it does not. *)
Lemma healthLine_reports env n :
  reported Webhook Waiting (healthLine env n) = Some (VNum (q_waiting env Webhook n)) /\
  reported Webhook Active (healthLine env n) = Some (VJobs (q_active env Webhook (n + 1))) /\
  reported Webhook Failed (healthLine env n) = Some (VNum (q_failed env Webhook (n + 2))) /\
  reported General Waiting (healthLine env n) = Some (VNum (q_waiting env General (n + 3))) /\
  reported General Active (healthLine env n) = Some (VJobs (q_active env General (n + 4))) /\
  reported General Failed (healthLine env n) = None.
Proof. repeat split. Qed.

Lemma healthCheck_trace env w :
  running w ->
  (forall k, (k < 5)%nat -> rejects env (calls w + k) = false) ->
  post (healthCheck env) w (fun o w' =>
    let n := calls w in
    trace w' = trace w ++
      [Asked Webhook Waiting (q_waiting env Webhook n);
       Asked Webhook Active (List.length (q_active env Webhook (n + 1)));
       Asked Webhook Failed (q_failed env Webhook (n + 2));
       Asked General Waiting (q_waiting env General (n + 3));
       Asked General Active (List.length (q_active env General (n + 4)));
       healthLine env n] ++ healthWarning env n).
Proof.
  intros [Hs Hd] Hrej.
  assert (H0 : rejects env (calls w) = false).
  { rewrite <- (Hrej 0%nat) by lia. f_equal. lia. }
  assert (H1 : rejects env (S (calls w)) = false).
  { rewrite <- (Hrej 1%nat) by lia. f_equal. lia. }
  assert (H2 : rejects env (S (S (calls w))) = false).
  { rewrite <- (Hrej 2%nat) by lia. f_equal. lia. }
  assert (H3 : rejects env (S (S (S (calls w)))) = false).
  { rewrite <- (Hrej 3%nat) by lia. f_equal. lia. }
  assert (H4 : rejects env (S (S (S (S (calls w))))) = false).
  { rewrite <- (Hrej 4%nat) by lia. f_equal. lia. }
  clear Hrej.
  unfold healthCheck, waiting, active, failed, queueCall, await, logger, emit,
    healthLine, healthWarning.
  replace (calls w + 1)%nat with (S (calls w)) by lia.
  replace (calls w + 2)%nat with (S (S (calls w))) by lia.
  replace (calls w + 3)%nat with (S (S (S (calls w)))) by lia.
  replace (calls w + 4)%nat with (S (S (S (S (calls w))))) by lia.
  kp.
  all: rewrite <- ?app_assoc; reflexivity.
Qed.

Lemma healthChecks_running env k w :
  running w ->
  post (healthChecks env k) w (fun o w' => o = Ret tt /\ running w').
Proof.
  revert w. induction k as [|k IH]; intros w Hw; simpl.
  - apply post_ret. auto.
  - apply post_bind. eapply post_mono; [apply healthCheck_running, Hw|].
    intros o w' [-> Hw']. apply IH, Hw'.
Qed.

(** C7, as the code has it.  Every health check of a running worker ends
    normally and leaves the worker running, whatever the queues answer and
    for any number of rounds; when the five queue calls are answered it
    logs one "Queue health check" line that reports waiting, active and
    failed for the webhook lane and waiting and active for the general lane
    (no failed count for the general lane), followed by a warning exactly
    when the webhook lane's failed count is above 10. *)
Theorem health_check_iteration (env : Env) (w : WState) :
  running w ->
  let r := healthCheck env w in
  let n := calls w in
  r.1 = Ret tt /\ running r.2 /\
  (forall k, (healthChecks env k w).1 = Ret tt /\ running (healthChecks env k w).2) /\
  ((forall k, (k < 5)%nat -> rejects env (n + k) = false) ->
   since w r.2 =
     [Asked Webhook Waiting (q_waiting env Webhook n);
      Asked Webhook Active (List.length (q_active env Webhook (n + 1)));
      Asked Webhook Failed (q_failed env Webhook (n + 2));
      Asked General Waiting (q_waiting env General (n + 3));
      Asked General Active (List.length (q_active env General (n + 4)));
      healthLine env n] ++ healthWarning env n) /\
  reported Webhook Waiting (healthLine env n) = Some (VNum (q_waiting env Webhook n)) /\
  reported Webhook Active (healthLine env n) = Some (VJobs (q_active env Webhook (n + 1))) /\
  reported Webhook Failed (healthLine env n) = Some (VNum (q_failed env Webhook (n + 2))) /\
  reported General Waiting (healthLine env n) = Some (VNum (q_waiting env General (n + 3))) /\
  reported General Active (healthLine env n) = Some (VJobs (q_active env General (n + 4))) /\
  reported General Failed (healthLine env n) = None /\
  ((failureThreshold < q_failed env Webhook (n + 2))%nat <->
   existsb isWarning (healthWarning env n) = true).
Proof.
  intros Hw. cbv zeta.
  destruct (healthCheck_running env w Hw) as [Ho Hr].
  split; [exact Ho|]. split; [exact Hr|].
  split; [intros k; apply (healthChecks_running env k w Hw)|].
  split; [intros Hrej; apply since_app, (healthCheck_trace env w Hw Hrej)|].
  destruct (healthLine_reports env (calls w)) as (H1 & H2 & H3 & H4 & H5 & H6).
  repeat (split; [assumption|]).
  unfold healthWarning.
  destruct (Nat.ltb_spec failureThreshold (q_failed env Webhook (calls w + 2))); simpl.
  - split; auto.
  - split; [lia|discriminate].
Qed.

(** **** The polling loop *)

Lemma lastPoll_app q tr1 tr2 acc :
  lastPoll q (tr1 ++ tr2) acc = lastPoll q tr2 (lastPoll q tr1 acc).
Proof.
  revert acc. induction tr1 as [|e tr1 IH]; intros acc; [reflexivity|].
  destruct e as [| |q' [] n| | | |]; simpl; apply IH.
Qed.

Lemma lastPoll_acc q tr n :
  lastPoll q tr None = Some n -> forall acc, lastPoll q tr acc = Some n.
Proof.
  assert (H : forall tr a b,
    lastPoll q tr a = lastPoll q tr b \/
    (lastPoll q tr a = a /\ lastPoll q tr b = b)).
  { clear. induction tr as [|e tr IH]; intros a b; [right; split; reflexivity|].
    destruct e as [| |q' [] k| | | |]; simpl; try apply IH.
    destruct q, q'; try apply IH; left; reflexivity. }
  intros Hn acc. destruct (H tr acc None) as [E|[_ E]].
  - rewrite E. exact Hn.
  - rewrite E in Hn. discriminate.
Qed.

Lemma pollLoop_spec env fuel : forall w due,
  isShuttingDown w = true ->
  deadline w = Some due ->
  (now w < due)%N ->
  (due <= now w + pollIntervalMs * N.of_nat fuel)%N ->
  post (pollLoop env fuel) w (fun o w' =>
    exists more,
    trace w' = trace w ++ more /\
    isShuttingDown w' = true /\ deadline w' = Some due /\
    match o with
    | Ret _ => drained more /\ (now w' < due)%N
    | Halt c =>
        c = 1%Z /\ (exists e, last (trace w') = Some e /\ forcedBy e) /\
        ((forall n, signal env n = None) -> (due <= now w')%N)
    | Raise _ => exists n, rejects env n = true
    | OutOfFuel => False
    end).
Proof.
  induction fuel as [|fuel IH]; intros w due Hs Hd Hlt Hle.
  - exfalso. unfold pollIntervalMs in Hle. lia.
  - cbn [pollLoop]. unfold active, queueCall, await, sleep, logger, emit, retrigger,
      forceShutdown, onShutdownTimeout.
    kp.
    all: try (eexists; split; [rewrite <- ?app_assoc; first [reflexivity | symmetry; apply app_nil_r]|];
         repeat match goal with |- _ /\ _ => split end; try reflexivity;
         first [ solve [eexists; split; [apply last_snoc | unfold forcedBy; auto]]
               | solve [eauto]
               | solve [intros Hn; match goal with H : signal _ _ = Some _ |- _ => rewrite Hn in H; discriminate H end]
               | solve [intros _; apply N.leb_le; assumption] ]).
    + (* another round *)
      apply N.leb_gt in Heqb4.
      eapply post_mono.
      * apply (IH _ due); ksimpl; try reflexivity; [exact Heqb4|].
        rewrite Nat2N.inj_succ in Hle. unfold pollIntervalMs in *. lia.
      * intros o w' (more & Hmore & Hs' & Hd' & Ho). ksimpl.
        exists ([Asked Webhook Active (List.length (q_active env Webhook (calls w)));
                 Asked General Active (List.length (q_active env General (S (calls w))));
                 Logged Info "Waiting for active jobs to complete..."
                   (Some (Flat [("activeJobs",
                      VNum (List.length (q_active env Webhook (calls w)) +
                            List.length (q_active env General (S (calls w)))))]))]
                ++ more).
        split; [rewrite Hmore, <- !app_assoc; reflexivity|].
        split; [reflexivity|]. split; [reflexivity|].
        destruct o as [[]|e|c|]; try exact Ho.
        destruct Ho as [[Hw Hg] Hnow]. split; [|exact Hnow].
        split; rewrite lastPoll_app; apply lastPoll_acc; assumption.
    + (* both lanes are empty *)
      apply Nat.ltb_ge in Heqb3. apply N.leb_gt in Heqb1.
      eexists. split; [rewrite <- !app_assoc; reflexivity|].
      repeat (split; [reflexivity|]).
      split; [|exact Heqb1].
      split; simpl; f_equal; lia.
Qed.

(** **** The shutdown sequence *)

(** A run cut short before the timer was armed or after it was cleared. *)
Ltac forced_end :=
  exists 1%Z; eexists; split; [reflexivity|]; cbn [trace];
  split; [rewrite <- ?app_assoc; reflexivity|];
  split; [left; reflexivity|];
  split; [right; split; [reflexivity|]; eexists;
          split; [apply last_snoc|unfold forcedBy; auto]|];
  intros [Hrej Hsig]; exfalso;
  match goal with
  | H : signal _ _ = Some _ |- _ => rewrite Hsig in H; discriminate H
  | H : rejects _ _ = true |- _ => rewrite Hrej in H; discriminate H
  end.

Lemma gracefulShutdown_spec env sig w :
  running w ->
  post (gracefulShutdown env sig) w (shutdownPost env w).
Proof.
  intros [Hs Hd].
  unfold gracefulShutdown, pause, close, armShutdownTimer, clearShutdownTimer,
    queueCall, await, logger, emit, retrigger, forceShutdown, onShutdownTimeout.
  kp.
  all: try solve [forced_end].
  eapply post_mono.
  { apply (pollLoop_spec env pollRounds _
             (now w + latency env (calls w) + latency env (S (calls w)) + shutdownTimeoutMs)%N);
      ksimpl; try reflexivity;
      change (pollIntervalMs * N.of_nat pollRounds)%N with shutdownTimeoutMs;
      unfold shutdownTimeoutMs; lia. }
  intros o w' (more & Hmore & Hs' & Hd' & Ho). cbn [trace] in Hmore.
  assert (Hpaused : forall tail,
    pausedBeforePolls
      ([AppShutdown sig] ++ [Logged Info "Gracefully shutting down worker..." None] ++
       [Paused Webhook] ++ [Paused General] ++ tail)).
  { intros tail. right.
    exists [AppShutdown sig; Logged Info "Gracefully shutting down worker..." None], tail.
    split; reflexivity. }
  destruct o as [[]|e|c|]; [| | |destruct Ho].
  - (* the loop found both lanes empty *)
    destruct Ho as [[Hdw Hdg] Hnow].
    kp.
    all: try solve [
      exists 1%Z; eexists; split; [reflexivity|]; cbn [trace];
      split; [rewrite Hmore, <- ?app_assoc; reflexivity|];
      split; [apply Hpaused|];
      split; [right; split; [reflexivity|]; eexists;
              split; [apply last_snoc|unfold forcedBy; auto]|];
      intros [Hrej Hsig]; exfalso;
      match goal with
      | H : signal _ _ = Some _ |- _ => rewrite Hsig in H; discriminate H
      | H : rejects _ _ = true |- _ => rewrite Hrej in H; discriminate H
      end ].
    assert (Hdr : drained
      ([AppShutdown sig] ++ [Logged Info "Gracefully shutting down worker..." None] ++
       [Paused Webhook] ++ [Paused General] ++
       [TimerArmed (now w + latency env (calls w) + latency env (S (calls w)) +
                    shutdownTimeoutMs)] ++
       more ++ [TimerCleared] ++ [Closed Webhook] ++ [Closed General] ++
       [Logged Info "Worker shutdown complete" None])).
    { change (drained
        ([AppShutdown sig; Logged Info "Gracefully shutting down worker..." None;
          Paused Webhook; Paused General;
          TimerArmed (now w + latency env (calls w) + latency env (S (calls w)) +
                      shutdownTimeoutMs)] ++
         more ++ [TimerCleared; Closed Webhook; Closed General;
                  Logged Info "Worker shutdown complete" None])).
      split; rewrite 2 lastPoll_app; simpl; apply lastPoll_acc; assumption. }
    exists 0%Z. eexists. split; [reflexivity|]. cbn [trace].
    split; [rewrite Hmore, <- ?app_assoc; reflexivity|].
    split; [apply Hpaused|].
    split; [|intros _; left; split; [reflexivity|exact Hdr]].
    left. split; [reflexivity|]. split; [|exact Hdr].
    exists (trace w'). rewrite <- !app_assoc. reflexivity.
  - (* a queue call of the loop rejected *)
    destruct Ho as [n Hn]. kp.
    exists 1%Z. eexists. split; [reflexivity|]. cbn [trace].
    split; [rewrite Hmore, <- ?app_assoc; reflexivity|].
    split; [apply Hpaused|].
    split; [right; split; [reflexivity|]; eexists;
            split; [apply last_snoc|unfold forcedBy; auto]|].
    intros [Hrej _]. rewrite Hrej in Hn. discriminate.
  - (* the timer or a further trigger ended the loop *)
    destruct Ho as (-> & Hlast & Hdue). ksimpl.
    exists 1%Z. eexists. split; [reflexivity|].
    split; [rewrite Hmore, <- ?app_assoc; reflexivity|].
    split; [apply Hpaused|].
    split; [right; split; [reflexivity|exact Hlast]|].
    intros [_ Hsig]. right. split; [reflexivity|].
    unfold timedOut. rewrite Hd'. apply Hdue, Hsig.
Qed.

Lemma pausedBeforePolls_prologue t new :
  pausedBeforePolls new -> pausedBeforePolls (prologue t ++ new).
Proof.
  assert (Hp : existsb isPoll (prologue t) = false) by (destruct t; reflexivity).
  intros [Hnone|(pre & post & -> & Hpre)].
  - left. rewrite existsb_app, Hp, Hnone. reflexivity.
  - right. exists (prologue t ++ pre), post. split; [apply app_assoc|].
    rewrite existsb_app, Hp, Hpre. reflexivity.
Qed.

Lemma drained_prologue t new : drained new -> drained (prologue t ++ new).
Proof.
  intros [Hw Hg]. split; rewrite lastPoll_app; apply lastPoll_acc; assumption.
Qed.

Lemma onTrigger_spec env t w :
  running w ->
  post (onTrigger env t) w (fun o w' =>
    exists code,
      o = Halt code /\
      pausedBeforePolls (since w w') /\
      ((code = 0%Z /\ completed (trace w') /\ drained (since w w')) \/
       (code = 1%Z /\ exists e, last (trace w') = Some e /\ forcedBy e)) /\
      (undisturbed env ->
       (code = 0%Z /\ drained (since w w')) \/ (code = 1%Z /\ timedOut w'))).
Proof.
  intros [Hs Hd].
  assert (Hgo : forall w0,
    trace w0 = trace w ++ prologue t -> running w0 ->
    post (gracefulShutdown env (signalName t)) w0 (fun o w' =>
      exists code,
        o = Halt code /\
        pausedBeforePolls (since w w') /\
        ((code = 0%Z /\ completed (trace w') /\ drained (since w w')) \/
         (code = 1%Z /\ exists e, last (trace w') = Some e /\ forcedBy e)) /\
        (undisturbed env ->
         (code = 0%Z /\ drained (since w w')) \/ (code = 1%Z /\ timedOut w')))).
  { intros w0 Htr Hrun. eapply post_mono; [apply gracefulShutdown_spec, Hrun|].
    intros o w' (code & new & Ho & Hnew & Hpaused & Hcode & Hund).
    assert (Hsince : since w w' = prologue t ++ new).
    { apply since_app. rewrite Hnew, Htr, <- app_assoc. reflexivity. }
    exists code. rewrite Hsince. split; [exact Ho|].
    split; [apply pausedBeforePolls_prologue, Hpaused|].
    split.
    - destruct Hcode as [(? & ? & ?)|?]; [left|right; assumption].
      repeat split; try assumption; apply drained_prologue; assumption.
    - intros Hu. destruct (Hund Hu) as [[? ?]|?]; [left|right; assumption].
      split; [assumption|]. apply drained_prologue; assumption. }
  destruct t; unfold onTrigger; try (apply Hgo; [symmetry; apply app_nil_r|split; assumption]).
  - apply post_bind. unfold logger, emit. apply post_modify.
    apply Hgo; [reflexivity|split; assumption].
  - apply post_bind. unfold logger, emit. apply post_modify.
    apply Hgo; [reflexivity|split; assumption].
Qed.

(** A completed run does not end on a line of a forced shutdown. *)
Lemma completed_not_forced tr :
  completed tr -> forall e, last tr = Some e -> ~ forcedBy e.
Proof.
  intros [pre ->] e Hlast.
  change (pre ++ [TimerCleared; Closed Webhook; Closed General;
                  Logged Info "Worker shutdown complete" None])
    with (pre ++ [TimerCleared; Closed Webhook; Closed General] ++
                 [Logged Info "Worker shutdown complete" None]) in Hlast.
  rewrite app_assoc, last_snoc in Hlast. injection Hlast as <-.
  intros [H|[H|H]]; discriminate H.
Qed.

(** A trigger that finds a shutdown under way exits at once with code 1. *)
Lemma onTrigger_again env t w :
  isShuttingDown w = true ->
  post (onTrigger env t) w (fun o w' =>
    o = Halt 1 /\ last (trace w') = Some (Logged Info "Force shutdown requested" None)).
Proof.
  intros Hs. destruct t; unfold onTrigger, gracefulShutdown, forceShutdown, logger, emit;
    kp; (split; [reflexivity|apply last_snoc]).
Qed.

(** C8, as the code has it.  For every trigger, signal or uncaught fault
    alike, that reaches a running worker: the process exits; whatever
    happens, no lane is polled before both lanes have been paused; and when
    nothing disturbs the shutdown (no queue call fails, no further trigger
    arrives) the worker exits with code 0 after a poll that found no job in
    flight in either lane, or with code 1 once the 30 second timer has run
    out. *)
Theorem shutdown_sequence (env : Env) (t : Trigger) (w : WState) :
  running w ->
  let r := onTrigger env t w in
  (exists code, r.1 = Halt code) /\
  pausedBeforePolls (since w r.2) /\
  (undisturbed env ->
   (r.1 = Halt 0 /\ drained (since w r.2)) \/ (r.1 = Halt 1 /\ timedOut r.2)).
Proof.
  intros Hw. cbv zeta.
  destruct (onTrigger_spec env t w Hw) as (code & Ho & Hp & _ & Hu).
  split; [exists code; exact Ho|]. split; [exact Hp|].
  intros Hund. rewrite Ho. destruct (Hu Hund) as [[-> ?]|[-> ?]]; auto.
Qed.

(** C9, as the code has it.  Every shutdown of a running worker, whatever
    its trigger, ends in one of two ways: with exit code 0 after the whole
    sequence (jobs drained, timer cleared, both queues closed), or with exit
    code 1 with, as its last line, the timeout warning, the note of a
    repeated trigger or the error of the shutdown sequence.  A trigger that
    finds a shutdown under way exits with code 1.  An uncaught fault takes
    the same path as a signal, so a clean shutdown after a fault exits with
    code 0. *)
Theorem exit_codes (env : Env) (t : Trigger) (w : WState) :
  (running w ->
   let r := onTrigger env t w in
   ((r.1 = Halt 0 /\ completed (trace r.2) /\ drained (since w r.2)) \/
    (r.1 = Halt 1 /\ exists e, last (trace r.2) = Some e /\ forcedBy e)) /\
   (completed (trace r.2) -> r.1 = Halt 0) /\
   ((exists e, last (trace r.2) = Some e /\ forcedBy e) -> r.1 = Halt 1)) /\
  (isShuttingDown w = true ->
   let r := onTrigger env t w in
   r.1 = Halt 1 /\ exists e, last (trace r.2) = Some e /\ forcedBy e).
Proof.
  split.
  - intros Hw. cbv zeta.
    destruct (onTrigger_spec env t w Hw) as (code & Ho & _ & Hc & _).
    rewrite Ho. destruct Hc as [(-> & Hdone & Hdr)|(-> & e & Hlast & Hforced)].
    + split; [left; auto|]. split; [reflexivity|].
      intros (e & Hlast & Hforced). destruct (completed_not_forced _ Hdone e Hlast Hforced).
    + split; [right; eauto|]. split; [|reflexivity].
      intros Hdone. destruct (completed_not_forced _ Hdone e Hlast Hforced).
  - intros Hs. cbv zeta. destruct (onTrigger_again env t w Hs) as [Ho Hl].
    split; [exact Ho|]. eexists. split; [exact Hl|]. unfold forcedBy. auto.
Qed.

(** **** The embedding at concrete inputs *)

Import Examples.

Lemma running_fresh : running freshWorker.
Proof. split; reflexivity. Qed.

Lemma health_check_iteration_witness :
  running freshWorker /\
  (healthCheck failingEnv freshWorker).1 = Ret tt /\
  since freshWorker (healthCheck failingEnv freshWorker).2 =
    [Asked Webhook Waiting 3; Asked Webhook Active 1; Asked Webhook Failed 12;
     Asked General Waiting 3; Asked General Active 1;
     healthLine failingEnv 0] ++ healthWarning failingEnv 0 /\
  existsb isWarning (healthWarning failingEnv 0) = true.
Proof.
  split; [exact running_fresh|].
  pose proof (health_check_iteration failingEnv freshWorker running_fresh)
    as (Ho & _ & _ & Htrace & _ & _ & _ & _ & _ & _ & Hwarn).
  split; [exact Ho|]. split.
  - apply Htrace. intros k _. reflexivity.
  - apply Hwarn. vm_compute. lia.
Defined.

(** The health check says nothing about the failed jobs of the general
    lane: with fifty of them no line reports fifty and no warning is
    logged. *)
Lemma health_check_as_stated_fails :
  ~ health_check_as_stated backlogEnv freshWorker.
Proof.
  intros (Hreports & _). specialize (Hreports General Failed).
  vm_compute in Hreports. discriminate.
Qed.

Lemma undisturbed_stuck : undisturbed stuckEnv.
Proof. split; intros n; reflexivity. Qed.

Lemma shutdown_sequence_witness :
  running freshWorker /\ undisturbed stuckEnv /\
  (onTrigger stuckEnv SIGTERM freshWorker).1 = Halt 1 /\
  timedOut (onTrigger stuckEnv SIGTERM freshWorker).2 /\
  pausedBeforePolls (since freshWorker (onTrigger stuckEnv SIGTERM freshWorker).2).
Proof.
  split; [exact running_fresh|]. split; [exact undisturbed_stuck|].
  pose proof (shutdown_sequence stuckEnv SIGTERM freshWorker running_fresh)
    as (_ & Hpaused & Hend).
  destruct (Hend undisturbed_stuck) as [[Hzero _]|[Hone Htimed]].
  - vm_compute in Hzero. discriminate.
  - split; [exact Hone|]. split; [exact Htimed|exact Hpaused].
Defined.

(** A second SIGTERM during the first sleep: the worker exits with a job in
    flight, a second after the shutdown began. *)
Lemma shutdown_as_stated_fails :
  ~ shutdown_as_stated impatientEnv SIGTERM freshWorker.
Proof.
  intros (_ & _ & [Htimed|[Hdrained _]]).
  - vm_compute in Htimed. apply Htimed. reflexivity.
  - vm_compute in Hdrained. discriminate.
Qed.

Lemma exit_codes_witness :
  running freshWorker /\
  (onTrigger idleEnv UncaughtException freshWorker).1 = Halt 0 /\
  completed (trace (onTrigger idleEnv UncaughtException freshWorker).2) /\
  isShuttingDown pausedWorker = true /\
  (onTrigger idleEnv SIGINT pausedWorker).1 = Halt 1.
Proof.
  split; [exact running_fresh|].
  destruct (exit_codes idleEnv UncaughtException freshWorker) as [Hfirst _].
  destruct (Hfirst running_fresh) as ([(Hzero & Hdone & _)|(Hone & _)] & _).
  - split; [exact Hzero|]. split; [exact Hdone|]. split; [reflexivity|].
    destruct (exit_codes idleEnv SIGINT pausedWorker) as [_ Hagain].
    apply Hagain. reflexivity.
  - vm_compute in Hone. discriminate.
Defined.

(** An uncaught exception with idle queues: the sequence completes and the
    exit code is 0. *)
Lemma exit_code_as_stated_fails :
  ~ exit_code_as_stated idleEnv UncaughtException freshWorker.
Proof.
  intros (code & Hcode & _ & _ & Hfault).
  specialize (Hfault eq_refl). subst code.
  vm_compute in Hcode. discriminate.
Qed.

End WorkerFacts.

(** ** Facts about the dispatcher *)

Module DispatcherFacts.
Import Dispatcher.

(** C1.  With the store available, every [accept] persists exactly one
    delivery record, whatever [signatureValid] is; the record carries the
    flag; a job is enqueued, and linked to the record, exactly when
    [signatureValid] is true, and no job is produced when it is false.
    With the store unavailable the call fails and neither a record nor a
    job appears. *)
Theorem accept_records_and_gates
    (tenant topicName : string) (hdrs : list (string * string)) (body : string)
    (q : list (string * string)) (signatureValid : bool) (l : Ledger) :
  let r := accept tenant topicName hdrs body q signatureValid l in
  (available l = true ->
   exists rec,
     r.1 = Ret (recordId rec) /\
     records r.2 = records l ++ [rec] /\
     tenantKey rec = tenant /\ topic rec = topicName /\ rawBody rec = body /\
     hmacValid rec = signatureValid /\
     (signatureValid = true ->
      exists job,
        queue r.2 = queue l ++ [job] /\ jobId rec = Some (jid job) /\
        payload job = recordId rec /\ lane job = WebhookLane) /\
     (signatureValid = false -> queue r.2 = queue l /\ jobId rec = None)) /\
  (available l = false -> r.1 = Raise StoreUnavailable /\ r.2 = l).
Proof.
  cbv zeta. unfold accept, bind, get, modify, ret, raise. simpl.
  split; intros Ha; rewrite Ha; simpl.
  - exists (mkRecord (List.length (records l)) tenant topicName hdrs body q signatureValid
                     (if signatureValid then Pending else Failed) 0
                     (if signatureValid then Some (List.length (queue l)) else None)).
    simpl. repeat (split; [reflexivity|]).
    split; intros ->; [|split; [apply app_nil_r|reflexivity]].
    eexists. repeat split; reflexivity.
  - split; reflexivity.
Qed.

Lemma accept_records_and_gates_witness :
  Dispatcher.available Examples.someLedger = true /\
  (let r := accept "a.example" "app/uninstalled" [] "{}" [] false Examples.someLedger in
   List.length (records r.2) = 1%nat /\ queue r.2 = []) /\
  (let r := accept "a.example" "app/uninstalled" [] "{}" [] true Examples.someLedger in
   List.length (records r.2) = 1%nat /\ List.length (queue r.2) = 1%nat).
Proof.
  split; [reflexivity|]. split.
  - destruct (accept_records_and_gates "a.example" "app/uninstalled" [] "{}" [] false
                Examples.someLedger) as [Hup _].
    destruct (Hup eq_refl) as (rec & _ & Hrec & _ & _ & _ & _ & _ & Hnone).
    cbv zeta. rewrite Hrec. split; [reflexivity|]. apply (Hnone eq_refl).
  - destruct (accept_records_and_gates "a.example" "app/uninstalled" [] "{}" [] true
                Examples.someLedger) as [Hup _].
    destruct (Hup eq_refl) as (rec & _ & Hrec & _ & _ & _ & _ & Hjob & _).
    destruct (Hjob eq_refl) as (job & Hq & _).
    cbv zeta. rewrite Hrec, Hq. split; reflexivity.
Defined.

End DispatcherFacts.

(** ** Further facts about the registry *)

Module TenancyFacts.
Import Registry Tenancy RegistryFacts.

Lemma sessions_of_none_filter key (t : gmap string SessionRow) :
  sessions_of key t = ∅ -> filter (fun kv => row_shop kv.2 <> key) t = t.
Proof.
  intros Hnone. apply map_filter_id. intros i x Hx Hk. simpl in Hk.
  assert (Hin : sessions_of key t !! i = Some x).
  { unfold sessions_of. apply map_lookup_filter_Some. split; assumption. }
  rewrite Hnone, lookup_empty in Hin. discriminate.
Qed.

Lemma redact_post key w :
  post (SHOP_REDACT key) w (fun o w' =>
    o = Ret tt /\ sessions w' = sessions w /\ heap w' = heap w /\
    (shops w' = shops w \/
     (is_Some (shops w !! key) /\ sessions_of key (sessions w) = ∅ /\
      shops w' = delete key (shops w)))).
Proof.
  unfold SHOP_REDACT, shop_delete, session_deleteMany, logger. wp.
  all: repeat split; auto.
  all: try (apply sessions_of_none_filter; assumption).
  all: right; repeat split; eauto.
Qed.

Lemma uninstall_frame key w :
  post (APP_UNINSTALLED key) w (fun o w' =>
    o = Ret tt /\ sessions w' = sessions w /\ heap w' = heap w /\
    (shops w' = shops w \/
     exists row, shops w !! key = Some row /\
                 shops w' = <[key := markedUninstalled (clock w) row]> (shops w))).
Proof.
  unfold APP_UNINSTALLED, shop_update, logger. wp.
  all: repeat split; auto.
  right. eexists. split; reflexivity.
Qed.

(** X1. The five webhook callbacks never throw: for every shop and every
    state of the store and of the outage script each of them completes
    normally, leaves every session row and every session object as it was,
    and leaves the rows of all other tenants as they were.  The three
    callbacks that only log ([customers/data_request], [customers/redact],
    [app_subscriptions/update]) change no row at all, make no store call and
    add exactly one log line. *)
Theorem webhooks_never_throw (key : string) (w : World) :
  (forall hook,
      In hook [APP_UNINSTALLED; CUSTOMERS_DATA_REQUEST; CUSTOMERS_REDACT; SHOP_REDACT;
               APP_SUBSCRIPTIONS_UPDATE] ->
      (hook key w).1 = Ret tt /\
      sessions (hook key w).2 = sessions w /\
      heap (hook key w).2 = heap w /\
      (forall other, other <> key -> shops (hook key w).2 !! other = shops w !! other)) /\
  (forall hook,
      In hook [CUSTOMERS_DATA_REQUEST; CUSTOMERS_REDACT; APP_SUBSCRIPTIONS_UPDATE] ->
      shops (hook key w).2 = shops w /\ faults (hook key w).2 = faults w /\
      List.length (log (hook key w).2) = S (List.length (log w))).
Proof.
  split.
  - intros hook Hin. simpl in Hin.
    destruct Hin as [<-|[<-|[<-|[<-|[<-|[]]]]]].
    + destruct (uninstall_frame key w) as (Ho & Hs & Hh & Hsh).
      repeat split; try assumption. intros other Hne.
      destruct Hsh as [->|(row & _ & ->)]; [reflexivity|].
      apply lookup_insert_ne. congruence.
    + repeat split.
    + repeat split.
    + destruct (redact_post key w) as (Ho & Hs & Hh & Hsh).
      repeat split; try assumption. intros other Hne.
      destruct Hsh as [->|(_ & _ & ->)]; [reflexivity|].
      apply lookup_delete_ne. congruence.
    + repeat split.
  - intros hook Hin. simpl in Hin.
    destruct Hin as [<-|[<-|[<-|[]]]]; repeat split; simpl; rewrite length_app; simpl; lia.
Qed.

(** X2. [shop/redact] for a tenant that has a row, with no outage: the row
    is removed exactly when no session row references the shop, and then the
    success line is logged; when some session references the shop the table
    is unchanged and the foreign-key error is logged.  In both cases the
    session table is what it was: the session delete is reached only when
    there is nothing for it to delete. *)
Theorem shop_redact_removes_row_iff_no_session (key : string) (w : World) (row : ShopRow) :
  shops w !! key = Some row ->
  quiet w ->
  let w' := (SHOP_REDACT key w).2 in
  (sessions_of key (sessions w) = ∅ ->
   shops w' = delete key (shops w) /\
   last (log w') = Some (mkLog Info ("Deleted all data for shop: " +:+ key) None)) /\
  (sessions_of key (sessions w) <> ∅ ->
   shops w' = shops w /\
   last (log w') =
     Some (mkLog Error ("Failed to delete shop data for " +:+ key +:+ ":")
                 (Some ForeignKeyViolation))) /\
  sessions w' = sessions w.
Proof.
  intros Hrow Hq. cbv zeta. unfold quiet in Hq.
  change (post (SHOP_REDACT key) w (fun _ w' =>
    (sessions_of key (sessions w) = ∅ ->
     shops w' = delete key (shops w) /\
     last (log w') = Some (mkLog Info ("Deleted all data for shop: " +:+ key) None)) /\
    (sessions_of key (sessions w) <> ∅ ->
     shops w' = shops w /\
     last (log w') =
       Some (mkLog Error ("Failed to delete shop data for " +:+ key +:+ ":")
                   (Some ForeignKeyViolation))) /\
    sessions w' = sessions w)).
  unfold SHOP_REDACT, shop_delete, session_deleteMany, logger. wp; try no_outage Hq.
  - split; [intros _; split; [reflexivity|apply last_snoc]|].
    split; [intros Hne; contradiction|].
    apply sessions_of_none_filter. assumption.
  - split; [intros He; contradiction|].
    split; [intros _; split; [reflexivity|apply last_snoc]|reflexivity].
Qed.

(** X3. [app/uninstalled] for a shop that has no row creates none (it is an
    update, not an upsert): the callback completes normally, rows and
    sessions are unchanged, and the last log line is the error of the
    callback, carrying "record not found" when the store answered. *)
Theorem uninstall_unknown_tenant (key : string) (w : World) :
  shops w !! key = None ->
  let r := APP_UNINSTALLED key w in
  r.1 = Ret tt /\ shops r.2 = shops w /\ sessions r.2 = sessions w /\
  exists e,
    last (log r.2) =
      Some (mkLog Error ("Failed to process app uninstall for shop " +:+ key +:+ ":")
                  (Some e)) /\
    (answered w -> e = RecordNotFound).
Proof.
  intros Hrow. cbv zeta.
  change (post (APP_UNINSTALLED key) w (fun o w' =>
    o = Ret tt /\ shops w' = shops w /\ sessions w' = sessions w /\
    exists e,
      last (log w') =
        Some (mkLog Error ("Failed to process app uninstall for shop " +:+ key +:+ ":")
                    (Some e)) /\
      (answered w -> e = RecordNotFound))).
  unfold APP_UNINSTALLED, shop_update, logger, answered. wp.
  all: repeat split; try reflexivity.
  all: eexists; split; [apply last_snoc|].
  - intros Hans. exfalso. apply Hans. rewrite H. reflexivity.
  - reflexivity.
Qed.

Section WithVault.
Context `{V : Vault}.

Lemma afterAuth_frame_post r admin w s :
  heap w !! r = Some s ->
  post (afterAuth r admin) w (fun o w' =>
    o = Ret tt /\ sessions w' = sessions w /\ heap w' = heap w /\
    (shops w' = shops w \/
     exists p row, head admin = Some p /\ shops w' = <[shop s := row]> (shops w) /\
                   profile row = match shops w !! shop s with
                                 | Some old => updateProfile p (profile old)
                                 | None => createProfile p
                                 end /\
                   isActive row = true /\ uninstalledAt row = None)).
Proof.
  intros Hs. destruct s as [i k st o sc ex tk].
  unfold afterAuth, deref, encryptOpt, shop_upsert, logger. wp.
  all: simplify_eq.
  all: repeat split; auto.
  all: right; destruct (shops w !! k); do 2 eexists; repeat split; reflexivity.
Qed.

(** X4. [afterAuth] on a live session object completes normally whatever
    the platform, the vault and the store do; it never writes a session row
    or a session object, it writes no row of another tenant, and it writes
    no row at all when the platform returns no shop record.  When [session]
    is undefined the [catch] block itself dereferences it, so the hook
    throws a TypeError, having written nothing. *)
Theorem afterAuth_frame (r : nat) (admin : list Shop.t) (w : World) :
  (forall s, heap w !! r = Some s ->
     let res := afterAuth r admin w in
     res.1 = Ret tt /\ sessions res.2 = sessions w /\ heap res.2 = heap w /\
     (forall other, other <> shop s -> shops res.2 !! other = shops w !! other) /\
     (admin = [] -> shops res.2 = shops w)) /\
  (heap w !! r = None ->
     (afterAuth r admin w).1 = Raise TypeError /\
     shops (afterAuth r admin w).2 = shops w).
Proof.
  split.
  - intros s Hs. cbv zeta.
    destruct (afterAuth_frame_post r admin w s Hs) as (Ho & Hse & Hh & Hsh).
    repeat split; try assumption.
    + intros other Hne. destruct Hsh as [->|(p & row & _ & -> & _)]; [reflexivity|].
      apply lookup_insert_ne. congruence.
    + intros ->. destruct Hsh as [->|(p & row & Hp & _)]; [reflexivity|discriminate].
  - intros Hnone.
    change (post (afterAuth r admin) w (fun o w' => o = Raise TypeError /\ shops w' = shops w)).
    unfold afterAuth, deref, logger. wp. split; reflexivity.
Qed.

(** X5. The row [afterAuth] leaves, given a session with credential [c], a
    shop record [p] from the platform, no outage and a vault that encrypts
    [c].  For a new tenant: each profile column holds the value of the
    record's property and is NULL where the record lacks the property or
    holds null; [installedAt] = now, the row is active, with no uninstall
    date, webhook secret, settings or features.  For a tenant that already
    has a row: each profile column takes the value of the record's property,
    is cleared where the record holds null, and keeps what it had where the
    record lacks the property; the row is active with the uninstall date
    cleared, and [installedAt], [webhookSecret], [appSettings] and
    [features] are kept.  In both cases the credential blob decrypts to
    [c]. *)
Theorem afterAuth_upsert_row (r : nat) (p : Shop.t) (admin : list Shop.t) (w : World)
    (s : Session) (c : string) :
  heap w !! r = Some s ->
  accessToken s = Some c ->
  quiet w ->
  (forall n, is_Some (encryptToken n c)) ->
  exists blob,
    decryptToken blob = Some c /\
    shops (afterAuth r (p :: admin) w).2 !! shop s =
      Some match shops w !! shop s with
           | Some old =>
               mkShopRow (updateProfile p (profile old)) (installedAt old) None true
                         (Some blob) (webhookSecret old) (appSettings old) (features old)
           | None => mkShopRow (createProfile p) (clock w) None true (Some blob) None None []
           end.
Proof.
  intros Hs Ht Hq Henc. destruct s as [i k st o sc ex tk]. simpl in Ht. subst tk.
  unfold quiet in Hq.
  change (post (afterAuth r (p :: admin)) w (fun _ w' =>
    exists blob,
      decryptToken blob = Some c /\
      shops w' !! k =
        Some match shops w !! k with
             | Some old =>
                 mkShopRow (updateProfile p (profile old)) (installedAt old) None true
                           (Some blob) (webhookSecret old) (appSettings old) (features old)
             | None =>
                 mkShopRow (createProfile p) (clock w) None true (Some blob) None None []
             end)).
  unfold afterAuth, deref, encryptOpt, shop_upsert, logger. wp; try no_outage Hq.
  - injection Heqo0 as ->.
    destruct (shops w !! k) as [old|]; eexists;
      (split; [|apply lookup_insert_eq]); eapply vault_roundtrip; eassumption.
  - destruct (Henc (N.succ (nonce w))) as [? ?]. congruence.
  - destruct (Henc (nonce w)) as [? ?]. congruence.
  - simplify_eq.
Qed.

Lemma storeSession_frame_post r w :
  post (storeSession r) w (fun o w' =>
    (exists b, o = Ret b) /\
    (forall k, shops w !! k = None -> shops w' !! k = None) /\
    (forall k, is_Some (shops w !! k) -> is_Some (shops w' !! k)) /\
    (forall s, heap w !! r = Some s -> shops w !! shop s = None ->
               o = Ret false /\ shops w' = shops w /\ sessions w' = sessions w) /\
    (forall s k, heap w !! r = Some s -> k <> shop s -> shops w' !! k = shops w !! k) /\
    (heap w !! r = None -> o = Ret false /\ shops w' = shops w /\ sessions w' = sessions w)).
Proof.
  unfold storeSession, storeSession_try, deref, setAccessToken, super_storeSession,
    shop_upsert, logger.
  wp.
  all: try match goal with s : Session |- _ => destruct s as [i k0 st o sc ex tk] end.
  all: wsimpl; simplify_eq.
  all: repeat match goal with |- _ /\ _ => split end; eauto.
  all: try (intros; simplify_eq; wsimpl; simplify_eq; eauto; fail).
  - intros k Hk. rewrite lookup_insert_ne; [exact Hk|congruence].
  - intros k Hk. destruct (decide (k0 = k)) as [->|Hne];
      [rewrite lookup_insert_eq; eauto|rewrite lookup_insert_ne by exact Hne; exact Hk].
  - intros s' k' [= <-] Hne. apply lookup_insert_ne. simpl in Hne. congruence.
Qed.

Lemma storeSession_ok_post r w s t old :
  heap w !! r = Some s ->
  accessToken s = Some t ->
  t <> "" ->
  shop s <> "" ->
  shops w !! shop s = Some old ->
  quiet w ->
  (forall n, is_Some (encryptToken n t)) ->
  post (storeSession r) w (fun o w' =>
    o = Ret true /\ quiet w' /\
    exists c blob,
      encryptToken (nonce w) t = Some c /\
      decryptToken blob = Some t /\
      heap w' = <[r := mkSession (sid s) (shop s) (state s) (isOnline s) (scope s)
                                 (expires s) (Some c)]> (heap w) /\
      sessions w' = <[sid s := mkSessionRow (shop s) (state s) (isOnline s)
                                            (orNull (scope s)) (expires s) c]>
                      (sessions w) /\
      shops w' = <[shop s := mkShopRow (profile old) (installedAt old) (uninstalledAt old)
                                       true (Some blob) (webhookSecret old)
                                       (appSettings old) (features old)]> (shops w)).
Proof.
  intros Hs Ht Hne Hshop Hold Hq Henc. destruct s as [i k st o sc ex tk].
  simpl in Ht, Hshop, Hold. subst tk. unfold quiet in *.
  assert (Htr : negb (String.eqb t "") = true).
  { destruct (String.eqb_spec t ""); [contradiction|reflexivity]. }
  assert (Hk : negb (String.eqb k "") = true).
  { destruct (String.eqb_spec k ""); [contradiction|reflexivity]. }
  unfold storeSession, storeSession_try, deref, setAccessToken, super_storeSession,
    sessionToRow, shop_upsert, logger, truthy.
  wp; try no_outage Hq; simplify_eq.
  all: try match goal with
           | H : encryptToken ?n _ = None |- _ =>
               destruct (Henc n) as [? ?]; congruence
           end.
  - split; [reflexivity|]. split; [repeat apply quiet_tail; exact Hq|].
    do 2 eexists. split; [eassumption|].
    split; [|repeat split; reflexivity]. eapply vault_roundtrip. eassumption.
  - exfalso. rewrite Hk in *. discriminate.
Qed.

(** X6. [storeSession] never creates and never removes a tenant row: the
    shops that have a row are the same before and after.  In particular a
    session of a shop that has no row is not stored: the session write comes
    first and is rejected ([sessions_shop_fkey], or the outage, or the
    vault), the call answers [false], and neither table changes; the
    [create] branch of its upsert is never taken. *)
Theorem storeSession_never_creates_tenant (r : nat) (w : World) :
  (forall k, is_Some (shops (storeSession r w).2 !! k) <-> is_Some (shops w !! k)) /\
  (forall s, heap w !! r = Some s -> shops w !! shop s = None ->
     (storeSession r w).1 = Ret false /\
     shops (storeSession r w).2 = shops w /\
     sessions (storeSession r w).2 = sessions w).
Proof.
  destruct (storeSession_frame_post r w) as (_ & Hnone & Hsome & Hrow & _).
  split; [|exact Hrow].
  intros k. split; [|apply Hsome].
  intros Hk. destruct (shops w !! k) eqn:E; [eauto|].
  rewrite (Hnone k E) in Hk. destruct Hk as [? ?]. discriminate.
Qed.

(** X7. [storeSession] for a tenant that has a row, with a non-empty token
    [t], a non-empty shop, no outage and a vault that encrypts [t]: it
    answers [true] and rewrites the row with [isActive = true] and a
    credential blob that decrypts to [t]; every other column, [uninstalledAt]
    included, is kept.  (So a row marked uninstalled becomes active again
    with its uninstall date still set.) *)
Theorem storeSession_reactivates_row (r : nat) (w : World) (s : Session) (t : string)
    (old : ShopRow) :
  heap w !! r = Some s ->
  accessToken s = Some t ->
  t <> "" ->
  shop s <> "" ->
  shops w !! shop s = Some old ->
  quiet w ->
  (forall n, is_Some (encryptToken n t)) ->
  let res := storeSession r w in
  res.1 = Ret true /\
  exists blob,
    decryptToken blob = Some t /\
    shops res.2 !! shop s =
      Some (mkShopRow (profile old) (installedAt old) (uninstalledAt old) true (Some blob)
                      (webhookSecret old) (appSettings old) (features old)).
Proof.
  intros Hs Ht Hne Hshop Hold Hq Henc. cbv zeta.
  destruct (storeSession_ok_post r w s t old Hs Ht Hne Hshop Hold Hq Henc)
    as (Ho & _ & c & blob & _ & Hdec & _ & _ & Hsh).
  split; [exact Ho|]. exists blob. split; [exact Hdec|].
  rewrite Hsh. apply lookup_insert_eq.
Qed.

(** X8. [storeSession] changes the session object it is given: when the
    token is non-empty and the vault encrypts it to [c], the object's
    [accessToken] is [c] after the call, whether the call answered [true] or
    [false]; no other object changes.  When the token is empty or absent no
    object changes. *)
Theorem storeSession_mutates_session (r : nat) (w : World) (s : Session) :
  heap w !! r = Some s ->
  (forall t c, accessToken s = Some t -> t <> "" ->
     encryptToken (nonce w) t = Some c ->
     heap (storeSession r w).2 =
       <[r := mkSession (sid s) (shop s) (state s) (isOnline s) (scope s) (expires s)
                        (Some c)]> (heap w)) /\
  (truthy (accessToken s) = false -> heap (storeSession r w).2 = heap w).
Proof.
  intros Hs. destruct s as [i k st o sc ex tk].
  cbn [sid shop state isOnline scope expires accessToken].
  change (post (storeSession r) w (fun _ w' =>
    (forall t c, tk = Some t -> t <> "" ->
       encryptToken (nonce w) t = Some c ->
       heap w' = <[r := mkSession i k st o sc ex (Some c)]> (heap w)) /\
    (truthy tk = false -> heap w' = heap w))).
  unfold storeSession, storeSession_try, deref, setAccessToken, super_storeSession,
    shop_upsert, logger.
  wp.
  all: split; [intros t' c' Ht' Hne' Hc'|intros Hfalse]; simplify_eq; try reflexivity.
  all: wsimpl; simplify_eq; try reflexivity.
  all: try congruence.
  all: exfalso; unfold truthy in *; destruct (String.eqb_spec t' ""); [contradiction|discriminate].
Qed.

Lemma storeSession_outage_post r w s t c fs :
  heap w !! r = Some s ->
  accessToken s = Some t ->
  t <> "" ->
  encryptToken (nonce w) t = Some c ->
  faults w = true :: fs ->
  post (storeSession r) w (fun o w' =>
    o = Ret false /\ faults w' = fs /\ shops w' = shops w /\ sessions w' = sessions w /\
    heap w' !! r = Some (mkSession (sid s) (shop s) (state s) (isOnline s) (scope s)
                                   (expires s) (Some c))).
Proof.
  intros Hs Ht Hne Hc Hf. destruct s as [i k st o sc ex tk]. simpl in Ht. subst tk.
  assert (Htr : negb (String.eqb t "") = true).
  { destruct (String.eqb_spec t ""); [contradiction|reflexivity]. }
  unfold storeSession, storeSession_try, deref, setAccessToken, super_storeSession,
    shop_upsert, logger, truthy.
  wp; simplify_eq.
  all: try match goal with H : head (faults _) <> Some true |- _ =>
             exfalso; apply H; rewrite Hf; reflexivity end.
  all: repeat split; try reflexivity; try congruence.
Qed.

(** X9. Retrying [storeSession] on the same session object after a failed
    attempt stores the blob, not the token.  When the first store call is
    rejected (and the following ones are answered), the first attempt
    answers [false] having replaced the object's token [t] by its blob [c];
    the second attempt answers [true], and [loadSession] then yields the
    session (its scope as the storage keeps it: an empty scope is loaded as
    none) with [accessToken = c]. *)
Theorem storeSession_retry_stores_blob (r : nat) (w : World) (s : Session) (t : string)
    (old : ShopRow) (fs : list bool) :
  heap w !! r = Some s ->
  accessToken s = Some t ->
  t <> "" ->
  shop s <> "" ->
  shops w !! shop s = Some old ->
  faults w = true :: fs ->
  Forall (fun b => b = false) fs ->
  (forall n p, is_Some (encryptToken n p)) ->
  exists c,
    encryptToken (nonce w) t = Some c /\
    (storeSession r w).1 = Ret false /\
    (storeSession r (storeSession r w).2).1 = Ret true /\
    (loadSession (sid s) (storeSession r (storeSession r w).2).2).1 =
      Ret (Some (mkSession (sid s) (shop s) (state s) (isOnline s) (orNull (scope s))
                           (expires s) (Some c))).
Proof.
  intros Hs Ht Hne Hshop Hold Hf Hfs Henc.
  destruct (Henc (nonce w) t) as [c Hc]. exists c. split; [exact Hc|].
  destruct (storeSession_outage_post r w s t c fs Hs Ht Hne Hc Hf)
    as (Ho1 & Hf1 & Hsh1 & _ & Hh1).
  split; [exact Ho1|].
  set (w1 := (storeSession r w).2) in *.
  set (s1 := mkSession (sid s) (shop s) (state s) (isOnline s) (scope s) (expires s)
                       (Some c)) in *.
  assert (Hcne : c <> "") by (eapply vault_nonempty; exact Hc).
  assert (Hq1 : quiet w1) by (unfold quiet; rewrite Hf1; exact Hfs).
  assert (Hold1 : shops w1 !! shop s1 = Some old) by (rewrite Hsh1; exact Hold).
  destruct (storeSession_ok_post r w1 s1 c old Hh1 eq_refl Hcne Hshop Hold1 Hq1
              (fun n => Henc n c))
    as (Ho2 & Hq2 & c2 & _ & Hc2 & _ & _ & Hse2 & _).
  split; [exact Ho2|].
  set (w2 := (storeSession r w1).2) in *.
  assert (Hrow : sessions w2 !! sid s =
                 Some (mkSessionRow (shop s) (state s) (isOnline s) (orNull (scope s))
                                    (expires s) c2)).
  { rewrite Hse2. apply lookup_insert_eq. }
  destruct (loadSession_row (sid s) w2 _ Hrow) as (_ & Hfull & _).
  simpl in Hfull. rewrite orNull_idem in Hfull.
  apply Hfull.
  - apply quiet_answered, Hq2.
  - simpl. eapply vault_nonempty. exact Hc2.
  - simpl. eapply vault_roundtrip. exact Hc2.
Qed.

(** **** Encryption at rest *)

Lemma genuine_blob n p c : encryptToken n p = Some c -> genuine c.
Proof. intros H. exists n, p. exact H. Qed.

Ltac at_rest :=
  unfold encrypted_at_rest in *; wsimpl;
  repeat match goal with H : _ /\ _ |- _ => destruct H end;
  split;
  repeat first
    [ assumption
    | match goal with
      | |- map_Forall _ (match ?x with _ => _ end) => destruct x eqn:?
      end
    | apply map_Forall_insert_2
    | apply map_Forall_delete
    | solve [intros b [= <-]; eapply genuine_blob; eassumption]
    | solve [right; eapply genuine_blob; eassumption] ].

Lemma at_rest_storeSession r w :
  encrypted_at_rest w -> encrypted_at_rest (storeSession r w).2.
Proof.
  intros Hw.
  change (post (storeSession r) w (fun _ w' => encrypted_at_rest w')).
  unfold storeSession, storeSession_try, deref, setAccessToken, super_storeSession,
    sessionToRow, shop_upsert, logger.
  wp.
  all: try match goal with s : Session |- _ => destruct s as [i k0 st o sc ex tk] end.
  all: wsimpl; simplify_eq.
  all: at_rest.
  left. simpl. unfold truthy in *. destruct tk as [t|]; [|reflexivity].
  simpl. destruct (String.eqb_spec t ""); [assumption|discriminate].
Qed.

Lemma at_rest_afterAuth r admin w :
  encrypted_at_rest w -> encrypted_at_rest (afterAuth r admin w).2.
Proof.
  intros Hw.
  change (post (afterAuth r admin) w (fun _ w' => encrypted_at_rest w')).
  unfold afterAuth, deref, encryptOpt, shop_upsert, logger.
  wp.
  all: at_rest.
Qed.

Lemma at_rest_uninstalled key w :
  encrypted_at_rest w -> encrypted_at_rest (APP_UNINSTALLED key w).2.
Proof.
  intros Hw.
  change (post (APP_UNINSTALLED key) w (fun _ w' => encrypted_at_rest w')).
  unfold APP_UNINSTALLED, shop_update, logger.
  wp.
  all: at_rest.
  simpl.
  match goal with
  | Hall : map_Forall _ (shops w), Hl : shops w !! key = Some ?s |- _ => exact (Hall key s Hl)
  end.
Qed.

Lemma at_rest_redact key w :
  encrypted_at_rest w -> encrypted_at_rest (SHOP_REDACT key w).2.
Proof.
  intros Hw.
  destruct (redact_post key w) as (_ & Hse & _ & Hsh).
  destruct Hw as [H1 H2]. split; [|rewrite Hse; exact H2].
  destruct Hsh as [->|(_ & _ & ->)]; [exact H1|apply map_Forall_delete, H1].
Qed.

Lemma at_rest_step op w : encrypted_at_rest w -> encrypted_at_rest (step op w).
Proof.
  destruct op as [r|id|r admin|key|key|key|key|key|r s|fs|dt]; simpl;
    try (intros H; exact H).
  - apply at_rest_storeSession.
  - intros [H1 H2].
    assert (Hf : forall X (proj : World -> X),
               (forall fs w, proj (with_faults fs w) = proj w) ->
               (forall f w, proj (with_log f w) = proj w) ->
               proj (loadSession id w).2 = proj w).
    { intros X proj Hf Hl. apply stable_loadSession; assumption. }
    split; [rewrite (Hf _ shops)|rewrite (Hf _ sessions)]; auto.
  - apply at_rest_afterAuth.
  - apply at_rest_uninstalled.
  - apply at_rest_redact.
Qed.

(** X10. Credentials are encrypted at rest.  "Every credential in [shops]
    is an output of [encryptToken], and every token in [sessions] is one or
    is empty" is kept by every operation of the registry under every outage
    script, hence holds after every history that starts with empty tables;
    and in such a state every stored session can be loaded and the vault
    never fails on it: [loadSession] of its id, when the store answers,
    yields the session without a token when the stored token is empty, and
    with the decryption of the stored blob otherwise. *)
Theorem credentials_encrypted_at_rest :
  (forall op w, encrypted_at_rest w -> encrypted_at_rest (step op w)) /\
  (forall ops w, shops w = ∅ -> sessions w = ∅ -> encrypted_at_rest (run ops w)) /\
  (forall w id row,
      encrypted_at_rest w -> answered w -> sessions w !! id = Some row ->
      (row_accessToken row = "" /\
       (loadSession id w).1 =
         Ret (Some (mkSession id (row_shop row) (row_state row) (row_isOnline row)
                              (orNull (row_scope row)) (row_expires row) None))) \/
      (exists p,
         row_accessToken row <> "" /\
         decryptToken (row_accessToken row) = Some p /\
         (loadSession id w).1 =
           Ret (Some (mkSession id (row_shop row) (row_state row) (row_isOnline row)
                                (orNull (row_scope row)) (row_expires row) (Some p))))).
Proof.
  split; [exact at_rest_step|]. split.
  - intros ops w Hsh Hse. unfold run.
    assert (H0 : encrypted_at_rest w).
    { split; [rewrite Hsh|rewrite Hse]; apply map_Forall_empty. }
    clear Hsh Hse. revert w H0.
    induction ops as [|op ops IH]; intros w Hw; simpl; [exact Hw|].
    apply IH, at_rest_step, Hw.
  - intros w id row [_ Hse] Hans Hrow.
    pose proof (Hse id row Hrow) as Htok. simpl in Htok.
    destruct (loadSession_row id w row Hrow) as (Hempty & Hfull & _).
    destruct (String.eqb_spec (row_accessToken row) "") as [E|E].
    + left. split; [exact E|]. exact (Hempty Hans E).
    + destruct Htok as [Htok|(n & p & Hp)]; [contradiction|].
      right. exists p. pose proof (vault_roundtrip n p _ Hp) as Hdec.
      split; [exact E|]. split; [exact Hdec|]. apply Hfull; assumption.
Qed.

(** X11. [loadSession] only reads: it changes no tenant row, no session
    row and no session object.  For an id that has no row it answers
    undefined, and when the store answered it logs nothing. *)
Theorem loadSession_reads_only (id : string) (w : World) :
  shops (loadSession id w).2 = shops w /\
  sessions (loadSession id w).2 = sessions w /\
  heap (loadSession id w).2 = heap w /\
  (sessions w !! id = None -> (loadSession id w).1 = Ret None) /\
  (sessions w !! id = None -> answered w -> log (loadSession id w).2 = log w).
Proof.
  change (post (loadSession id) w (fun o w' =>
    shops w' = shops w /\ sessions w' = sessions w /\ heap w' = heap w /\
    (sessions w !! id = None -> o = Ret None) /\
    (sessions w !! id = None -> answered w -> log w' = log w))).
  unfold loadSession, loadSession_try, super_loadSession, decrypt, logger, answered.
  wp.
  all: repeat split; try reflexivity; try congruence.
  all: try (intros Hn; rewrite Hn in *; discriminate).
  all: intros Hn Hans; exfalso; apply Hans; rewrite H; reflexivity.
Qed.

(** X12. Tenant isolation.  An operation of the registry leaves the row of
    every tenant other than its own as it was, where the tenant of
    [storeSession] and [afterAuth] is the shop of the session object and the
    tenant of a webhook is the shop it names; [loadSession], the logging
    callbacks and the moves of the environment have none. *)
Theorem tenant_isolation (op : Op) (w : World) (T : string) :
  tenantOf op w <> Some T ->
  shops (step op w) !! T = shops w !! T.
Proof.
  intros Hne.
  destruct op as [r|id|r admin|key|key|key|key|key|r s|fs|dt]; simpl in *;
    try reflexivity.
  - destruct (storeSession_frame_post r w) as (_ & _ & _ & _ & Hother & Hdangling).
    destruct (heap w !! r) as [s|] eqn:Hs.
    + apply (Hother s T eq_refl). simpl in Hne. congruence.
    + destruct (Hdangling eq_refl) as (_ & -> & _). reflexivity.
  - assert (Hf : shops (loadSession id w).2 = shops w).
    { apply stable_loadSession; reflexivity. }
    rewrite Hf. reflexivity.
  - destruct (heap w !! r) as [s|] eqn:Hs.
    + destruct (afterAuth_frame_post r admin w s Hs) as (_ & _ & _ & Hsh).
      destruct Hsh as [->|(p & row & _ & -> & _)]; [reflexivity|].
      apply lookup_insert_ne. simpl in Hne. congruence.
    + assert (Hd : post (afterAuth r admin) w (fun _ w' => shops w' = shops w)).
      { unfold afterAuth, deref, logger. wp. reflexivity. }
      unfold post in Hd. rewrite Hd. reflexivity.
  - destruct (uninstall_frame key w) as (_ & _ & _ & Hsh).
    destruct Hsh as [->|(row & _ & ->)]; [reflexivity|].
    apply lookup_insert_ne. congruence.
  - destruct (redact_post key w) as (_ & _ & _ & Hsh).
    destruct Hsh as [->|(_ & _ & ->)]; [reflexivity|].
    apply lookup_delete_ne. congruence.
Qed.

(** X25. A session without a token.  When [session.accessToken] is absent
    or empty, [storeSession] takes the plain path: it encrypts nothing,
    writes no tenant row and changes no session object.  With the store
    answering and the tenant having a row, it answers [true] and stores the
    session row with an empty token, for the absent token as for the empty
    one (the storage writes [''] for a missing token).  For a shop that has
    no row it answers [false] and stores nothing. *)
Theorem storeSession_without_token (r : nat) (w : World) (s : Session) :
  heap w !! r = Some s ->
  truthy (accessToken s) = false ->
  shops (storeSession r w).2 = shops w /\
  heap (storeSession r w).2 = heap w /\
  nonce (storeSession r w).2 = nonce w /\
  (answered w ->
   is_Some (shops w !! shop s) ->
   (storeSession r w).1 = Ret true /\
   sessions (storeSession r w).2 =
     <[sid s := mkSessionRow (shop s) (state s) (isOnline s) (orNull (scope s))
                             (expires s) ""]> (sessions w)) /\
  (shops w !! shop s = None ->
   (storeSession r w).1 = Ret false /\ sessions (storeSession r w).2 = sessions w).
Proof.
  intros Hs Hfalse. destruct s as [i k st o sc ex tk].
  cbn [sid shop state isOnline scope expires accessToken] in *.
  assert (Htk : default "" tk = "").
  { destruct tk as [t|]; [|reflexivity]. simpl in *.
    destruct (String.eqb_spec t ""); [assumption|discriminate]. }
  change (post (storeSession r) w (fun o' w' =>
    shops w' = shops w /\ heap w' = heap w /\ nonce w' = nonce w /\
    (answered w -> is_Some (shops w !! k) ->
     o' = Ret true /\
     sessions w' = <[i := mkSessionRow k st o (orNull sc) ex ""]> (sessions w)) /\
    (shops w !! k = None -> o' = Ret false /\ sessions w' = sessions w))).
  unfold storeSession, storeSession_try, deref, setAccessToken, super_storeSession,
    sessionToRow, shop_upsert, logger, answered.
  wp; simplify_eq.
  all: cbn [sid shop state isOnline scope expires accessToken] in *.
  all: rewrite ?Htk.
  all: repeat split; try reflexivity; try congruence.
  all: try (intros Hans; exfalso; apply Hans;
            match goal with H : faults _ = true :: _ |- _ => rewrite H end; reflexivity).
  all: try (intros ? [? ?]; congruence).
  all: exfalso.
  all: try match goal with
           | Hf : faults ?w = true :: _, Hans : head (faults ?w) <> Some true |- _ =>
               apply Hans; rewrite Hf; reflexivity
           end.
  all: match goal with
       | Hrow : is_Some None |- _ => destruct Hrow as [? ?]; discriminate
       end.
Qed.

End WithVault.

(** **** The health route *)

Import HealthRoute.

Lemma loader_post w :
  post loader w (fun o w' =>
    shops w' = shops w /\ sessions w' = sessions w /\ heap w' = heap w /\
    jobs w' = jobs w /\
    ((reachable w /\
      o = Ret (mkResponse
                 (mkBody Healthy None (mkChecks Healthy Healthy Healthy)
                    (Some (mkMetrics (activeCount (shops w)) (size (sessions w)))))
                 200 noCache)) \/
     (~ reachable w /\
      o = Ret (mkResponse
                 (mkBody Unhealthy (Some StoreUnavailable)
                    (mkChecks Unknown Unknown Unhealthy) None)
                 503 noCache) /\
      last (log w') = Some (mkLog Error "Health check failed:" (Some StoreUnavailable))))).
Proof.
  unfold post, reachable. destruct w as [sh se jb hp ck nc fs lg].
  destruct fs as [|[] [|[] [|[] [|[] [|[] fs]]]]]; cbn.
  all: repeat (split; [reflexivity|]).
  all: first
    [ left; split; [repeat constructor|reflexivity]
    | right; split;
      [ intros Hall; repeat (apply Forall_cons in Hall as [? Hall]); congruence
      | split; [reflexivity|apply last_snoc] ] ].
Qed.

(** X13. The health route always answers and never writes: [loader]
    completes normally with the no-cache headers and changes no row and no
    session object.  When its five awaited calls (database query, Redis
    ping, Redis quit, count of active shops, count of sessions) are all
    answered the status is 200 and the body reports all three checks healthy
    with [activeShops] = the number of rows with [isActive] and
    [totalSessions] = the number of session rows.  When any of the five is
    rejected the status is 503 and the body reports database and Redis as
    unknown and the application as unhealthy, whichever call it was. *)
Theorem loader_answers_200_or_503 (w : World) :
  let r := loader w in
  shops r.2 = shops w /\ sessions r.2 = sessions w /\ heap r.2 = heap w /\
  exists resp,
    r.1 = Ret resp /\
    headers resp = noCache /\
    (reachable w ->
     statusCode resp = 200%Z /\
     body resp =
       mkBody Healthy None (mkChecks Healthy Healthy Healthy)
         (Some (mkMetrics (activeCount (shops w))
                          (size (sessions w))))) /\
    (~ reachable w ->
     statusCode resp = 503%Z /\
     body resp =
       mkBody Unhealthy (Some StoreUnavailable) (mkChecks Unknown Unknown Unhealthy) None).
Proof.
  cbv zeta. destruct (loader_post w) as (Hsh & Hse & Hh & _ & Hr).
  repeat (split; [assumption|]).
  destruct Hr as [[Hok ->]|(Hbad & -> & _)]; eexists; (split; [reflexivity|]);
    (split; [reflexivity|]); split; intros H; try contradiction; split; reflexivity.
Qed.

Lemma activeCount_insert key row (t : gmap string ShopRow) :
  activeCount (<[key := row]> t) =
    ((if isActive row then 1 else 0) +
     (activeCount t - match t !! key with
                      | Some old => if isActive old then 1 else 0
                      | None => 0
                      end))%nat.
Proof.
  unfold activeCount. rewrite map_filter_insert. simpl.
  assert (Hdel : size (filter (fun kv : string * ShopRow => isActive kv.2 = true)
                        (delete key t)) =
                 (size (filter (fun kv : string * ShopRow => isActive kv.2 = true) t) -
                  match t !! key with
                  | Some old => if isActive old then 1 else 0
                  | None => 0
                  end)%nat).
  { rewrite map_filter_delete, map_size_delete, map_lookup_filter.
    destruct (t !! key) as [old|]; simpl; [|lia].
    destruct (isActive old) eqn:E.
    - rewrite option_guard_True by reflexivity. simpl. lia.
    - rewrite option_guard_False by discriminate. simpl. lia. }
  destruct (isActive row) eqn:E.
  - rewrite decide_True by reflexivity.
    rewrite <- insert_delete_eq, <- map_filter_delete.
    rewrite map_size_insert_None; [rewrite Hdel; lia|].
    apply map_lookup_filter_None. left. apply lookup_delete_eq.
  - rewrite decide_False by discriminate. rewrite Hdel. lia.
Qed.

Lemma activeCount_pos key row (t : gmap string ShopRow) :
  t !! key = Some row -> isActive row = true -> (0 < activeCount t)%nat.
Proof.
  intros Hrow Hact. unfold activeCount.
  assert (Hin : filter (fun kv : string * ShopRow => isActive kv.2 = true) t !! key = Some row).
  { apply map_lookup_filter_Some. split; assumption. }
  destruct (size _) eqn:E; [|lia].
  apply map_size_empty_inv in E. rewrite E, lookup_empty in Hin. discriminate.
Qed.

(** X14. The health metrics follow the registry: after [app/uninstalled]
    of a tenant with a row (the store answering), a health request that gets
    through answers 200 with [activeShops] one less than before when the
    tenant was active (and then there was at least one), the same as before
    when it was already inactive, and with [totalSessions] unchanged. *)
Theorem loader_after_uninstall (key : string) (w : World) (row : ShopRow) :
  shops w !! key = Some row ->
  answered w ->
  let w' := (APP_UNINSTALLED key w).2 in
  reachable w' ->
  (0 < activeCount (shops w) \/ isActive row = false) /\
  exists resp,
    (loader w').1 = Ret resp /\
    statusCode resp = 200%Z /\
    metrics (body resp) =
      Some (mkMetrics (activeCount (shops w) - if isActive row then 1 else 0)
                      (size (sessions w))).
Proof.
  intros Hrow Hans w' Hreach.
  destruct (uninstall_post key w row Hrow Hans) as (_ & Hsh & Hse & _).
  fold w' in Hsh, Hse.
  split.
  { destruct (isActive row) eqn:E; [left|right; reflexivity].
    eapply activeCount_pos; eassumption. }
  destruct (loader_post w') as (_ & _ & _ & _ & [[_ Ho]|[Hbad _]]); [|contradiction].
  eexists. split; [exact Ho|]. split; [reflexivity|]. simpl.
  rewrite Hsh, Hse, activeCount_insert, Hrow. simpl. reflexivity.
Qed.

(** **** The embedding at concrete inputs *)

Import Examples Scenarios.

Lemma webhooks_never_throw_witness :
  (SHOP_REDACT aShop installedWorld).1 = Ret tt /\
  sessions (SHOP_REDACT aShop installedWorld).2 = sessions installedWorld /\
  shops (CUSTOMERS_REDACT aShop installedWorld).2 = shops installedWorld.
Proof.
  destruct (webhooks_never_throw aShop installedWorld) as [Hall Hstub].
  destruct (Hall SHOP_REDACT) as (Ho & Hs & _); [simpl; auto|].
  destruct (Hstub CUSTOMERS_REDACT) as (Hsh & _); [simpl; auto|].
  auto.
Defined.

Lemma quiet_rowOnly : quiet rowOnlyWorld.
Proof. unfold quiet. vm_compute. constructor. Qed.

Lemma quiet_installed : quiet installedWorld.
Proof. unfold quiet. vm_compute. constructor. Qed.

Lemma shop_redact_removes_row_iff_no_session_witness :
  quiet rowOnlyWorld /\
  is_Some (shops rowOnlyWorld !! aShop) /\
  shops (SHOP_REDACT aShop rowOnlyWorld).2 !! aShop = None /\
  shops (SHOP_REDACT aShop installedWorld).2 = shops installedWorld.
Proof.
  split; [exact quiet_rowOnly|].
  split; [vm_compute; eexists; reflexivity|].
  split.
  - assert (Hrow : shops rowOnlyWorld !! aShop =
                   Some (mkShopRow shopProfile 1000 None true (Some "#tok1") None None []))
      by (vm_compute; reflexivity).
    destruct (shop_redact_removes_row_iff_no_session aShop rowOnlyWorld _
                Hrow quiet_rowOnly) as (Hgo & _).
    destruct Hgo as [Hsh _]; [vm_compute; reflexivity|].
    rewrite Hsh. apply lookup_delete_eq.
  - assert (Hrow : shops installedWorld !! aShop =
                   Some (mkShopRow shopProfile 1000 None true (Some "#tok1") None None []))
      by (vm_compute; reflexivity).
    destruct (shop_redact_removes_row_iff_no_session aShop installedWorld _
                Hrow quiet_installed) as (_ & Hstay & _).
    apply Hstay. vm_compute. discriminate.
Defined.

Lemma uninstall_unknown_tenant_witness :
  shops startWorld !! aShop = None /\
  (APP_UNINSTALLED aShop startWorld).1 = Ret tt /\
  shops (APP_UNINSTALLED aShop startWorld).2 = ∅.
Proof.
  split; [reflexivity|].
  destruct (uninstall_unknown_tenant aShop startWorld eq_refl) as (Ho & Hsh & _).
  split; [exact Ho|exact Hsh].
Defined.

Lemma afterAuth_frame_witness :
  (afterAuth 2 [] installedWorld).1 = Ret tt /\
  shops (afterAuth 2 [] installedWorld).2 = shops installedWorld /\
  (afterAuth 9 [shopInfo] installedWorld).1 = Raise TypeError.
Proof.
  assert (Hh : heap installedWorld !! 2%nat = Some (offlineSession "#tok1"))
    by (vm_compute; reflexivity).
  assert (Hd : heap installedWorld !! 9%nat = None) by (vm_compute; reflexivity).
  destruct (@afterAuth_frame tagVault 2%nat [] installedWorld) as [Hlive _].
  destruct (Hlive _ Hh) as (Ho & _ & _ & _ & Hnone).
  destruct (@afterAuth_frame tagVault 9%nat [shopInfo] installedWorld) as [_ Hdangling].
  destruct (Hdangling Hd) as [Hraise _].
  split; [exact Ho|]. split; [apply Hnone; reflexivity|exact Hraise].
Defined.

Lemma quiet_reinstall : quiet reinstallWorld.
Proof. unfold quiet. vm_compute. constructor. Qed.

Lemma afterAuth_upsert_row_witness :
  exists blob blob' blob1,
    decryptToken blob = Some "tok2" /\
    shops (afterAuth 5 [shopInfo] reinstallWorld).2 !! aShop =
      Some (mkShopRow shopProfile 1000 None true (Some blob) None None []) /\
    shops (afterAuth 5 [partialInfo] reinstallWorld).2 !! aShop =
      Some (mkShopRow
              (mkProfile (Some "A Shop BV") (Some "owner@a.example") (Some aShop) None
                         (Some "BE") None None None None None None (Some "en") None None)
              1000 None true (Some blob') None None []) /\
    shops (afterAuth 1 [partialInfo] (with_heap (insert 1%nat (offlineSession "tok1"))
                                                startWorld)).2 !! aShop =
      Some (mkShopRow
              (mkProfile (Some "A Shop BV") None None None (Some "BE") None None None None
                         None None None None None)
              1000 None true (Some blob1) None None []).
Proof.
  assert (Hh : heap reinstallWorld !! 5%nat = Some (offlineSession "tok2"))
    by (vm_compute; reflexivity).
  assert (Hq : quiet (with_heap (insert 1%nat (offlineSession "tok1")) startWorld))
    by (unfold quiet; vm_compute; constructor).
  assert (Hh1 : heap (with_heap (insert 1%nat (offlineSession "tok1")) startWorld) !! 1%nat
                = Some (offlineSession "tok1")) by (vm_compute; reflexivity).
  destruct (@afterAuth_upsert_row tagVault 5%nat shopInfo [] reinstallWorld
              (offlineSession "tok2") "tok2" Hh eq_refl quiet_reinstall
              (tag_encrypts "tok2")) as (blob & Hdec & Hrow).
  destruct (@afterAuth_upsert_row tagVault 5%nat partialInfo [] reinstallWorld
              (offlineSession "tok2") "tok2" Hh eq_refl quiet_reinstall
              (tag_encrypts "tok2")) as (blob' & _ & Hrow').
  destruct (@afterAuth_upsert_row tagVault 1%nat partialInfo []
              (with_heap (insert 1%nat (offlineSession "tok1")) startWorld)
              (offlineSession "tok1") "tok1" Hh1 eq_refl Hq
              (tag_encrypts "tok1")) as (blob1 & _ & Hrow1).
  exists blob, blob', blob1.
  split; [exact Hdec|]. split; [exact Hrow|]. split; [exact Hrow'|exact Hrow1].
Defined.

Lemma storeSession_never_creates_tenant_witness :
  (storeSession 4 strangerWorld).1 = Ret false /\
  shops (storeSession 4 strangerWorld).2 !! "b.example" = None.
Proof.
  assert (Hh : heap strangerWorld !! 4%nat =
               Some (mkSession "offline_b.example" "b.example" "state" false None None
                               (Some "tok4"))) by (vm_compute; reflexivity).
  assert (Hnone : shops strangerWorld !! "b.example" = None) by (vm_compute; reflexivity).
  destruct (@storeSession_never_creates_tenant tagVault 4%nat strangerWorld) as [_ Hrow].
  destruct (Hrow _ Hh Hnone) as (Ho & Hsh & _).
  split; [exact Ho|]. rewrite Hsh. exact Hnone.
Defined.

Lemma storeSession_reactivates_row_witness :
  exists blob,
    (storeSession 5 reinstallWorld).1 = Ret true /\
    decryptToken blob = Some "tok2" /\
    shops (storeSession 5 reinstallWorld).2 !! aShop =
      Some (mkShopRow shopProfile 1000 (Some 1060%Z) true (Some blob) None None []).
Proof.
  assert (Hh : heap reinstallWorld !! 5%nat = Some (offlineSession "tok2"))
    by (vm_compute; reflexivity).
  assert (Hold : shops reinstallWorld !! aShop =
                 Some (mkShopRow shopProfile 1000 (Some 1060%Z) false (Some "#tok1") None None []))
    by (vm_compute; reflexivity).
  destruct (@storeSession_reactivates_row tagVault 5%nat reinstallWorld
              (offlineSession "tok2") "tok2" _ Hh eq_refl ltac:(discriminate)
              ltac:(discriminate) Hold quiet_reinstall (tag_encrypts "tok2"))
    as (Ho & blob & Hdec & Hrow).
  exists blob. split; [exact Ho|]. split; [exact Hdec|exact Hrow].
Defined.

Lemma storeSession_mutates_session_witness :
  heap (storeSession 3 retryWorld).2 !! 3%nat = Some (offlineSession "#tok3").
Proof.
  assert (Hh : heap retryWorld !! 3%nat = Some (offlineSession "tok3"))
    by (vm_compute; reflexivity).
  destruct (@storeSession_mutates_session tagVault 3%nat retryWorld (offlineSession "tok3")
              Hh) as [Hset _].
  rewrite (Hset "tok3" "#tok3" eq_refl ltac:(discriminate) eq_refl).
  apply lookup_insert_eq.
Defined.

Lemma storeSession_retry_stores_blob_witness :
  (storeSession 3 retryWorld).1 = Ret false /\
  (storeSession 3 (storeSession 3 retryWorld).2).1 = Ret true /\
  (loadSession "offline_a.example" (storeSession 3 (storeSession 3 retryWorld).2).2).1 =
    Ret (Some (offlineSession "#tok3")).
Proof.
  assert (Hh : heap retryWorld !! 3%nat = Some (offlineSession "tok3"))
    by (vm_compute; reflexivity).
  assert (Hold : shops retryWorld !! aShop =
                 Some (mkShopRow shopProfile 1000 None true (Some "#tok1") None None []))
    by (vm_compute; reflexivity).
  destruct (@storeSession_retry_stores_blob tagVault 3%nat retryWorld (offlineSession "tok3")
              "tok3" _ [] Hh eq_refl ltac:(discriminate) ltac:(discriminate) Hold
              eq_refl ltac:(constructor) (fun n p => tag_encrypts p n))
    as (c & Hc & H1 & H2 & H3).
  injection Hc as <-. auto.
Defined.

Lemma credentials_encrypted_at_rest_witness :
  encrypted_at_rest installedWorld /\
  exists p,
    (loadSession "offline_a.example" installedWorld).1 = Ret (Some (offlineSession p)).
Proof.
  destruct (@credentials_encrypted_at_rest tagVault) as (_ & Hrun & Hload).
  assert (Hrest : encrypted_at_rest installedWorld) by (apply Hrun; reflexivity).
  split; [exact Hrest|].
  assert (Hans : answered installedWorld) by (unfold answered; vm_compute; discriminate).
  assert (Hrow : sessions installedWorld !! "offline_a.example" =
                 Some (mkSessionRow aShop "state" false (Some "read_products") None "#tok1"))
    by (vm_compute; reflexivity).
  destruct (Hload installedWorld "offline_a.example" _ Hrest Hans Hrow)
    as [[Hempty _]|(p & _ & _ & Ho)]; [discriminate Hempty|].
  exists p. exact Ho.
Defined.

Lemma loadSession_reads_only_witness :
  sessions installedWorld !! "offline_b.example" = None /\
  (loadSession "offline_b.example" installedWorld).1 = Ret None /\
  log (loadSession "offline_b.example" installedWorld).2 = log installedWorld.
Proof.
  split; [vm_compute; reflexivity|].
  destruct (@loadSession_reads_only tagVault "offline_b.example" installedWorld)
    as (_ & _ & _ & Hnone & Hlog).
  split; [apply Hnone; vm_compute; reflexivity|].
  apply Hlog; [vm_compute; reflexivity|unfold answered; vm_compute; discriminate].
Defined.

Lemma tenant_isolation_witness :
  tenantOf (Uninstalled "b.example") twoTenantWorld <> Some aShop /\
  is_Some (shops twoTenantWorld !! aShop) /\
  shops (step (Uninstalled "b.example") twoTenantWorld) !! aShop =
    shops twoTenantWorld !! aShop /\
  shops (step (Uninstalled "b.example") twoTenantWorld) !! "b.example" <>
    shops twoTenantWorld !! "b.example".
Proof.
  assert (Hne : tenantOf (Uninstalled "b.example") twoTenantWorld <> Some aShop)
    by (simpl; discriminate).
  split; [exact Hne|].
  split; [vm_compute; eexists; reflexivity|].
  split; [|vm_compute; discriminate].
  apply (@tenant_isolation tagVault (Uninstalled "b.example") twoTenantWorld aShop Hne).
Defined.

Lemma loader_answers_200_or_503_witness :
  reachable installedWorld /\
  ~ reachable (with_faults [false; true] installedWorld) /\
  exists resp resp',
    (loader installedWorld).1 = Ret resp /\
    statusCode resp = 200%Z /\
    metrics (body resp) = Some (mkMetrics 1 1) /\
    (loader (with_faults [false; true] installedWorld)).1 = Ret resp' /\
    statusCode resp' = 503%Z.
Proof.
  assert (Hok : reachable installedWorld) by (unfold reachable; vm_compute; constructor).
  assert (Hbad : ~ reachable (with_faults [false; true] installedWorld)).
  { unfold reachable. simpl. intros H. apply Forall_cons in H as [_ H].
    apply Forall_cons in H as [H _]. discriminate. }
  split; [exact Hok|]. split; [exact Hbad|].
  destruct (loader_answers_200_or_503 installedWorld) as (_ & _ & _ & resp & Ho & _ & Hgood & _).
  destruct (loader_answers_200_or_503 (with_faults [false; true] installedWorld))
    as (_ & _ & _ & resp' & Ho' & _ & _ & Hdown).
  destruct (Hgood Hok) as [Hcode Hbody]. destruct (Hdown Hbad) as [Hcode' _].
  exists resp, resp'. repeat (split; [assumption|]).
  split; [rewrite Hbody; vm_compute; reflexivity|]. split; assumption.
Defined.

Lemma loader_after_uninstall_witness :
  exists resp,
    (loader (APP_UNINSTALLED aShop installedWorld).2).1 = Ret resp /\
    statusCode resp = 200%Z /\
    metrics (body resp) = Some (mkMetrics 0 1).
Proof.
  assert (Hrow : shops installedWorld !! aShop =
                 Some (mkShopRow shopProfile 1000 None true (Some "#tok1") None None []))
    by (vm_compute; reflexivity).
  assert (Hans : answered installedWorld) by (unfold answered; vm_compute; discriminate).
  assert (Hreach : reachable (APP_UNINSTALLED aShop installedWorld).2)
    by (unfold reachable; vm_compute; constructor).
  destruct (loader_after_uninstall aShop installedWorld _ Hrow Hans Hreach)
    as (_ & resp & Ho & Hcode & Hm).
  exists resp. split; [exact Ho|]. split; [exact Hcode|]. rewrite Hm. vm_compute. reflexivity.
Defined.

Lemma storeSession_without_token_witness :
  (storeSession 6 tokenlessWorld).1 = Ret true /\
  sessions (storeSession 6 tokenlessWorld).2 !! "online_1" =
    Some (mkSessionRow aShop "state" true None None "") /\
  (storeSession 7 tokenlessWorld).1 = Ret true /\
  sessions (storeSession 7 tokenlessWorld).2 !! "online_2" =
    Some (mkSessionRow aShop "state" true None None "") /\
  shops (storeSession 7 tokenlessWorld).2 = shops tokenlessWorld.
Proof.
  assert (H6 : heap tokenlessWorld !! 6%nat =
               Some (mkSession "online_1" aShop "state" true None None None))
    by (vm_compute; reflexivity).
  assert (H7 : heap tokenlessWorld !! 7%nat =
               Some (mkSession "online_2" aShop "state" true None None (Some "")))
    by (vm_compute; reflexivity).
  assert (Hans : answered tokenlessWorld) by (unfold answered; vm_compute; discriminate).
  assert (Hrow : is_Some (shops tokenlessWorld !! aShop))
    by (vm_compute; eexists; reflexivity).
  destruct (@storeSession_without_token tagVault 6%nat tokenlessWorld _ H6 eq_refl)
    as (_ & _ & _ & Habsent & _).
  destruct (@storeSession_without_token tagVault 7%nat tokenlessWorld _ H7 eq_refl)
    as (Hshops & _ & _ & Hempty & _).
  destruct (Habsent Hans Hrow) as [Ho Hse].
  destruct (Hempty Hans Hrow) as [Ho' Hse'].
  split; [exact Ho|]. split; [rewrite Hse; apply lookup_insert_eq|].
  split; [exact Ho'|]. split; [rewrite Hse'; apply lookup_insert_eq|exact Hshops].
Defined.

End TenancyFacts.

(** ** Further facts about the worker *)

Module WorkerReadingFacts.
Import Worker WorkerReading WorkerFacts.

Lemma healthCheck_failed_post env w k :
  running w ->
  (k < 5)%nat ->
  (forall j, (j < k)%nat -> rejects env (calls w + j) = false) ->
  rejects env (calls w + k) = true ->
  post (healthCheck env) w (fun o w' =>
    o = Ret tt /\ running w' /\ calls w' = (calls w + S k)%nat /\
    trace w' = trace w ++ take k (healthAsked env (calls w)) ++
               [Logged Error "Queue health check failed:" None]).
Proof.
  intros [Hs Hd] Hk Hok Hbad.
  assert (H0 : (0 < k)%nat -> rejects env (calls w) = false).
  { intros Hlt. rewrite <- (Hok 0%nat) by lia. f_equal. lia. }
  assert (H1 : (1 < k)%nat -> rejects env (S (calls w)) = false).
  { intros Hlt. rewrite <- (Hok 1%nat) by lia. f_equal. lia. }
  assert (H2 : (2 < k)%nat -> rejects env (S (S (calls w))) = false).
  { intros Hlt. rewrite <- (Hok 2%nat) by lia. f_equal. lia. }
  assert (H3 : (3 < k)%nat -> rejects env (S (S (S (calls w)))) = false).
  { intros Hlt. rewrite <- (Hok 3%nat) by lia. f_equal. lia. }
  clear Hok.
  unfold healthAsked.
  replace (calls w + 1)%nat with (S (calls w)) by lia.
  replace (calls w + 2)%nat with (S (S (calls w))) by lia.
  replace (calls w + 3)%nat with (S (S (S (calls w)))) by lia.
  replace (calls w + 4)%nat with (S (S (S (S (calls w))))) by lia.
  destruct k as [|[|[|[|[|k]]]]]; [| | | | |lia].
  all: repeat match goal with
              | H : (?a < ?b)%nat -> _ |- _ =>
                  first [ specialize (H ltac:(lia)) | clear H ]
              end.
  - replace (calls w + 0)%nat with (calls w) in Hbad by lia.
    unfold healthCheck, waiting, active, failed, queueCall, await, logger, emit, running.
    kp. repeat split; try reflexivity; try lia.
  - replace (calls w + 1)%nat with (S (calls w)) in Hbad by lia.
    unfold healthCheck, waiting, active, failed, queueCall, await, logger, emit, running.
    kp. repeat split; try reflexivity; try lia. rewrite <- ?app_assoc. reflexivity.
  - replace (calls w + 2)%nat with (S (S (calls w))) in Hbad by lia.
    unfold healthCheck, waiting, active, failed, queueCall, await, logger, emit, running.
    kp. repeat split; try reflexivity; try lia. rewrite <- ?app_assoc. reflexivity.
  - replace (calls w + 3)%nat with (S (S (S (calls w)))) in Hbad by lia.
    unfold healthCheck, waiting, active, failed, queueCall, await, logger, emit, running.
    kp. repeat split; try reflexivity; try lia. rewrite <- ?app_assoc. reflexivity.
  - replace (calls w + 4)%nat with (S (S (S (S (calls w))))) in Hbad by lia.
    unfold healthCheck, waiting, active, failed, queueCall, await, logger, emit, running.
    kp. repeat split; try reflexivity; try lia. rewrite <- ?app_assoc. reflexivity.
Qed.

(** X15. A health check in which a queue call is rejected: when the first
    [k] calls ([k] < 5) are answered and the next is rejected, the check
    still ends normally and leaves the worker running; it has made [k] + 1
    calls, and what it leaves in the trace is the [k] answers followed by the
    one error line "Queue health check failed:".  The health line is not
    logged, and no warning is, whatever the failed count was. *)
Theorem health_check_failed_call (env : Env) (w : WState) (k : nat) :
  running w ->
  (k < 5)%nat ->
  (forall j, (j < k)%nat -> rejects env (calls w + j) = false) ->
  rejects env (calls w + k) = true ->
  let r := healthCheck env w in
  r.1 = Ret tt /\ running r.2 /\ calls r.2 = (calls w + S k)%nat /\
  since w r.2 = take k (healthAsked env (calls w)) ++
                [Logged Error "Queue health check failed:" None] /\
  existsb isWarning (since w r.2) = false.
Proof.
  intros Hw Hk Hok Hbad. cbv zeta.
  destruct (healthCheck_failed_post env w k Hw Hk Hok Hbad) as (Ho & Hr & Hc & Htr).
  apply since_app in Htr.
  repeat (split; [assumption|]). rewrite Htr.
  destruct k as [|[|[|[|[|k]]]]]; [reflexivity..|lia].
Qed.

Lemma pause_failure_post env sig w :
  running w ->
  signal env (calls w) = None ->
  post (gracefulShutdown env sig) w (fun o w' =>
    (rejects env (calls w) = true ->
     o = Halt 1 /\ deadline w' = None /\
     trace w' = trace w ++
       [AppShutdown sig; Logged Info "Gracefully shutting down worker..." None;
        Logged Error "Error during shutdown:" None]) /\
    (rejects env (calls w) = false ->
     signal env (S (calls w)) = None ->
     rejects env (S (calls w)) = true ->
     o = Halt 1 /\ deadline w' = None /\
     trace w' = trace w ++
       [AppShutdown sig; Logged Info "Gracefully shutting down worker..." None;
        Paused Webhook; Logged Error "Error during shutdown:" None])).
Proof.
  intros [Hs Hd] Hsig.
  destruct (rejects env (calls w)) eqn:Hr0.
  - unfold gracefulShutdown, pause, queueCall, await, logger, emit.
    kp; try (exfalso; congruence). split; [intros _|intros [=]].
    repeat split; try reflexivity. rewrite <- ?app_assoc. reflexivity.
  - destruct (signal env (S (calls w))) eqn:Hsig1;
      [apply post_mono with (P := fun _ _ => True); [exact I|];
       intros o w' _; split; [intros [=]|intros _ [=]]|].
    destruct (rejects env (S (calls w))) eqn:Hr1;
      [|apply post_mono with (P := fun _ _ => True); [exact I|];
        intros o w' _; split; [intros [=]|intros _ _ [=]]].
    unfold gracefulShutdown, pause, queueCall, await, logger, emit.
    kp; try (exfalso; congruence). split; [intros [=]|intros _ _ _].
    repeat split; try reflexivity. rewrite <- ?app_assoc. reflexivity.
Qed.

(** X16. A shutdown whose pause fails.  When the first pause (webhook lane)
    is rejected the worker logs the shutdown error and exits with code 1
    having paused nothing; when the first is answered and the second
    (general lane) is rejected it exits with code 1 with the webhook lane
    paused and the general lane not.  In both cases the shutdown timer was
    never armed, no lane was polled and no queue was closed. *)
Theorem shutdown_pause_failure (env : Env) (sig : string) (w : WState) :
  running w ->
  signal env (calls w) = None ->
  let r := gracefulShutdown env sig w in
  (rejects env (calls w) = true ->
   r.1 = Halt 1 /\ deadline r.2 = None /\
   since w r.2 =
     [AppShutdown sig; Logged Info "Gracefully shutting down worker..." None;
      Logged Error "Error during shutdown:" None]) /\
  (rejects env (calls w) = false ->
   signal env (S (calls w)) = None ->
   rejects env (S (calls w)) = true ->
   r.1 = Halt 1 /\ deadline r.2 = None /\
   since w r.2 =
     [AppShutdown sig; Logged Info "Gracefully shutting down worker..." None;
      Paused Webhook; Logged Error "Error during shutdown:" None]).
Proof.
  intros Hw Hsig. cbv zeta.
  destruct (pause_failure_post env sig w Hw Hsig) as [H1 H2].
  split.
  - intros Hr. destruct (H1 Hr) as (Ho & Hd & Htr).
    repeat split; try assumption. apply since_app, Htr.
  - intros Hr0 Hs1 Hr1. destruct (H2 Hr0 Hs1 Hr1) as (Ho & Hd & Htr).
    repeat split; try assumption. apply since_app, Htr.
Qed.

Lemma idle_shutdown_post env sig w :
  running w ->
  undisturbed env ->
  q_active env Webhook (calls w + 2) = [] ->
  q_active env General (calls w + 3) = [] ->
  (latency env (calls w + 2) + latency env (calls w + 3) < shutdownTimeoutMs)%N ->
  post (gracefulShutdown env sig) w (fun o w' =>
    o = Halt 0 /\
    calls w' = (calls w + 6)%nat /\
    now w' = (now w + latency env (calls w) + latency env (calls w + 1) +
              latency env (calls w + 2) + latency env (calls w + 3) +
              latency env (calls w + 4) + latency env (calls w + 5))%N /\
    trace w' = trace w ++
      [AppShutdown sig; Logged Info "Gracefully shutting down worker..." None;
       Paused Webhook; Paused General;
       TimerArmed (now w + latency env (calls w) + latency env (calls w + 1) +
                   shutdownTimeoutMs);
       Asked Webhook Active 0; Asked General Active 0;
       TimerCleared; Closed Webhook; Closed General;
       Logged Info "Worker shutdown complete" None]).
Proof.
  intros [Hs Hd] [Hrej Hsig] Ha Hb Hlat.
  replace (calls w + 1)%nat with (S (calls w)) in * by lia.
  replace (calls w + 2)%nat with (S (S (calls w))) in * by lia.
  replace (calls w + 3)%nat with (S (S (S (calls w)))) in * by lia.
  replace (calls w + 4)%nat with (S (S (S (S (calls w))))) in * by lia.
  replace (calls w + 5)%nat with (S (S (S (S (S (calls w)))))) in * by lia.
  unfold gracefulShutdown, pause, close, armShutdownTimer, clearShutdownTimer,
    queueCall, await, logger, emit, retrigger, forceShutdown, onShutdownTimeout.
  kp.
  change pollRounds with 30%nat. cbn [pollLoop].
  unfold active, queueCall, await, sleep, logger, emit, onShutdownTimeout.
  repeat (step_with ltac:(ksimpl; rewrite ?Ha, ?Hb; cbn [List.length Nat.add Nat.ltb Nat.leb])).
  all: try (apply N.leb_le in Heqb; unfold shutdownTimeoutMs in *; lia).
  all: try match goal with
           | H : (_ <=? _)%N = true |- _ =>
               apply N.leb_le in H; unfold shutdownTimeoutMs in *; lia
           end.
  repeat split; try lia. rewrite <- !app_assoc. reflexivity.
Qed.

(** X24. A shutdown with nothing to wait for.  When a trigger reaches a
    running worker, nothing disturbs the shutdown, the one poll finds both
    lanes without a job in flight and the two polling calls take less than
    the 30 seconds of the timer, the worker exits with code 0 after exactly
    six awaited calls and without sleeping, and what it leaves in the trace
    is exactly: the handler's line (for an uncaught fault), the shutdown
    notice, the two pauses, the timer armed 30 seconds after the second
    pause returned, one poll of each lane, the timer cleared, the two closes
    and the completion line. *)
Theorem idle_shutdown_trace (env : Env) (t : Trigger) (w : WState) :
  running w ->
  undisturbed env ->
  q_active env Webhook (calls w + 2) = [] ->
  q_active env General (calls w + 3) = [] ->
  (latency env (calls w + 2) + latency env (calls w + 3) < shutdownTimeoutMs)%N ->
  let r := onTrigger env t w in
  r.1 = Halt 0 /\
  calls r.2 = (calls w + 6)%nat /\
  now r.2 = (now w + latency env (calls w) + latency env (calls w + 1) +
             latency env (calls w + 2) + latency env (calls w + 3) +
             latency env (calls w + 4) + latency env (calls w + 5))%N /\
  since w r.2 =
    prologue t ++
    [AppShutdown (signalName t); Logged Info "Gracefully shutting down worker..." None;
     Paused Webhook; Paused General;
     TimerArmed (now w + latency env (calls w) + latency env (calls w + 1) +
                 shutdownTimeoutMs);
     Asked Webhook Active 0; Asked General Active 0;
     TimerCleared; Closed Webhook; Closed General;
     Logged Info "Worker shutdown complete" None].
Proof.
  intros Hw Hu Ha Hb Hlat. cbv zeta.
  assert (Hgo : forall w0,
    running w0 -> calls w0 = calls w -> now w0 = now w ->
    trace w0 = trace w ++ prologue t ->
    post (gracefulShutdown env (signalName t)) w0 (fun o w' =>
      o = Halt 0 /\ calls w' = (calls w + 6)%nat /\
      now w' = (now w + latency env (calls w) + latency env (calls w + 1) +
                latency env (calls w + 2) + latency env (calls w + 3) +
                latency env (calls w + 4) + latency env (calls w + 5))%N /\
      since w w' =
        prologue t ++
        [AppShutdown (signalName t); Logged Info "Gracefully shutting down worker..." None;
         Paused Webhook; Paused General;
         TimerArmed (now w + latency env (calls w) + latency env (calls w + 1) +
                     shutdownTimeoutMs);
         Asked Webhook Active 0; Asked General Active 0;
         TimerCleared; Closed Webhook; Closed General;
         Logged Info "Worker shutdown complete" None])).
  { intros w0 Hw0 Hc Hn Htr.
    eapply post_mono.
    - apply (idle_shutdown_post env (signalName t) w0 Hw0 Hu); rewrite Hc; assumption.
    - intros o w' (Ho & Hcalls & Hnow & Htrace).
      rewrite Hc, Hn in *. repeat (split; [assumption|]).
      apply since_app. rewrite Htrace, Htr, <- app_assoc. reflexivity. }
  destruct Hw as [Hs Hd].
  destruct t; unfold onTrigger;
    try (apply Hgo; [split; assumption|reflexivity|reflexivity|symmetry; apply app_nil_r]).
  - apply post_bind. unfold logger, emit. apply post_modify.
    apply Hgo; [split; assumption|reflexivity|reflexivity|reflexivity].
  - apply post_bind. unfold logger, emit. apply post_modify.
    apply Hgo; [split; assumption|reflexivity|reflexivity|reflexivity].
Qed.

(** **** The embedding at concrete inputs *)

Import Examples Scenarios.

Lemma health_check_failed_call_witness :
  running freshWorker /\
  (healthCheck flakyEnv freshWorker).1 = Ret tt /\
  since freshWorker (healthCheck flakyEnv freshWorker).2 =
    [Asked Webhook Waiting 3; Asked Webhook Active 1;
     Logged Error "Queue health check failed:" None].
Proof.
  split; [exact running_fresh|].
  destruct (health_check_failed_call flakyEnv freshWorker 2 running_fresh ltac:(lia))
    as (Ho & _ & _ & Htr & _).
  - intros j Hj. destruct j as [|[|j]]; [reflexivity|reflexivity|lia].
  - reflexivity.
  - split; [exact Ho|exact Htr].
Defined.

Lemma shutdown_pause_failure_witness :
  running freshWorker /\
  (gracefulShutdown halfPausedEnv "SIGTERM" freshWorker).1 = Halt 1 /\
  since freshWorker (gracefulShutdown halfPausedEnv "SIGTERM" freshWorker).2 =
    [AppShutdown "SIGTERM"; Logged Info "Gracefully shutting down worker..." None;
     Paused Webhook; Logged Error "Error during shutdown:" None].
Proof.
  split; [exact running_fresh|].
  destruct (shutdown_pause_failure halfPausedEnv "SIGTERM" freshWorker running_fresh eq_refl)
    as [_ Hsecond].
  destruct (Hsecond eq_refl eq_refl eq_refl) as (Ho & _ & Htr).
  split; [exact Ho|exact Htr].
Defined.

Lemma idle_shutdown_trace_witness :
  running freshWorker /\ undisturbed idleEnv /\
  (onTrigger idleEnv SIGTERM freshWorker).1 = Halt 0 /\
  now (onTrigger idleEnv SIGTERM freshWorker).2 = 30%N /\
  List.length (since freshWorker (onTrigger idleEnv SIGTERM freshWorker).2) = 11%nat.
Proof.
  assert (Hu : undisturbed idleEnv) by (split; intros n; reflexivity).
  split; [exact running_fresh|]. split; [exact Hu|].
  destruct (idle_shutdown_trace idleEnv SIGTERM freshWorker running_fresh Hu eq_refl eq_refl
              eq_refl) as (Ho & _ & Hnow & Htr).
  split; [exact Ho|]. split; [rewrite Hnow; reflexivity|rewrite Htr; reflexivity].
Defined.

End WorkerReadingFacts.

(** ** Facts about the startup script *)

Module StartupFacts.
Import Startup.

Ltac ssimpl := cbv beta.

Ltac sp1 :=
  lazymatch goal with
  | |- post (untilReady _ _ _ _ _) _ _ => fail
  | |- _ => step_with ssimpl
  end.

Ltac sp := repeat sp1.

(** X17. [start.sh] validates its environment first.  When one of
    [DATABASE_URL], [REDIS_URL], [SHOPIFY_API_KEY] is unset or empty the
    script prints the banner and one error line, which names the first of
    the three (in that order) that is missing, and exits with status 1; it
    has run no command: no probe, no migration, no server. *)
Theorem start_validates_environment (env : Env) (fuel : nat) :
  String.eqb (DATABASE_URL env) "" || String.eqb (REDIS_URL env) "" ||
    String.eqb (SHOPIFY_API_KEY env) "" = true ->
  exists line,
    start env fuel [] =
      (Halt 1, [Echo "🚀 Starting Shopify App Production Server..."; Echo line]) /\
    line =
      (if String.eqb (DATABASE_URL env) "" then "❌ ERROR: DATABASE_URL is not set"
       else if String.eqb (REDIS_URL env) "" then "❌ ERROR: REDIS_URL is not set"
       else "❌ ERROR: SHOPIFY_API_KEY is not set") /\
    existsb isCommand (start env fuel []).2 = false.
Proof.
  intros H. unfold start, require, echo, emit, bind, modify, exit, ret.
  destruct (String.eqb (DATABASE_URL env) ""); [eexists; repeat split|].
  destruct (String.eqb (REDIS_URL env) ""); [eexists; repeat split|].
  destruct (String.eqb (SHOPIFY_API_KEY env) ""); [eexists; repeat split|].
  discriminate.
Qed.

Lemma untilReady_first answers c line n : forall fuel k tr,
  firstAnswer (fun i => answers (k + i)%nat) n ->
  (n < fuel)%nat ->
  untilReady answers c line fuel k tr = (Ret tt, tr ++ waited c line n).
Proof.
  induction n as [|n IH]; intros fuel k tr [Hyes Hno] Hfuel.
  - destruct fuel as [|fuel]; [lia|]. simpl.
    unfold bind, emit, modify, ret. simpl.
    replace (k + 0)%nat with k in Hyes by lia. rewrite Hyes. reflexivity.
  - destruct fuel as [|fuel]; [lia|]. simpl.
    unfold bind, emit, echo, modify, ret. simpl.
    assert (H0 : answers k = false).
    { rewrite <- (Hno 0%nat) by lia. f_equal. lia. }
    rewrite H0. unfold emit, modify. simpl.
    rewrite (IH fuel (S k)).
    + rewrite <- !app_assoc. reflexivity.
    + split.
      * rewrite <- Hyes. f_equal. lia.
      * intros i Hi. rewrite <- (Hno (S i)) by lia. f_equal. lia.
    + lia.
Qed.

Lemma untilReady_post answers c line : forall fuel k tr,
  post (untilReady answers c line fuel k) tr (fun o tr' =>
    exists more,
      tr' = tr ++ more /\
      Forall (fun e => e = Ran c \/ e = Echo line \/ e = Slept 5) more /\
      match o with
      | Ret _ => exists n, answers n = true
      | OutOfFuel => forall i, (i < fuel)%nat -> answers (k + i)%nat = false
      | _ => False
      end).
Proof.
  induction fuel as [|fuel IH]; intros k tr.
  - unfold post. simpl. exists []. split; [symmetry; apply app_nil_r|].
    split; [constructor|]. intros i Hi. lia.
  - cbn [untilReady]. unfold emit, echo. sp.
    + exists [Ran c]. split; [reflexivity|].
      split; [constructor; [auto|constructor]|]. eauto.
    + eapply post_mono; [apply IH|].
      intros o tr' (more & -> & Hall & Ho).
      exists ([Ran c; Echo line; Slept 5] ++ more).
      split; [rewrite <- !app_assoc; reflexivity|].
      split.
      { apply Forall_app. split; [|exact Hall].
        repeat (constructor; [auto|]). constructor. }
      destruct o as [[]|e|z|]; try exact Ho.
      intros i Hi. destruct i as [|i].
      * replace (k + 0)%nat with k by lia. assumption.
      * replace (k + S i)%nat with (S k + i)%nat by lia. apply Ho. lia.
Qed.


(** X18. [start.sh] on a good day.  With the three variables set, the
    database answering its probe for the first time after [i] failures and
    Redis after [j], and the migration, the client generation and [mkdir]
    succeeding, the script ends by replacing itself with the server, and its
    transcript is exactly, with the progress lines in between: the banner
    and the validation line, [i] failed database probes each followed by a
    notice and a sleep of 5 seconds and one that succeeds, the same for
    Redis with [j], then migrate, generate, mkdir and [exec node]. *)
Theorem start_waits_then_serves (env : Env) (fuel i j : nat) :
  DATABASE_URL env <> "" ->
  REDIS_URL env <> "" ->
  SHOPIFY_API_KEY env <> "" ->
  firstAnswer (dbAnswers env) i ->
  firstAnswer (redisAnswers env) j ->
  migrateStatus env = 0%Z ->
  generateStatus env = 0%Z ->
  mkdirStatus env = 0%Z ->
  (i < fuel)%nat ->
  (j < fuel)%nat ->
  start env fuel [] =
    (Ret tt,
     [Echo "🚀 Starting Shopify App Production Server...";
      Echo "✅ Environment variables validated";
      Echo "⏳ Waiting for database connection..."] ++
     waited DbExecute "Database not ready, waiting 5 seconds..." i ++
     [Echo "✅ Database connection established";
      Echo "⏳ Waiting for Redis connection..."] ++
     waited RedisPing "Redis not ready, waiting 5 seconds..." j ++
     [Echo "✅ Redis connection established";
      Echo "📦 Running database migrations...";
      Ran MigrateDeploy;
      Echo "✅ Database migrations completed";
      Echo "🔧 Generating Prisma client...";
      Ran PrismaGenerate;
      Echo "✅ Prisma client generated";
      Ran MkdirLogs;
      Echo "🌟 Starting application server...";
      Exec NodeServer]).
Proof.
  intros Hd Hr Hk Hi Hj Hm Hg Hl Hfi Hfj.
  unfold start, require, run.
  apply String.eqb_neq in Hd, Hr, Hk. rewrite Hd, Hr, Hk, Hm, Hg, Hl.
  unfold bind, echo, emit, modify, ret. cbn [Z.eqb].
  rewrite (untilReady_first _ _ _ i) by assumption.
  rewrite (untilReady_first _ _ _ j) by assumption.
  rewrite <- !app_assoc. reflexivity.
Qed.

Lemma waiting_runs_nothing c line more :
  Forall (fun e => e = Ran c \/ e = Echo line \/ e = Slept 5) more ->
  existsb isExec more = false /\
  (c <> PrismaGenerate -> existsb (isRan PrismaGenerate) more = false).
Proof.
  induction 1 as [|e more He _ [IH1 IH2]]; [split; reflexivity|].
  simpl. destruct He as [-> | [-> | ->]]; simpl; split; auto.
  intros Hc. destruct c; try contradiction; auto.
Qed.

(** X19. [start.sh] starts the server only after everything before it
    succeeded.  In every run, if the server is started then the three
    variables were set, a database probe and a Redis probe succeeded, and
    migrate, generate and mkdir all returned 0, and starting the server is
    the last thing the script does.  If the script exits, its status is not
    0 and the server was not started.  If the migration fails, the client is
    not generated and the server is not started. *)
Theorem start_serves_only_after_migrations (env : Env) (fuel : nat) :
  let r := start env fuel [] in
  (existsb isExec r.2 = true ->
   r.1 = Ret tt /\
   migrateStatus env = 0%Z /\ generateStatus env = 0%Z /\ mkdirStatus env = 0%Z /\
   (exists i, dbAnswers env i = true) /\ (exists j, redisAnswers env j = true) /\
   DATABASE_URL env <> "" /\ REDIS_URL env <> "" /\ SHOPIFY_API_KEY env <> "" /\
   last r.2 = Some (Exec NodeServer)) /\
  (forall code, r.1 = Halt code -> code <> 0%Z /\ existsb isExec r.2 = false) /\
  (migrateStatus env <> 0%Z ->
   existsb (isRan PrismaGenerate) r.2 = false /\ existsb isExec r.2 = false).
Proof.
  cbv zeta.
  change (post (start env fuel) [] (fun o tr =>
    (existsb isExec tr = true ->
     o = Ret tt /\
     migrateStatus env = 0%Z /\ generateStatus env = 0%Z /\ mkdirStatus env = 0%Z /\
     (exists i, dbAnswers env i = true) /\ (exists j, redisAnswers env j = true) /\
     DATABASE_URL env <> "" /\ REDIS_URL env <> "" /\ SHOPIFY_API_KEY env <> "" /\
     last tr = Some (Exec NodeServer)) /\
    (forall code, o = Halt code -> code <> 0%Z /\ existsb isExec tr = false) /\
    (migrateStatus env <> 0%Z ->
     existsb (isRan PrismaGenerate) tr = false /\ existsb isExec tr = false))).
  unfold start, require, run, echo, emit. sp.
  all: try (split; [intros [=]|split; [intros code [= <-]; split; [lia|reflexivity]|
                                       intros _; split; reflexivity]]).
  eapply post_mono; [apply untilReady_post|].
  intros o tr (more1 & -> & Hall1 & Ho1).
  destruct (waiting_runs_nothing _ _ _ Hall1) as [He1 Hg1].
  specialize (Hg1 ltac:(discriminate)).
  destruct o as [[]|e|z|]; try contradiction.
  2: { simpl. rewrite ?existsb_app, ?He1, ?Hg1. simpl.
       split; [intros [=]|]. split; [intros code [=]|]. intros _. split; reflexivity. }
  sp.
  eapply post_mono; [apply untilReady_post|].
  intros o tr (more2 & -> & Hall2 & Ho2).
  destruct (waiting_runs_nothing _ _ _ Hall2) as [He2 Hg2].
  specialize (Hg2 ltac:(discriminate)).
  destruct o as [[]|e|z|]; try contradiction.
  2: { simpl. rewrite ?existsb_app, ?He1, ?Hg1, ?He2, ?Hg2. simpl.
       rewrite ?existsb_app, ?He1, ?Hg1, ?He2, ?Hg2. simpl.
       split; [intros [=]|]. split; [intros code [=]|]. intros _. split; reflexivity. }
  sp.
  all: rewrite ?existsb_app, ?He1, ?Hg1, ?He2, ?Hg2; simpl.
  all: rewrite ?existsb_app, ?He1, ?Hg1, ?He2, ?Hg2; simpl.
  all: repeat match goal with
              | H : (_ =? _)%Z = true |- _ => apply Z.eqb_eq in H
              | H : (_ =? _)%Z = false |- _ => apply Z.eqb_neq in H
              | H : String.eqb _ _ = false |- _ => apply String.eqb_neq in H
              end.
  all: split;
    [ intros Hex; try discriminate Hex
    | split;
      [ intros code Hc; try discriminate Hc; injection Hc as <-;
        split; first [assumption|reflexivity]
      | intros Hm; try contradiction; split; reflexivity ] ].
  repeat (split; [first [reflexivity | assumption]|]).
  match goal with
  | |- last (?x :: ?l ++ [?y]) = _ => change (last ((x :: l) ++ [y]) = Some y)
  end.
  apply last_snoc.
Qed.


Lemma untilReady_never answers c line : forall fuel k tr,
  (forall n, answers n = false) ->
  untilReady answers c line fuel k tr = (OutOfFuel, tr ++ stillWaiting c line fuel).
Proof.
  induction fuel as [|fuel IH]; intros k tr Hno.
  - simpl. rewrite app_nil_r. reflexivity.
  - simpl. unfold bind, emit, echo, modify, ret. simpl. rewrite Hno.
    unfold emit, modify. simpl. rewrite (IH (S k)) by exact Hno.
    rewrite <- !app_assoc. reflexivity.
Qed.

(** X26. [start.sh] waits for as long as a service does not answer.  With
    the three variables set and a database that never answers its probe,
    the script is still waiting after any number of rounds: it has printed
    the banner and the two lines before the wait, then probed, reported
    and slept 5 seconds once a round, and has run nothing else.  The same
    holds for Redis once the database has answered. *)
Theorem start_waits_for_services (env : Env) (fuel : nat) :
  DATABASE_URL env <> "" ->
  REDIS_URL env <> "" ->
  SHOPIFY_API_KEY env <> "" ->
  ((forall n, dbAnswers env n = false) ->
   start env fuel [] =
     (OutOfFuel,
      [Echo "🚀 Starting Shopify App Production Server...";
       Echo "✅ Environment variables validated";
       Echo "⏳ Waiting for database connection..."] ++
      stillWaiting DbExecute "Database not ready, waiting 5 seconds..." fuel)) /\
  (forall i,
     firstAnswer (dbAnswers env) i ->
     (i < fuel)%nat ->
     (forall n, redisAnswers env n = false) ->
     start env fuel [] =
       (OutOfFuel,
        [Echo "🚀 Starting Shopify App Production Server...";
         Echo "✅ Environment variables validated";
         Echo "⏳ Waiting for database connection..."] ++
        waited DbExecute "Database not ready, waiting 5 seconds..." i ++
        [Echo "✅ Database connection established";
         Echo "⏳ Waiting for Redis connection..."] ++
        stillWaiting RedisPing "Redis not ready, waiting 5 seconds..." fuel)).
Proof.
  intros Hd Hr Hk.
  apply String.eqb_neq in Hd, Hr, Hk.
  split.
  - intros Hno. unfold start, require. rewrite Hd, Hr, Hk.
    unfold bind, echo, emit, modify, ret. cbn [fst snd].
    rewrite untilReady_never by exact Hno. reflexivity.
  - intros i Hi Hfuel Hno. unfold start, require. rewrite Hd, Hr, Hk.
    unfold bind, echo, emit, modify, ret. cbn [fst snd].
    rewrite (untilReady_first _ _ _ i) by assumption.
    rewrite untilReady_never by exact Hno.
    rewrite <- !app_assoc. reflexivity.
Qed.

(** **** The embedding at concrete inputs *)

Import Scenarios.

Lemma start_waits_for_services_witness :
  (start downEnv 3 []).1 = OutOfFuel /\
  List.length (List.filter isSleep (start downEnv 3 []).2) = 3%nat /\
  existsb (isRan MigrateDeploy) (start downEnv 3 []).2 = false.
Proof.
  destruct (start_waits_for_services downEnv 3 ltac:(discriminate) ltac:(discriminate)
              ltac:(discriminate)) as [Hdb _].
  rewrite (Hdb (fun n => eq_refl)). repeat split.
Defined.

Lemma start_validates_environment_witness :
  start unsetEnv 10 [] =
    (Halt 1, [Echo "🚀 Starting Shopify App Production Server...";
              Echo "❌ ERROR: REDIS_URL is not set"]).
Proof.
  destruct (start_validates_environment unsetEnv 10 eq_refl) as (line & Hrun & -> & _).
  exact Hrun.
Defined.

Lemma start_waits_then_serves_witness :
  firstAnswer (dbAnswers slowEnv) 2 /\ firstAnswer (redisAnswers slowEnv) 1 /\
  (start slowEnv 10 []).1 = Ret tt /\
  List.length (List.filter isSleep (start slowEnv 10 []).2) = 3%nat /\
  last (start slowEnv 10 []).2 = Some (Exec NodeServer).
Proof.
  assert (Hdb : firstAnswer (dbAnswers slowEnv) 2).
  { split; [reflexivity|]. intros k Hk. destruct k as [|[|k]]; [reflexivity|reflexivity|lia]. }
  assert (Hredis : firstAnswer (redisAnswers slowEnv) 1).
  { split; [reflexivity|]. intros k Hk. destruct k as [|k]; [reflexivity|lia]. }
  split; [exact Hdb|]. split; [exact Hredis|].
  rewrite (start_waits_then_serves slowEnv 10 2 1 ltac:(discriminate) ltac:(discriminate)
             ltac:(discriminate) Hdb Hredis eq_refl eq_refl eq_refl ltac:(lia) ltac:(lia)).
  split; [reflexivity|]. split; reflexivity.
Defined.

Lemma start_serves_only_after_migrations_witness :
  migrateStatus unmigratedEnv <> 0%Z /\
  existsb (isRan PrismaGenerate) (start unmigratedEnv 10 []).2 = false /\
  existsb isExec (start unmigratedEnv 10 []).2 = false /\
  (start unmigratedEnv 10 []).1 = Halt 1.
Proof.
  assert (Hm : migrateStatus unmigratedEnv <> 0%Z) by discriminate.
  split; [exact Hm|].
  destruct (start_serves_only_after_migrations unmigratedEnv 10) as (_ & _ & Hstop).
  destruct (Hstop Hm) as [Hgen Hexec].
  split; [exact Hgen|]. split; [exact Hexec|reflexivity].
Defined.

End StartupFacts.

(** ** Facts about the container health check *)

Module ProbeFacts.
Import Probe.

Ltac psimpl :=
  cbv beta;
  cbn [now calls out] in *;
  repeat match goal with
         | H : rejects _ _ = _ |- _ => rewrite H
         | H : http _ = _ |- _ => rewrite H
         end.

Ltac pp := repeat (step_with psimpl).

(** X20. The exit code of [healthcheck.js].  The script always exits, with
    code 0 or 1.  It exits with 0 exactly when none of its first five awaited
    calls (query, disconnect, connect, ping, quit) is rejected, the server
    answers within the 5 seconds of the request's own timeout with a status
    from 200 to 399, and the six calls together take less than the 10
    seconds of the global timer. *)
Theorem probe_exit_code (env : Env) :
  let r := main env startProbe in
  (r.1 = Halt 0 \/ r.1 = Halt 1) /\
  (r.1 = Halt 0 <->
   (forall n, (n < 5)%nat -> rejects env n = false) /\
   (exists c, http env = Responded c /\ (200 <= c < 400)%Z) /\
   (latency env 5 < TIMEOUT)%N /\
   (latency env 0 + latency env 1 + latency env 2 + latency env 3 + latency env 4 +
    latency env 5 < TIMEOUT * 2)%N).
Proof.
  cbv zeta.
  change (post (main env) startProbe (fun o s =>
    (o = Halt 0 \/ o = Halt 1) /\
    (o = Halt 0 <->
     (forall n, (n < 5)%nat -> rejects env n = false) /\
     (exists c, http env = Responded c /\ (200 <= c < 400)%Z) /\
     (latency env 5 < TIMEOUT)%N /\
     (latency env 0 + latency env 1 + latency env 2 + latency env 3 + latency env 4 +
      latency env 5 < TIMEOUT * 2)%N))).
  unfold main, runHealthCheck, checkDatabase, checkRedis, checkHttpServer, settled, call,
    await, onTimeout, print, startProbe.
  pp.
  all: match goal with
       | |- context [http ?e = _] =>
           destruct (http e) as [c| |] eqn:Hhttp; rewrite ?Hhttp in *
       end.
  all: repeat match goal with
              | H : context [(?a <? ?b)%N] |- _ =>
                  let E := fresh "Hlt" in
                  destruct (a <? b)%N eqn:E; rewrite ?E in *;
                  [apply N.ltb_lt in E|apply N.ltb_ge in E]
              | |- context [(?a <? ?b)%N] =>
                  let E := fresh "Hlt" in
                  destruct (a <? b)%N eqn:E; rewrite ?E in *;
                  [apply N.ltb_lt in E|apply N.ltb_ge in E]
              | H : context [(?a <=? ?b)%Z] |- _ =>
                  let E := fresh "Hle" in
                  destruct (a <=? b)%Z eqn:E; rewrite ?E in *;
                  [apply Z.leb_le in E|apply Z.leb_gt in E]
              | |- context [(?a <=? ?b)%Z] =>
                  let E := fresh "Hle" in
                  destruct (a <=? b)%Z eqn:E; rewrite ?E in *;
                  [apply Z.leb_le in E|apply Z.leb_gt in E]
              | |- context [(?a <? ?b)%Z] =>
                  let E := fresh "Hlt" in
                  destruct (a <? b)%Z eqn:E; rewrite ?E in *;
                  [apply Z.ltb_lt in E|apply Z.ltb_ge in E]
              end.
  all: cbn [forallb isHealthy status andb] in *.
  all: repeat match goal with
              | H : (_ <=? _)%N = true |- _ => apply N.leb_le in H
              | H : (_ <=? _)%N = false |- _ => apply N.leb_gt in H
              | H : (_ <? _)%N = true |- _ => apply N.ltb_lt in H
              | H : (_ <? _)%N = false |- _ => apply N.ltb_ge in H
              | H : (_ <=? _)%Z = true |- _ => apply Z.leb_le in H
              | H : (_ <=? _)%Z = false |- _ => apply Z.leb_gt in H
              | H : (_ <? _)%Z = true |- _ => apply Z.ltb_lt in H
              | H : (_ <? _)%Z = false |- _ => apply Z.ltb_ge in H
              end.
  all: unfold TIMEOUT in *.
  all: (split; [first [left; reflexivity | right; reflexivity]|]).
  all: split; [intros Heq; try discriminate Heq
              |intros (Hrej & (c' & Hc' & Hrange) & Hfast & Hlat); try reflexivity; exfalso].
  all: try match goal with
           | H : rejects _ ?k = true |- False =>
               rewrite Hrej in H by lia; discriminate H
           end.
  all: try (simplify_eq; lia).
  split; [intros n Hn; destruct n as [|[|[|[|[|n]]]]]; first [assumption|lia]|].
  split; [exists c; split; [reflexivity|lia]|].
  split; lia.
Qed.




(** **** The embedding at concrete inputs *)

Import Scenarios.

Lemma probe_exit_code_witness :
  (main healthyProbe startProbe).1 = Halt 0 /\
  (main redirectProbe startProbe).1 = Halt 0 /\
  (main errorProbe startProbe).1 = Halt 1 /\
  (main slowProbe startProbe).1 = Halt 1.
Proof.
  destruct (probe_exit_code healthyProbe) as [_ [_ Hok]].
  destruct (probe_exit_code redirectProbe) as [_ [_ Hok']].
  destruct (probe_exit_code errorProbe) as [[Hzero|Hone] [Hneed _]].
  { destruct (Hneed Hzero) as (_ & (c & Hc & Hrange) & _).
    injection Hc as <-. lia. }
  destruct (probe_exit_code slowProbe) as [[Hzero|Hslow] [Hneed' _]].
  { destruct (Hneed' Hzero) as (_ & _ & Hfast & _).
    vm_compute in Hfast. discriminate Hfast. }
  split; [|split; [|split; [exact Hone|exact Hslow]]].
  - apply Hok. split; [intros n _; reflexivity|].
    split; [exists 200%Z; split; [reflexivity|lia]|split; reflexivity].
  - apply Hok'. split; [intros n _; reflexivity|].
    split; [exists 399%Z; split; [reflexivity|lia]|split; reflexivity].
Defined.


End ProbeFacts.

(** ** Facts about the verification script *)

Module VerifyFacts.
Import Verify.

Lemma runCheck_counts d fn t :
  totalChecks (runCheck d fn t) = S (totalChecks t) /\
  passedChecks (runCheck d fn t) =
    (passedChecks t + if isTrue (fn tt) then 1 else 0)%nat /\
  warnings (runCheck d fn t) = (warnings t + if isWarning (fn tt) then 1 else 0)%nat.
Proof. unfold runCheck. destruct (fn tt); simpl; repeat split; lia. Qed.

Lemma count_cons f v vs : count f (v :: vs) = ((if f v then 1 else 0) + count f vs)%nat.
Proof. unfold count. simpl. destruct (f v); reflexivity. Qed.

Lemma count_nil f : count f [] = 0%nat.
Proof. reflexivity. Qed.

Lemma count_app f vs ws : count f (vs ++ ws) = (count f vs + count f ws)%nat.
Proof. unfold count. rewrite List.filter_app, length_app. reflexivity. Qed.

Lemma foldl_runCheck_counts {X} (d : X -> string) (v : X -> Verdict) (l : list X) : forall t,
  let t' := foldl (fun t x => runCheck (d x) (fun _ => v x) t) t l in
  totalChecks t' = (totalChecks t + List.length l)%nat /\
  passedChecks t' = (passedChecks t + count isTrue (map v l))%nat /\
  warnings t' = (warnings t + count isWarning (map v l))%nat.
Proof.
  induction l as [|x l IH]; intros t; cbn [foldl map List.length].
  - rewrite !count_nil. repeat split; lia.
  - destruct (IH (runCheck (d x) (fun _ => v x) t)) as (H1 & H2 & H3).
    destruct (runCheck_counts (d x) (fun _ => v x) t) as (E1 & E2 & E3).
    cbv zeta in *. rewrite H1, H2, H3, E1, E2, E3, !count_cons.
    repeat split; lia.
Qed.

Lemma runChecks_counts p :
  totalChecks (runChecks p) = List.length (verdicts p) /\
  passedChecks (runChecks p) = count isTrue (verdicts p) /\
  warnings (runChecks p) = count isWarning (verdicts p).
Proof.
  unfold runChecks, verdicts.
  set (t0 := say Banner (mkTally 0 0 0 [])).
  destruct (foldl_runCheck_counts (fun file => "Required file: " +:+ file) (requiredFile p)
              requiredFiles t0) as (A1 & A2 & A3).
  cbv zeta in A1, A2, A3.
  set (t1 := foldl _ t0 requiredFiles) in *.
  destruct (foldl_runCheck_counts (fun c : string * (Project -> Verdict) => c.1)
              (fun c => c.2 p) contentChecks t1) as (B1 & B2 & B3).
  cbv zeta in B1, B2, B3.
  set (t2 := foldl _ t1 contentChecks) in *.
  assert (H0 : totalChecks t0 = 0%nat /\ passedChecks t0 = 0%nat /\ warnings t0 = 0%nat)
    by (repeat split).
  destruct H0 as (Z1 & Z2 & Z3).
  rewrite !length_app, !count_app, !length_map.
  destruct (negb (String.eqb (platform p) "win32")).
  - destruct (runCheck_counts "Script permissions" (fun _ => permissionCheck p) t2)
      as (C1 & C2 & C3).
    rewrite C1, C2, C3, B1, B2, B3, A1, A2, A3, Z1, Z2, Z3, !count_cons, !count_nil.
    cbn [List.length]. repeat split; lia.
  - rewrite B1, B2, B3, A1, A2, A3, Z1, Z2, Z3, !count_nil.
    cbn [List.length]. repeat split; lia.
Qed.

Lemma count_partition vs :
  (count isTrue vs + count isWarning vs + count isThrow vs = List.length vs)%nat.
Proof.
  induction vs as [|v vs IH]; [reflexivity|].
  rewrite !count_cons. cbn [List.length]. destruct v; cbn [isTrue isWarning isThrow]; lia.
Qed.

Lemma count_throw_existsb vs : (0 < count isThrow vs)%nat <-> existsb isThrow vs = true.
Proof.
  induction vs as [|v vs IH]; cbn [existsb].
  - rewrite count_nil. split; [lia|discriminate].
  - rewrite count_cons. destruct (isThrow v); cbn [orb]; [split; [reflexivity|lia]|exact IH].
Qed.

Lemma summary_code t :
  ((summary t).1 = 1%Z <-> (passedChecks t + warnings t < totalChecks t)%nat) /\
  ((summary t).1 = 0%Z <-> (totalChecks t <= passedChecks t + warnings t)%nat) /\
  totalChecks (summary t).2 = totalChecks t /\
  passedChecks (summary t).2 = passedChecks t /\
  warnings (summary t).2 = warnings t /\
  last (transcript (summary t).2) =
    Some (if (passedChecks t + warnings t <? totalChecks t)%nat then VerificationFailed
          else if (0 <? warnings t)%nat then PassedWithWarnings else Completed).
Proof.
  unfold summary. cbv zeta.
  cbn [say totalChecks passedChecks warnings transcript].
  destruct (0 <? warnings t)%nat eqn:Hw;
    cbn [say totalChecks passedChecks warnings transcript].
  all: destruct (0 <? totalChecks t - passedChecks t - warnings t)%nat eqn:Hf;
    rewrite ?Hw; cbn [fst snd say totalChecks passedChecks warnings transcript].
  all: destruct (Nat.ltb_spec (passedChecks t + warnings t) (totalChecks t)).
  all: first [apply Nat.ltb_lt in Hf|apply Nat.ltb_ge in Hf]; try lia.
  all: repeat split; try reflexivity; try lia; try discriminate; try apply last_snoc.
Qed.

(** X22. The verification script counts what its checks do.  It runs 36
    checks, 35 on Windows (where the permission check is skipped);
    [passedChecks] is the number of checks that returned [true], [warnings]
    the number that returned ['warning'], and with the checks that threw
    they add up to the total.  The exit code is 1 exactly when some check
    threw and 0 exactly when none did: warnings never fail the run. *)
Theorem verify_exit_code (p : Project) :
  totalChecks (verify p).2 = (if String.eqb (platform p) "win32" then 35 else 36)%nat /\
  passedChecks (verify p).2 = count isTrue (verdicts p) /\
  warnings (verify p).2 = count isWarning (verdicts p) /\
  (passedChecks (verify p).2 + warnings (verify p).2 + count isThrow (verdicts p) =
   totalChecks (verify p).2)%nat /\
  ((verify p).1 = 1%Z <-> existsb isThrow (verdicts p) = true) /\
  ((verify p).1 = 0%Z <-> existsb isThrow (verdicts p) = false).
Proof.
  unfold verify.
  destruct (summary_code (runChecks p)) as (Hone & Hzero & -> & -> & -> & _).
  destruct (runChecks_counts p) as (Ht & Hp & Hw).
  rewrite Ht, Hp, Hw in *.
  pose proof (count_partition (verdicts p)) as Hpart.
  pose proof (count_throw_existsb (verdicts p)) as Hthrow.
  split.
  { unfold verdicts. rewrite !length_app, !length_map.
    change (List.length requiredFiles) with 25%nat.
    change (List.length contentChecks) with 10%nat.
    destruct (String.eqb (platform p) "win32"); reflexivity. }
  split; [reflexivity|]. split; [reflexivity|]. split; [exact Hpart|].
  split.
  - rewrite Hone, <- Hthrow. lia.
  - rewrite Hzero. split.
    + intros Hle. destruct (existsb isThrow (verdicts p)); [|reflexivity].
      assert (0 < count isThrow (verdicts p))%nat by (apply Hthrow; reflexivity). lia.
    + intros E. destruct (count isThrow (verdicts p)) eqn:Ec; [lia|].
      assert (Hpos : existsb isThrow (verdicts p) = true) by (apply Hthrow; lia).
      congruence.
Qed.

(** X23. A missing required file fails the verification: when any of the
    25 required files does not exist the script exits with code 1 and its
    last line is the failure notice, whatever the other checks find. *)
Theorem verify_missing_file_fails (p : Project) (file : string) :
  In file requiredFiles ->
  existsSync p file = false ->
  (verify p).1 = 1%Z /\
  last (transcript (verify p).2) = Some VerificationFailed.
Proof.
  intros Hin Hmiss.
  assert (Hthrow : existsb isThrow (verdicts p) = true).
  { unfold verdicts. rewrite existsb_app. apply orb_true_iff. left.
    apply existsb_exists. exists (requiredFile p file).
    split; [apply in_map, Hin|]. unfold requiredFile. rewrite Hmiss. reflexivity. }
  unfold verify.
  destruct (summary_code (runChecks p)) as (Hone & _ & _ & _ & _ & Hlast).
  destruct (runChecks_counts p) as (Ht & Hp & Hw).
  pose proof (count_partition (verdicts p)) as Hpart.
  apply count_throw_existsb in Hthrow.
  assert (Hlt : (passedChecks (runChecks p) + warnings (runChecks p) <
                 totalChecks (runChecks p))%nat) by lia.
  split; [apply Hone, Hlt|].
  rewrite Hlast. apply Nat.ltb_lt in Hlt. rewrite Hlt. reflexivity.
Qed.

(** **** The embedding at concrete inputs *)

Import Scenarios.

Lemma verify_exit_code_witness :
  (verify otherImageProject).1 = 0%Z /\
  totalChecks (verify otherImageProject).2 = 36%nat /\
  passedChecks (verify otherImageProject).2 = 35%nat /\
  warnings (verify otherImageProject).2 = 1%nat.
Proof.
  destruct (verify_exit_code otherImageProject) as (Ht & Hp & Hw & _ & _ & Hzero).
  split; [apply Hzero; vm_compute; reflexivity|].
  split; [rewrite Ht; reflexivity|].
  split; [rewrite Hp; vm_compute; reflexivity|rewrite Hw; vm_compute; reflexivity].
Defined.

Lemma verify_missing_file_fails_witness :
  In "scripts/worker.js" requiredFiles /\
  existsSync incompleteProject "scripts/worker.js" = false /\
  (verify incompleteProject).1 = 1%Z.
Proof.
  assert (Hin : In "scripts/worker.js" requiredFiles).
  { unfold requiredFiles. cbn [In]. repeat (first [left; reflexivity | right]). }
  split; [exact Hin|]. split; [reflexivity|].
  apply (verify_missing_file_fails incompleteProject "scripts/worker.js" Hin eq_refl).
Defined.

End VerifyFacts.
